(** * Squidle export reconciliation: a shallow embedding

    The development follows the two scripts of the repository,
    [image_collection_with_ann.py] and [single_image_with_ann.py]:

    - Python strings are Rocq strings (one [ascii] per character; lower-casing
      acts on the ASCII letters), Python [int] is [Z];
    - a decoded JSON document is the inductive [json], a Python dict with
      string keys being a finite map ([gmap string]);
    - a pandas DataFrame is a [table]: its column labels and its rows, every
      row a list of cells aligned with the labels;
    - a Python exception is the [Raise] case of [outcome];
    - [pd.to_numeric(., errors="coerce").astype("Int64")] works on a whole
      column: the column is one of int64 when it holds integers only, and one
      of float64, in which an integer is rounded to the nearest float, as
      soon as one value is missing or no integer;
    - what the scripts take from pandas, sqapi and the interpreter ([int],
      [str], the reading of a string by [pd.to_numeric], [pd.json_normalize],
      the order of a [set]) is the interface [Runtime]; what the remote
      service answers is the record [server]. *)

From Stdlib Require Import ZArith Lia Permutation Ascii.
From stdpp Require Import base list strings gmap pretty.

Set Warnings "-register-all".

Open Scope Z_scope.

(** ** Results of fallible code *)

Inductive exn : Type :=
  | ValueError (msg : string) (first_cols : list string)
  | TypeError
  | KeyError (key : string)
  | AttributeError
  | NotImplementedError
  | OverflowError
  | RemoteError.

Inductive outcome (A : Type) : Type :=
  | Ok (a : A)
  | Raise (e : exn).

Arguments Ok {A} a.
Arguments Raise {A} e.

Definition bind {A B : Type} (m : outcome A) (k : A -> outcome B) : outcome B :=
  match m with
  | Ok a => k a
  | Raise e => Raise e
  end.

Notation "'do' x <- m ; k" := (bind m (fun x => k))
  (at level 10, x name, m at level 100, k at level 200).

Definition succeeded {A : Type} (m : outcome A) : bool :=
  match m with Ok _ => true | Raise _ => false end.

(** ** Python string operations used by the scripts *)

Module PyStr.

Definition lower_ascii (c : Ascii.ascii) : Ascii.ascii :=
  let n := Ascii.nat_of_ascii c in
  if ((65 <=? n)%nat && (n <=? 90)%nat)%bool
  then Ascii.ascii_of_nat (n + 32) else c.

(** [s.lower()] *)
Fixpoint lower (s : string) : string :=
  match s with
  | EmptyString => EmptyString
  | String c r => String (lower_ascii c) (lower r)
  end.

(** [s.endswith(suf)]: some tail of [s] is [suf]. *)
Fixpoint endswith (s suf : string) : bool :=
  if String.eqb s suf then true
  else match s with
       | EmptyString => false
       | String _ r => endswith r suf
       end.

(** [sub in s] *)
Fixpoint contains (sub s : string) : bool :=
  if String.prefix sub s then true
  else match s with
       | EmptyString => false
       | String _ r => contains sub r
       end.

(** [s.split(".")]: never empty, [""] for the empty string. *)
Fixpoint split_dot (s : string) : list string :=
  match s with
  | EmptyString => [EmptyString]
  | String c r =>
      if Ascii.eqb c "."%char then EmptyString :: split_dot r
      else match split_dot r with
           | h :: t => String c h :: t
           | [] => [String c EmptyString]
           end
  end.

(** [".".join(parts)] *)
Fixpoint join_dot (parts : list string) : string :=
  match parts with
  | [] => EmptyString
  | [p] => p
  | p :: rest => p +:+ "." +:+ join_dot rest
  end.

End PyStr.

(** ** Values: decoded JSON, cells and tables *)

(** A value decoded by [response.json()].  [F] stands for Python floats, of
    which the scripts only use what [Runtime] lists. *)
Inductive json (F : Type) : Type :=
  | JNull
  | JBool (b : bool)
  | JInt (z : Z)
  | JFloat (f : F)
  | JStr (s : string)
  | JArr (items : list (json F))
  | JObj (fields : gmap string (json F)).

Arguments JNull {F}.
Arguments JBool {F} b.
Arguments JInt {F} z.
Arguments JFloat {F} f.
Arguments JStr {F} s.
Arguments JArr {F} items.
Arguments JObj {F} fields.

(** A cell of a DataFrame: pandas' missing marker [NaN], or a value. *)
Inductive cell (F : Type) : Type :=
  | CNaN
  | CVal (v : json F).

Arguments CNaN {F}.
Arguments CVal {F} v.

Record table (F : Type) : Type := DataFrame {
  columns : list string;
  rows : list (list (cell F))
}.

Arguments DataFrame {F} columns rows.
Arguments columns {F} t.
Arguments rows {F} t.

(** How [pd.to_numeric(., errors="coerce")] reads one value of a column. *)
Inductive numeric : Type :=
  | NInt (z as_float : Z)   (* the integer [z]; [as_float] is the integer value of
                               the float64 it becomes in a column of floats *)
  | NFloat (v : option Z)   (* a float: [Some z] when it is the integer [z], [None]
                               when it is no integer *)
  | NNaN.                   (* missing, or no number: [NaN] *)

(** What the scripts take from the interpreter and from pandas. *)
Class Runtime (F : Type) : Type := {
  (** [int(s)] for a string, [int(x)] for a float; [None] when it raises *)
  int_of_str : string -> option Z;
  int_of_float : F -> option Z;
  (** [bool(x)] and [str(v)] for values that are not strings *)
  float_truthy : F -> bool;
  str_of_value : json F -> string;
  (** how [pd.to_numeric(., errors="coerce")] reads a float or a string *)
  to_numeric_value : json F -> numeric;
  (** [pd.json_normalize(recs)] *)
  json_normalize : json F -> outcome (table F);
  (** [list(set(l))]: the elements of [l], once each, in the set's order *)
  set_order : list string -> list string
}.

(** ** The remote service, as the scripts see it *)

Inductive endpoint : Type :=
  | MediaCollectionExport (collection_id : Z)   (* /api/media_collection/<id>/export *)
  | AnnotationSetExport (annset_id : Z)         (* /api/annotation_set/<id>/export *)
  | AnnotationExport.                           (* /api/annotation/export *)

Inductive template : Type :=
  | DataframeCsv      (* .template("dataframe.csv") *)
  | JsonTemplate.     (* .template("json") *)

Record request : Type := Request {
  resource : endpoint;
  include_columns : option (list string);
  paging : option (Z * Z);                 (* limit, offset *)
  filters : list (string * Z);             (* .filter(field, "eq", value) *)
  json_normalize_op : bool;                (* .file_op("json_normalize", module="pandas") *)
  tmpl : template
}.

Record server (F : Type) : Type := Server {
  (** [pd.read_csv(io.StringIO(req.execute().text))] *)
  read_csv_of : request -> outcome (table F);
  (** [req.execute().json()] *)
  json_of : request -> outcome (json F);
  (** [sq.get("/api/annotation/<id>").execute().json()] *)
  get_annotation : Z -> outcome (json F)
}.

Arguments Server {F} read_csv_of json_of get_annotation.
Arguments read_csv_of {F} s r.
Arguments json_of {F} s r.
Arguments get_annotation {F} s aid.

(** ** Operations on values shared by the two scripts *)

Section Shared.
Context {F : Type} `{Runtime F}.

(** [df.empty]: one of the two axes has length zero. *)
Definition empty (df : table F) : bool :=
  match columns df, rows df with
  | [], _ => true
  | _, [] => true
  | _, _ => false
  end.

(** Position of the label [c]. *)
Fixpoint col_index (c : string) (cols : list string) : option nat :=
  match cols with
  | [] => None
  | x :: rest => if String.eqb x c then Some O else option_map S (col_index c rest)
  end.

(** [row.get(c)] *)
Definition row_get (cols : list string) (row : list (cell F)) (c : string)
  : option (cell F) :=
  match col_index c cols with
  | Some i => row !! i
  | None => None
  end.

(** The cell of [row] in [df[c]]. *)
Definition cell_at (cols : list string) (c : string) (row : list (cell F)) : cell F :=
  match row_get cols row c with
  | Some x => x
  | None => CNaN
  end.

(** [df[c]] as a column of cells. *)
Definition column (df : table F) (c : string) : list (cell F) :=
  map (cell_at (columns df) c) (rows df).

(** [df[keep]] for a list of labels. *)
Definition select_columns (keep : list string) (df : table F) : table F :=
  DataFrame keep (map (fun row => map (fun c => cell_at (columns df) c row) keep) (rows df)).

(** [df[mask]] for a boolean mask; [<NA>] in a mask counts as [False]. *)
Fixpoint boolean_index (mask : list bool) (rs : list (list (cell F)))
  : list (list (cell F)) :=
  match mask, rs with
  | b :: mask', r :: rs' =>
      if b then r :: boolean_index mask' rs' else boolean_index mask' rs'
  | _, _ => []
  end.

(** The float64 nearest to the integer [z], ties to even: [float(z)], for
    an integer within the range of the floats. *)
Definition round_float64 (z : Z) : Z :=
  let a := Z.abs z in
  if a <? 2 ^ 53 then z
  else
    let shift := Z.log2 a - 52 in
    let q := Z.shiftr a shift in
    let r := a - Z.shiftl q shift in
    let half := Z.shiftl 1 (shift - 1) in
    let q' := if ((half <? r) || ((r =? half) && Z.odd q))%bool then q + 1 else q in
    Z.sgn z * Z.shiftl q' shift.

Definition in_int64 (z : Z) : bool := ((- 2 ^ 63 <=? z) && (z <? 2 ^ 63))%bool.

Definition in_uint64 (z : Z) : bool := ((0 <=? z) && (z <? 2 ^ 64))%bool.

(** A Python [int] as [pd.to_numeric] reads it. *)
Definition numeric_of_int (z : Z) : numeric := NInt z (round_float64 z).

(** One value of the column as [pd.to_numeric(., errors="coerce")] reads
    it: [None], [NaN], a list and a mapping are no numbers. *)
Definition numeric_of (x : cell F) : numeric :=
  match x with
  | CNaN => NNaN
  | CVal JNull => NNaN
  | CVal (JBool b) => numeric_of_int (if b then 1 else 0)
  | CVal (JInt z) => numeric_of_int z
  | CVal (JArr _) => NNaN
  | CVal (JObj _) => NNaN
  | CVal v => to_numeric_value v
  end.

(** The dtype [pd.to_numeric] gives the column: [int64] when every value is
    an integer of that range; [uint64] when every value is an integer from
    0 to 2^64 - 1; [float64] in every other case, also when one value only
    is missing or no number. *)
Inductive numeric_dtype : Type := Int64 | UInt64 | Float64.

Definition is_int64 (n : numeric) : bool :=
  match n with NInt z _ => in_int64 z | _ => false end.

Definition is_uint64 (n : numeric) : bool :=
  match n with NInt z _ => in_uint64 z | _ => false end.

Definition to_numeric_dtype (ns : list numeric) : numeric_dtype :=
  if forallb is_int64 ns then Int64
  else if forallb is_uint64 ns then UInt64
  else Float64.

(** [.astype("Int64")] on one value of a column of integers. *)
Definition cast_int (n : numeric) : option Z :=
  match n with NInt z _ => Some z | _ => None end.

(** [.astype("Int64")] on one value of a column of floats: [NaN] becomes
    [<NA>], a float that is an integer of int64 becomes that integer, and
    the cast raises on any other float. *)
Definition cast_float (n : numeric) : outcome (option Z) :=
  match n with
  | NNaN => Ok None
  | NInt _ z | NFloat (Some z) => if in_int64 z then Ok (Some z) else Raise TypeError
  | NFloat None => Raise TypeError
  end.

Fixpoint cast_floats (ns : list numeric) : outcome (list (option Z)) :=
  match ns with
  | [] => Ok []
  | n :: rest =>
      do m <- cast_float n;
      do ms <- cast_floats rest;
      Ok (m :: ms)
  end.

(** [pd.to_numeric(xs, errors="coerce").astype("Int64")] on a column.  A
    column of [uint64] holds an integer beyond int64, on which the cast
    raises. *)
Definition coerce_column (xs : list (cell F)) : outcome (list (option Z)) :=
  let ns := map numeric_of xs in
  match to_numeric_dtype ns with
  | Int64 => Ok (map cast_int ns)
  | UInt64 => Raise TypeError
  | Float64 => cast_floats ns
  end.

(** [int(v)] *)
Definition py_int (v : json F) : outcome Z :=
  match v with
  | JInt z => Ok z
  | JBool b => Ok (if b then 1 else 0)
  | JFloat f =>
      match int_of_float f with
      | Some z => Ok z
      | None => Raise (ValueError "cannot convert float to integer" [])
      end
  | JStr s =>
      match int_of_str s with
      | Some z => Ok z
      | None => Raise (ValueError "invalid literal for int()" [])
      end
  | _ => Raise TypeError
  end.

(** [bool(v)] *)
Definition truthy (v : json F) : bool :=
  match v with
  | JNull => false
  | JBool b => b
  | JInt z => negb (z =? 0)
  | JFloat f => float_truthy f
  | JStr s => negb (String.eqb s "")
  | JArr items => match items with [] => false | _ => true end
  | JObj fields => negb (bool_decide (fields = ∅))
  end.

(** [str(v)] *)
Definition py_str (v : json F) : string :=
  match v with
  | JStr s => s
  | JInt z => pretty z
  | _ => str_of_value v
  end.

(** [js.get("objects", js)] *)
Definition get_objects (js : json F) : outcome (json F) :=
  match js with
  | JObj fields =>
      match fields !! "objects" with
      | Some recs => Ok recs
      | None => Ok js
      end
  | _ => Raise AttributeError
  end.

(** [x or []] for an optional list. *)
Definition or_nil (l : option (list string)) : list string :=
  match l with
  | Some l => l
  | None => []
  end.

(** [[c for c in wanted if c in df.columns]] *)
Definition present_columns (wanted : list string) (df : table F) : list string :=
  List.filter (fun c => bool_decide (c ∈ columns df)) wanted.

End Shared.

(** ** Join-key detection, the part common to the two scripts *)

Definition MEDIA_SUFFIXES : list string :=
  ["point.media.id"; "media.id"; "media_id"; "point_media_id"].

(** [c.lower().endswith((...))] *)
Definition has_media_suffix (c : string) : bool :=
  existsb (PyStr.endswith (PyStr.lower c)) MEDIA_SUFFIXES.

(** ["media" in cl and "id" in cl] *)
Definition mentions_media_id (c : string) : bool :=
  let cl := PyStr.lower c in
  (PyStr.contains "media" cl && PyStr.contains "id" cl)%bool.

(** The loop [for c in df.columns: ... return c]. *)
Fixpoint first_mention (cols : list string) : option string :=
  match cols with
  | [] => None
  | c :: rest => if mentions_media_id c then Some c else first_mention rest
  end.

(** ** single_image_with_ann.py *)

Module SingleImage.

Definition ENFORCE_ANNSET : bool := true.

Definition ANN_FIELDS : list string :=
  ["id"; "type";
   "annotation_set_id"; "point.annotation_set_id";
   "label.id"; "label.name"; "label_scheme.id"; "label_scheme.name";
   "point.x"; "point.y"; "point.media.id";
   "created_at"; "user.username"].

Definition detect_msg : string :=
  "Could not find media-id column. First cols: ".

Definition detect_ann_media_col (cols : list string) : outcome string :=
  let cands := List.filter has_media_suffix cols in
  match cands with
  | c :: _ => Ok c
  | [] =>
      match first_mention cols with
      | Some c => Ok c
      | None => Raise (ValueError detect_msg (take 20 cols))
      end
  end.

(** The diagnostics printed by the per-identifier path. *)
Inductive diag (F : Type) : Type :=
  | NotFound (aid : Z)
  | WrongMedia (aid : Z) (found : json F) (wanted : Z)
  | WrongSet (aid : Z) (found : json F) (wanted : Z)
  | GetFailed (aid : Z) (e : exn).

Arguments NotFound {F} aid.
Arguments WrongMedia {F} aid found wanted.
Arguments WrongSet {F} aid found wanted.
Arguments GetFailed {F} aid e.

(** What one pass of the loop over the identifiers does. *)
Inductive verdict (F : Type) : Type :=
  | Keep (row : list (cell F))
  | Skip (d : diag F).

Arguments Keep {F} row.
Arguments Skip {F} d.

Section Functions.
Context {F : Type} `{Runtime F}.

(** The loop of [get_by_dotted] over the parts of the path. *)
Fixpoint descend (cur : json F) (parts : list string) (default : json F) : json F :=
  match parts with
  | [] => cur
  | part :: rest =>
      match cur with
      | JObj fields =>
          match fields !! part with
          | Some v => descend v rest default
          | None => default
          end
      | _ => default
      end
  end.

Definition get_by_dotted (d : json F) (dotted : string) (default : json F) : json F :=
  descend d (PyStr.split_dot dotted) default.

(** [df[pd.to_numeric(df[col], errors="coerce").astype("Int64") == media_id]] *)
Definition hard_filter (df : table F) (media_id : Z) : outcome (table F) :=
  if empty df then Ok df
  else
    do col <- detect_ann_media_col (columns df);
    do mids <- coerce_column (column df col);
    let mask := map (fun m => bool_decide (m = Some media_id)) mids in
    Ok (DataFrame (columns df) (boolean_index mask (rows df))).

(** The request of one attempt of [export_all_annotations_for_media]. *)
Definition annotation_query (media_id : Z) (annset_id : option Z)
    (ann_fields : list string) (t : template) (media_field : string) : request :=
  Request AnnotationExport (Some ann_fields) (Some (200000, 0))
    (match annset_id with
     | Some a => [("annotation_set_id", a)]
     | None => []
     end ++ [(media_field, media_id)])
    (match t with DataframeCsv => true | JsonTemplate => false end)
    t.

(** The body of the first [try]. *)
Definition attempt_csv (sq : server F) (media_id : Z) (annset_id : option Z)
    (ann_fields : list string) (media_field : string) : outcome (table F) :=
  do df <- read_csv_of sq
             (annotation_query media_id annset_id ann_fields DataframeCsv media_field);
  hard_filter df media_id.

(** The body of the second [try]. *)
Definition attempt_json (sq : server F) (media_id : Z) (annset_id : option Z)
    (ann_fields : list string) (media_field : string) : outcome (table F) :=
  do js <- json_of sq
             (annotation_query media_id annset_id ann_fields JsonTemplate media_field);
  do recs <- get_objects js;
  do df <- json_normalize recs;
  hard_filter df media_id.

(** [for media_field in (...): try: ... return df; except Exception: continue]:
    the requests sent and the table returned, if one attempt returned. *)
Fixpoint try_candidates (mk : string -> request) (attempt : string -> outcome (table F))
    (media_fields : list string) : list request * option (table F) :=
  match media_fields with
  | [] => ([], None)
  | media_field :: rest =>
      match attempt media_field with
      | Ok df => ([mk media_field], Some df)
      | Raise _ =>
          let '(sent, res) := try_candidates mk attempt rest in
          (mk media_field :: sent, res)
      end
  end.

Definition MEDIA_FIELD_CANDIDATES : list string :=
  ["point.media.id"; "point.media_id"].

(** Returns the requests sent, in order, and the table. *)
Definition export_all_annotations_for_media (sq : server F) (media_id : Z)
    (annset_id : option Z) (ann_fields : list string) : list request * table F :=
  let '(sent1, res1) :=
    try_candidates (annotation_query media_id annset_id ann_fields DataframeCsv)
      (attempt_csv sq media_id annset_id ann_fields) MEDIA_FIELD_CANDIDATES in
  match res1 with
  | Some df => (sent1, df)
  | None =>
      let '(sent2, res2) :=
        try_candidates (annotation_query media_id annset_id ann_fields JsonTemplate)
          (attempt_json sq media_id annset_id ann_fields) MEDIA_FIELD_CANDIDATES in
      (sent1 ++ sent2,
       match res2 with
       | Some df => df
       | None => DataFrame ann_fields []
       end)
  end.

(** [x is None or int(x) != int(wanted)], with the exception [int] may raise. *)
Definition differs_from (x : json F) (wanted : Z) : outcome bool :=
  match x with
  | JNull => Ok true
  | _ => do z <- py_int x; Ok (negb (z =? wanted))
  end.

(** [js.get("id") is None] for a dict, [True] for anything else. *)
Definition lacks_id (js : json F) : bool :=
  match js with
  | JObj fields =>
      match fields !! "id" with
      | None | Some JNull => true
      | Some _ => false
      end
  | _ => true
  end.

(** The statements under [try] for a decoded record, before [rows.append]. *)
Definition check_record (js : json F) (aid media_id : Z) (annset_id : option Z)
    (ann_fields : list string) : outcome (verdict F) :=
  if lacks_id js then Ok (Skip (NotFound aid))
  else
    let media_from_ann :=
      get_by_dotted js "point.media.id" (get_by_dotted js "point.media_id" JNull) in
    do bad_media <- differs_from media_from_ann media_id;
    if bad_media then Ok (Skip (WrongMedia aid media_from_ann media_id))
    else
      let flatten := Ok (Keep (map (fun k => CVal (get_by_dotted js k (JStr ""))) ann_fields)) in
      match annset_id with
      | Some wanted =>
          if ENFORCE_ANNSET then
            let annset_from_ann :=
              get_by_dotted js "annotation_set_id"
                (get_by_dotted js "point.annotation_set_id" JNull) in
            do bad_set <- differs_from annset_from_ann wanted;
            if bad_set then Ok (Skip (WrongSet aid annset_from_ann wanted))
            else flatten
          else flatten
      | None => flatten
      end.

(** One pass of [for aid in annotation_ids], with its [except]. *)
Definition resolve_one (sq : server F) (media_id : Z) (annset_id : option Z)
    (ann_fields : list string) (aid : Z) : verdict F :=
  match (do js <- get_annotation sq aid;
         check_record js aid media_id annset_id ann_fields) with
  | Ok v => v
  | Raise e => Skip (GetFailed aid e)
  end.

(** The loop, threading the accumulated rows and the printed diagnostics. *)
Fixpoint resolve_loop (sq : server F) (media_id : Z) (annset_id : option Z)
    (ann_fields : list string) (annotation_ids : list Z)
    (acc : list (list (cell F)) * list (diag F))
    : list (list (cell F)) * list (diag F) :=
  match annotation_ids with
  | [] => acc
  | aid :: rest =>
      let '(rs, log) := acc in
      resolve_loop sq media_id annset_id ann_fields rest
        match resolve_one sq media_id annset_id ann_fields aid with
        | Keep row => (rs ++ [row], log)
        | Skip d => (rs, log ++ [d])
        end
  end.

(** Returns the table and the diagnostics printed. *)
Definition fetch_annotations_by_ids_for_media_via_get (sq : server F) (media_id : Z)
    (annotation_ids : list Z) (annset_id : option Z) (ann_fields : list string)
    : table F * list (diag F) :=
  let '(rs, log) :=
    resolve_loop sq media_id annset_id ann_fields annotation_ids ([], []) in
  (match rs with
   | [] => DataFrame ann_fields []
   | _ => DataFrame ann_fields rs
   end, log).

End Functions.

End SingleImage.

(** ** image_collection_with_ann.py *)

Module ImageCollection.

Definition MAX_WORKERS : Z := 8.

Definition MEDIA_FIELDS : list string :=
  ["id"; "key"; "timestamp_start"; "path_best"; "path_best_thm";
   "deployment.id"; "deployment.key"; "deployment.campaign.id"; "deployment.campaign.key";
   "pose.lat"; "pose.lon"; "pose.dep"].

Definition ANN_FIELDS : list string :=
  ["id"; "type";
   "annotation_set_id"; "point.annotation_set_id";
   "label.id"; "label.name"; "label_scheme.id"; "label_scheme.name";
   "point.x"; "point.y"; "point.media.id";
   "created_at"; "user.username"].

Definition detect_msg : string :=
  "Could not find a media-id column in annotations. First cols: ".

Definition detect_ann_media_col (cols : list string) : outcome string :=
  let cands := List.filter has_media_suffix cols in
  match cands with
  | c :: _ => Ok c
  | [] =>
      match first_mention cols with
      | Some c => Ok c
      | None => Raise (ValueError detect_msg (take 20 cols))
      end
  end.

(** What the downloader is given and what it leaves behind. *)
Record download_report : Type := Report {
  saved : gmap Z string;            (* the returned dict *)
  submitted : list (Z * string);    (* the calls [ex.submit(_one, mid, url)], in order *)
  warned : list Z                   (* the media of the [download failed] lines,
                                       listed in the order of submission *)
}.

Section Functions.
Context {F : Type} `{Runtime F}.

(** [list(set((include_columns or []) + ["id","path_best"]))] *)
Definition media_include (include_columns : option (list string)) : list string :=
  set_order (or_nil include_columns ++ ["id"; "path_best"]).

(** The two requests of [export_media_collection_csv]. *)
Definition media_preferred (collection_id : Z) (include : list string) : request :=
  Request (MediaCollectionExport collection_id) (Some include) None [] true DataframeCsv.

Definition media_fallback (collection_id : Z) (include : list string) : request :=
  Request (MediaCollectionExport collection_id) (Some include) None [] false JsonTemplate.

(** Returns the requests sent, in order, and what the call returns or raises. *)
Definition export_media_collection_csv (sqapi : server F) (collection_id : Z)
    (include_columns : option (list string)) : list request * outcome (table F) :=
  let include := media_include include_columns in
  let preferred := media_preferred collection_id include in
  match read_csv_of sqapi preferred with
  | Ok df => ([preferred], Ok df)
  | Raise _ =>
      let fallback := media_fallback collection_id include in
      ([preferred; fallback],
       do js <- json_of sqapi fallback;
       do recs <- get_objects js;
       do df <- json_normalize recs;
       let keep := present_columns include df in
       Ok (match keep with
           | [] => df
           | _ => select_columns keep df
           end))
  end.

(** The two requests of [export_annotation_set_csv]. *)
Definition annset_preferred (annset_id : Z) (include_columns : option (list string))
    : request :=
  Request (AnnotationSetExport annset_id) (Some (or_nil include_columns)) None [] true
    DataframeCsv.

Definition annset_retry (annset_id : Z) : request :=
  Request (AnnotationSetExport annset_id) None None [] true DataframeCsv.

Definition export_annotation_set_csv (sqapi : server F) (annset_id : Z)
    (include_columns : option (list string)) : list request * outcome (table F) :=
  let preferred := annset_preferred annset_id include_columns in
  match read_csv_of sqapi preferred with
  | Ok df => ([preferred], Ok df)
  | Raise _ =>
      let retry := annset_retry annset_id in
      ([preferred; retry],
       do df <- read_csv_of sqapi retry;
       Ok (match or_nil include_columns with
           | [] => df
           | wanted =>
               match present_columns wanted df with
               | [] => df
               | cols => select_columns cols df
               end
           end))
  end.

(** [pd.Index(media_ids, dtype="Int64")]: raises on an identifier beyond
    int64. *)
Definition int64_index (media_ids : list Z) : outcome (list Z) :=
  if forallb in_int64 media_ids then Ok media_ids else Raise TypeError.

(** [mids.isin(index)], one value: [<NA>] is in no index. *)
Definition isin (index : list Z) (m : option Z) : bool :=
  match m with
  | Some z => existsb (Z.eqb z) index
  | None => false
  end.

Definition post_filter_ann_to_media_ids (ann_df : table F) (media_ids : list Z)
    : outcome (table F) :=
  if empty ann_df then Ok ann_df
  else
    do col <- detect_ann_media_col (columns ann_df);
    do mids <- coerce_column (column ann_df col);
    do index <- int64_index media_ids;
    let keep := map (isin index) mids in
    Ok (DataFrame (columns ann_df) (boolean_index keep (rows ann_df))).

(** [str(row.get(url_col, "") or "")] *)
Definition url_of_row (cols : list string) (url_col : string) (row : list (cell F))
    : string :=
  match row_get cols row url_col with
  | None => ""
  | Some CNaN => "nan"
  | Some (CVal v) => if truthy v then py_str v else ""
  end.

(** [int(row[id_col])] *)
Definition mid_of_row (cols : list string) (id_col : string) (row : list (cell F))
    : outcome Z :=
  match row_get cols row id_col with
  | None => Raise (KeyError id_col)
  | Some CNaN => Raise (ValueError "cannot convert float NaN to integer" [])
  | Some (CVal v) => py_int v
  end.

(** The loop over [media_df.iterrows()]: the tasks handed to the pool. *)
Fixpoint schedule (cols : list string) (url_col id_col : string)
    (rs : list (list (cell F))) : outcome (list (Z * string)) :=
  match rs with
  | [] => Ok []
  | row :: rest =>
      let url := url_of_row cols url_col row in
      if String.eqb url "" then schedule cols url_col id_col rest
      else
        do mid <- mid_of_row cols id_col row;
        do futs <- schedule cols url_col id_col rest;
        Ok ((mid, url) :: futs)
  end.

(** The loop over [as_completed(futs)]; [fetch mid url] is the path [_one]
    wrote, or [None] when its [try] raised. *)
Fixpoint collect (fetch : Z -> string -> option string) (done : list (Z * string))
    (acc : gmap Z string) : gmap Z string :=
  match done with
  | [] => acc
  | (mid, url) :: rest =>
      collect fetch rest
        match fetch mid url with
        | Some p => <[mid := p]> acc
        | None => acc
        end
  end.

(** [fetch] stands for the body of [_one]; [as_completed] for the order in
    which the pool finishes the tasks it was given. *)
Definition download_images_from_export
    (fetch : Z -> string -> option string)
    (as_completed : list (Z * string) -> list (Z * string))
    (media_df : table F) (url_col id_col : string) : outcome download_report :=
  do futs <- schedule (columns media_df) url_col id_col (rows media_df);
  Ok (Report (collect fetch (as_completed futs) ∅) futs
        (map fst (List.filter (fun t => negb (bool_decide (is_Some (fetch t.1 t.2)))) futs))).

End Functions.

End ImageCollection.

(** ** The properties, in the words of the specification *)

(** *** Join-key detector *)

Definition suffix_match (c : string) : Prop :=
  exists suf p, In suf MEDIA_SUFFIXES /\ PyStr.lower c = p +:+ suf.

Definition loose_match (c : string) : Prop :=
  (exists p q, PyStr.lower c = p +:+ "media" +:+ q) /\
  (exists p q, PyStr.lower c = p +:+ "id" +:+ q).

(** [c] is the first element of [l], in list order, that satisfies [P]. *)
Definition first_such (P : string -> Prop) (l : list string) (c : string) : Prop :=
  exists pre post, l = pre ++ c :: post /\ P c /\ Forall (fun x => ~ P x) pre.

(** What the detector is to return on the labels [cols]. *)
Definition detector_contract (msg : string) (cols : list string) (res : outcome string)
    : Prop :=
  (exists c, first_such suffix_match cols c /\ res = Ok c) \/
  (Forall (fun x => ~ suffix_match x) cols /\
   exists c, first_such loose_match cols c /\ res = Ok c) \/
  (Forall (fun x => ~ suffix_match x) cols /\
   Forall (fun x => ~ loose_match x) cols /\
   res = Raise (ValueError msg (take 20 cols))).

Section Properties.
Context {F : Type} `{Runtime F}.

(** *** Dotted-path projector *)

(** Descending [d] along the components [parts] reaches [v]. *)
Inductive resolves : json F -> list string -> json F -> Prop :=
  | resolves_here (v : json F) : resolves v [] v
  | resolves_step (fields : gmap string (json F)) (part : string) (rest : list string)
      (v w : json F) :
      fields !! part = Some v -> resolves v rest w ->
      resolves (JObj fields) (part :: rest) w.

(** A component of a dotted path holds no dot. *)
Definition dot_free (part : string) : Prop := PyStr.contains "." part = false.

(** *** Exporters *)



(** The flat table of the records behind the JSON answer to [rq]. *)
Definition flat_records (sq : server F) (rq : request) : outcome (table F) :=
  do js <- json_of sq rq;
  do recs <- get_objects js;
  json_normalize recs.

(** After the preferred request [p], the raw JSON of the same resource,
    fields and filters was requested, and nothing else. *)
Definition json_fallback (sent : list request) : Prop :=
  exists p f,
    sent = [p; f] /\
    tmpl f = JsonTemplate /\ json_normalize_op f = false /\
    resource f = resource p /\ include_columns f = include_columns p /\
    filters f = filters p /\ paging f = paging p.

(** After the preferred request [p], the server-side flattening was
    requested again, without the list of fields. *)
Definition csv_retry (sent : list request) : Prop :=
  exists p f,
    sent = [p; f] /\
    tmpl f = DataframeCsv /\ json_normalize_op f = true /\
    resource f = resource p /\ include_columns f = None /\
    filters f = filters p /\ paging f = paging p.

(** The attempts of [export_all_annotations_for_media], in the order of the
    code: each request with what its [try] block yields. *)
Definition attempts (sq : server F) (media_id : Z) (annset_id : option Z)
    (ann_fields : list string) : list (request * outcome (table F)) :=
  map (fun mf =>
         (SingleImage.annotation_query media_id annset_id ann_fields DataframeCsv mf,
          SingleImage.attempt_csv sq media_id annset_id ann_fields mf))
      SingleImage.MEDIA_FIELD_CANDIDATES ++
  map (fun mf =>
         (SingleImage.annotation_query media_id annset_id ann_fields JsonTemplate mf,
          SingleImage.attempt_json sq media_id annset_id ann_fields mf))
      SingleImage.MEDIA_FIELD_CANDIDATES.

(** The claim that the first response that is no error is the one returned:
    when the first request is answered, no other request is sent. *)
Definition accepts_first_response (sq : server F) (media_id : Z) (annset_id : option Z)
    (ann_fields : list string) : Prop :=
  forall df,
    read_csv_of sq
      (SingleImage.annotation_query media_id annset_id ann_fields DataframeCsv
         "point.media.id") = Ok df ->
    (SingleImage.export_all_annotations_for_media sq media_id annset_id ann_fields).1 =
    [SingleImage.annotation_query media_id annset_id ann_fields DataframeCsv
       "point.media.id"].

(** *** Per-identifier resolver *)

(** The media reference of a record, by either spelling. *)
Definition media_ref (js : json F) : json F :=
  SingleImage.get_by_dotted js "point.media.id"
    (SingleImage.get_by_dotted js "point.media_id" JNull).

Definition annset_ref (js : json F) : json F :=
  SingleImage.get_by_dotted js "annotation_set_id"
    (SingleImage.get_by_dotted js "point.annotation_set_id" JNull).

(** The record projected on the requested fields. *)
Definition project (js : json F) (ann_fields : list string) : list (cell F) :=
  map (fun k => CVal (SingleImage.get_by_dotted js k (JStr ""))) ann_fields.

(** The record passes the annotation-set stage, when there is one. *)
Definition passes_annset (annset_id : option Z) (js : json F) : Prop :=
  match annset_id with
  | Some wanted => SingleImage.differs_from (annset_ref js) wanted = Ok false
  | None => True
  end.

(** The identifier a diagnostic is about. *)
Definition diag_aid (d : SingleImage.diag F) : Z :=
  match d with
  | SingleImage.NotFound aid => aid
  | SingleImage.WrongMedia aid _ _ => aid
  | SingleImage.WrongSet aid _ _ => aid
  | SingleImage.GetFailed aid _ => aid
  end.

(** The rows kept and the diagnostics printed for a list of identifiers,
    each identifier on its own. *)
Definition kept_rows (sq : server F) (media_id : Z) (annset_id : option Z)
    (ann_fields : list string) (annotation_ids : list Z) : list (list (cell F)) :=
  flat_map (fun aid =>
              match SingleImage.resolve_one sq media_id annset_id ann_fields aid with
              | SingleImage.Keep row => [row]
              | SingleImage.Skip _ => []
              end) annotation_ids.

Definition diagnostics (sq : server F) (media_id : Z) (annset_id : option Z)
    (ann_fields : list string) (annotation_ids : list Z) : list (SingleImage.diag F) :=
  flat_map (fun aid =>
              match SingleImage.resolve_one sq media_id annset_id ann_fields aid with
              | SingleImage.Keep _ => []
              | SingleImage.Skip d => [d]
              end) annotation_ids.

(** *** Bulk asset downloader *)

(** The row has a URL and an identifier. *)
Definition schedulable (cols : list string) (url_col id_col : string)
    (row : list (cell F)) : Prop :=
  ImageCollection.url_of_row cols url_col row <> "" /\
  succeeded (ImageCollection.mid_of_row cols id_col row) = true.

(** The download of the row fails. *)
Definition row_fails (fetch : Z -> string -> option string) (cols : list string)
    (url_col id_col : string) (row : list (cell F)) : bool :=
  match ImageCollection.mid_of_row cols id_col row with
  | Ok mid =>
      negb (bool_decide (is_Some (fetch mid (ImageCollection.url_of_row cols url_col row))))
  | Raise _ => false
  end.

(** The URL cell of the row is an empty string or [None], or the table has
    no URL column. *)
Definition blank_url (cols : list string) (url_col : string) (row : list (cell F)) : Prop :=
  row_get cols row url_col = None \/
  row_get cols row url_col = Some (CVal JNull) \/
  row_get cols row url_col = Some (CVal (JStr "")).

End Properties.

(** ** A runtime and a few services to run the model on

    The values are those of JSON without floats ([F] is empty); strings are
    ASCII.  [int] is the built-in of Python; [pd.to_numeric] reads a string
    with the parser of pandas ([precise_xstrtod]); [pd.json_normalize]
    flattens nested mappings to dotted labels, the columns coming in the
    order of the finite map. *)

Module Demo.

Definition digit_of (c : ascii) : option Z :=
  let n := nat_of_ascii c in
  if ((48 <=? n)%nat && (n <=? 57)%nat)%bool then Some (Z.of_nat n - 48) else None.

(** White space for [int] and for the parser of pandas: the characters 9
    to 13 and the space. *)
Definition is_space (c : ascii) : bool :=
  let n := nat_of_ascii c in
  (((9 <=? n)%nat && (n <=? 13)%nat) || (n =? 32)%nat)%bool.

Fixpoint lstrip (s : string) : string :=
  match s with
  | String c r => if is_space c then lstrip r else s
  | EmptyString => EmptyString
  end.

Fixpoint rstrip (s : string) : string :=
  match s with
  | EmptyString => EmptyString
  | String c r =>
      match rstrip r with
      | EmptyString => if is_space c then EmptyString else String c EmptyString
      | r' => String c r'
      end
  end.

(** An optional sign: whether it is a minus, and what follows. *)
Definition split_sign (s : string) : bool * string :=
  match s with
  | String c r =>
      if Ascii.eqb c "-"%char then (true, r)
      else if Ascii.eqb c "+"%char then (false, r)
      else (false, s)
  | EmptyString => (false, s)
  end.

(** *** [int(s)] *)

(** Digits with single underscores between them: the value and the number
    of digits. *)
Fixpoint int_digits (s : string) (acc : Z) (n : nat) (after_digit : bool)
  : option (Z * nat) :=
  match s with
  | EmptyString => if after_digit then Some (acc, n) else None
  | String c r =>
      match digit_of c with
      | Some d => int_digits r (10 * acc + d) (S n) true
      | None =>
          if (Ascii.eqb c "_"%char && after_digit)%bool
          then int_digits r acc n false
          else None
      end
  end.

(** [int(s)] in base 10: white space around, an optional sign, digits;
    more than 4300 digits are refused. *)
Definition parse_int (s : string) : option Z :=
  let '(minus, body) := split_sign (rstrip (lstrip s)) in
  match int_digits body 0 0 false with
  | Some (z, n) =>
      if (4300 <? n)%nat then None else Some (if minus then - z else z)
  | None => None
  end.

(** *** [pd.to_numeric] on a string *)

(** A float64 as mantissa and binary exponent: [(m, e)] is m * 2^e. *)
Definition float64 : Type := Z * Z.

(** The float64 nearest to p / q, ties to even, for p >= 0 and q > 0. *)
Definition nearest (p q : Z) : float64 :=
  if p =? 0 then (0, 0)
  else
    let l := Z.log2 p - Z.log2 q in
    let reaches := if 0 <=? l then q * 2 ^ l <=? p else q <=? p * 2 ^ (- l) in
    let lg := if reaches then l else l - 1 in
    let e := Z.max (lg - 52) (- 1074) in
    let n := if e <? 0 then p * 2 ^ (- e) else p in
    let d := if e <? 0 then q else q * 2 ^ e in
    let m := n / d in
    let r := n mod d in
    (if ((d <? 2 * r) || ((2 * r =? d) && Z.odd m))%bool then m + 1 else m, e).

Definition float_of_Z (z : Z) : float64 := nearest z 1.

Definition float_mul (a b : float64) : float64 :=
  let e := a.2 + b.2 in
  if 0 <=? e then nearest (a.1 * b.1 * 2 ^ e) 1 else nearest (a.1 * b.1) (2 ^ (- e)).

Definition float_div (a b : float64) : float64 :=
  let e := a.2 - b.2 in
  if 0 <=? e then nearest (a.1 * 2 ^ e) b.1 else nearest a.1 (b.1 * 2 ^ (- e)).

Definition float_add (a b : float64) : float64 :=
  let e := Z.min a.2 b.2 in
  let s := a.1 * 2 ^ (a.2 - e) + b.1 * 2 ^ (b.2 - e) in
  if 0 <=? e then nearest (s * 2 ^ e) 1 else nearest s (2 ^ (- e)).

Definition is_infinite (a : float64) : bool :=
  if 0 <=? a.2 then 2 ^ 1024 <=? a.1 * 2 ^ a.2 else false.

(** The integer a float is, when it is one. *)
Definition integer_of_float (a : float64) : option Z :=
  if is_infinite a then None
  else if 0 <=? a.2 then Some (a.1 * 2 ^ a.2)
  else if a.1 mod 2 ^ (- a.2) =? 0 then Some (a.1 / 2 ^ (- a.2))
  else None.

(** The state of the parser of pandas while it reads the digits: the
    number read from the first 17 digits, the digits read, the decimal
    exponent. *)
Record scan : Type := Scan {
  number : float64;
  num_digits : nat;
  exponent : Z
}.

Definition max_digits : nat := 17.

(** The digits before the decimal point: past the 17th, a digit only
    raises the exponent. *)
Fixpoint scan_integer (s : string) (st : scan) : scan * string :=
  match s with
  | String c r =>
      match digit_of c with
      | Some d =>
          scan_integer r
            (if (num_digits st <? max_digits)%nat
             then Scan (float_add (float_mul (number st) (float_of_Z 10)) (float_of_Z d))
                    (S (num_digits st)) (exponent st)
             else Scan (number st) (num_digits st) (exponent st + 1))
      | None => (st, s)
      end
  | EmptyString => (st, s)
  end.

(** The digits after the decimal point: past the 17th, a digit is
    dropped. *)
Fixpoint scan_decimals (s : string) (st : scan) : scan * string :=
  match s with
  | String c r =>
      match digit_of c with
      | Some d =>
          scan_decimals r
            (if (num_digits st <? max_digits)%nat
             then Scan (float_add (float_mul (number st) (float_of_Z 10)) (float_of_Z d))
                    (S (num_digits st)) (exponent st - 1)
             else st)
      | None => (st, s)
      end
  | EmptyString => (st, s)
  end.

Fixpoint scan_exponent (s : string) (acc : Z) (n : nat) : Z * nat * string :=
  match s with
  | String c r =>
      match digit_of c with
      | Some d => scan_exponent r (10 * acc + d) (S n)
      | None => (acc, n, s)
      end
  | EmptyString => (acc, n, s)
  end.

(** The number scaled by the power of ten, as the parser does it. *)
Definition scale (x : float64) (exponent : Z) : option float64 :=
  let e10 (k : Z) := float_of_Z (10 ^ k) in
  if 308 <? exponent then None
  else if 0 <? exponent then Some (float_mul x (e10 exponent))
  else if exponent <? -616 then Some (0, 0)
  else if exponent <? -308
       then Some (float_div (float_div x (e10 (- 308 - exponent))) (e10 308))
  else Some (float_div x (e10 (- exponent))).

(** What the parser reads: the float, and whether the literal is that of
    an integer (no decimal point, no exponent). *)
Definition parse_number (s : string) : option (bool * float64 * bool) :=
  let '(minus, body) := split_sign (lstrip s) in
  let '(st, rest) := scan_integer body (Scan (0, 0) 0 0) in
  let '(st, rest, maybe_int) :=
    match rest with
    | String c r =>
        if Ascii.eqb c "."%char
        then let '(st', rest') := scan_decimals r st in (st', rest', false)
        else (st, rest, true)
    | EmptyString => (st, rest, true)
    end in
  match num_digits st with
  | O => None
  | _ =>
      let '(expo, rest, maybe_int) :=
        match rest with
        | String c r =>
            if (Ascii.eqb c "e"%char || Ascii.eqb c "E"%char)%bool
            then let '(neg, digits) := split_sign r in
                 let '(n, count, rest') := scan_exponent digits 0 0 in
                 match count with
                 | O => (exponent st, rest, false)
                 | _ => (if neg then exponent st - n else exponent st + n, rest', false)
                 end
            else (exponent st, rest, maybe_int)
        | EmptyString => (exponent st, rest, maybe_int)
        end in
      match scale (number st) expo, lstrip rest with
      | Some x, EmptyString => if is_infinite x then None else Some (minus, x, maybe_int)
      | _, _ => None
      end
  end.

(** The names of the infinite floats, which the parser takes after the
    number failed. *)
Definition is_infinity_name (s : string) : bool :=
  let name := PyStr.lower (split_sign s).2 in
  (String.eqb name "inf" || String.eqb name "infinity")%bool.

Definition signed (minus : bool) (v : option Z) : option Z :=
  if minus then option_map Z.opp v else v.

(** A string in a column given to [pd.to_numeric(., errors="coerce")]. *)
Definition numeric_of_str (s : string) : numeric :=
  match parse_number s with
  | Some (minus, x, maybe_int) =>
      if maybe_int
      then match parse_int s, integer_of_float x with
           | Some z, Some fl => NInt z (if minus then - fl else fl)
           | _, _ => NNaN
           end
      else NFloat (signed minus (integer_of_float x))
  | None => if is_infinity_name s then NFloat None else NNaN
  end.

Definition to_numeric (v : json Empty_set) : numeric :=
  match v with
  | JStr s => numeric_of_str s
  | JFloat f => match f with end
  | _ => NNaN
  end.

Definition str_other (v : json Empty_set) : string :=
  match v with
  | JNull => "None"
  | JBool true => "True"
  | JBool false => "False"
  | JInt z => pretty z
  | JFloat f => match f with end
  | JStr s => s
  | JArr _ => "[...]"
  | JObj _ => "{...}"
  end.

(** *** [pd.json_normalize] *)

(** The entries of a mapping under the prefix [prefix], the nested
    mappings flattened with dots. *)
Fixpoint flatten (prefix : string) (v : json Empty_set) : list (string * json Empty_set) :=
  match v with
  | JObj fields =>
      map_fold (fun k v' acc => flatten (prefix +:+ "." +:+ k) v' ++ acc) [] fields
  | _ => [(prefix, v)]
  end.

(** One record as a flat mapping: the entries that are no mappings first,
    then the nested ones under their dotted labels. *)
Definition flat_record (rec : json Empty_set) : list (string * json Empty_set) :=
  match rec with
  | JObj fields =>
      map_fold (fun k v acc => match v with JObj _ => acc | _ => (k, v) :: acc end)
        [] fields ++
      map_fold (fun k v acc => match v with JObj _ => flatten k v ++ acc | _ => acc end)
        [] fields
  | _ => []
  end.

Definition is_list (v : json Empty_set) : bool :=
  match v with JArr _ => true | _ => false end.

Definition is_text (v : json Empty_set) : bool :=
  match v with JStr _ => true | _ => false end.

Definition is_number (v : json Empty_set) : bool :=
  match v with JInt _ => true | _ => false end.

(** The values the records hold under a label, [None] left out. *)
Definition values_under (records : list (gmap string (json Empty_set))) (k : string)
  : list (json Empty_set) :=
  omap (fun rec => match rec !! k with
                   | Some JNull | None => None
                   | Some v => Some v
                   end) records.

Definition lacks (k : string) (rec : gmap string (json Empty_set)) : bool :=
  bool_decide (rec !! k = None).

(** Whether the column of a label is one in which [None] is stored as
    [NaN]: a column of texts, a column of numbers, and a column without
    any value in which a record lacks the label.  In a column of mixed
    values, of truth values, of lists, or of [None] only, [None] stays. *)
Definition none_is_nan (records : list (gmap string (json Empty_set))) (k : string)
  : bool :=
  match values_under records k with
  | [] => existsb (lacks k) records
  | vals => (forallb is_text vals || forallb is_number vals)%bool
  end.

(** The cell of a record under a label: [NaN] when the record lacks the
    label. *)
Definition cell_of (records : list (gmap string (json Empty_set)))
    (rec : gmap string (json Empty_set)) (k : string) : cell Empty_set :=
  match rec !! k with
  | None => CNaN
  | Some JNull => if none_is_nan records k then CNaN else CVal JNull
  | Some v => CVal v
  end.

(** [pd.DataFrame(records)] for a list of flat mappings. *)
Definition frame_of (records : list (list (string * json Empty_set))) : table Empty_set :=
  let cols := remove_dups (concat (map (map fst) records)) in
  let maps := map (fun rec => list_to_map (reverse rec)) records in
  DataFrame cols (map (fun rec => map (cell_of maps rec) cols) maps).

(** [pd.json_normalize(recs)] for a mapping or a list of records.  An
    element that is neither a mapping nor a list gives a row without
    values; a list after a first element that is none has no [keys]; a
    list of lists gives a frame labelled by positions, which [table] does
    not have, and is taken to raise; a value that is neither a mapping nor
    a list is refused. *)
Definition normalize (recs : json Empty_set) : outcome (table Empty_set) :=
  match recs with
  | JObj _ => Ok (frame_of [flat_record recs])
  | JArr items =>
      match items with
      | JArr _ :: _ => Raise TypeError
      | _ =>
          if existsb is_list items then Raise AttributeError
          else Ok (frame_of (map flat_record items))
      end
  | _ => Raise NotImplementedError
  end.

#[global] Instance runtime : Runtime Empty_set := {
  int_of_str := parse_int;
  int_of_float := fun f => match f with end;
  float_truthy := fun f => match f with end;
  str_of_value := str_other;
  to_numeric_value := to_numeric;
  json_normalize := normalize;
  set_order := remove_dups
}.

Definition T := table Empty_set.
Definition J := json Empty_set.

Definition int_ (z : Z) : cell Empty_set := CVal (JInt z).
Definition str_ (s : string) : cell Empty_set := CVal (JStr s).

(** A service on which every call fails. *)
Definition down : server Empty_set :=
  Server (fun _ => Raise RemoteError) (fun _ => Raise RemoteError)
    (fun _ => Raise RemoteError).

(** Annotations of media 1, 2, 4 and of a media that is no number. *)
Definition annotations : T :=
  DataFrame ["id"; "label.name"; "point.media.id"]
    [[int_ 10; str_ "kelp"; int_ 1];
     [int_ 11; str_ "sand"; int_ 2];
     [int_ 12; str_ "rock"; int_ 4];
     [int_ 13; str_ "fish"; str_ "bad"]].

(** What the filter keeps of [annotations] for the media 1, 2 and 3. *)
Definition kept : T :=
  DataFrame ["id"; "label.name"; "point.media.id"]
    [[int_ 10; str_ "kelp"; int_ 1];
     [int_ 11; str_ "sand"; int_ 2]].

(** An empty annotation table. *)
Definition no_rows : T := DataFrame ["id"; "point.media.id"] [].

(** An answer without any column that names the media. *)
Definition unlabelled : T :=
  DataFrame ["id"; "label.name"] [[int_ 10; str_ "kelp"]].

(** An answer with the media under the second spelling. *)
Definition labelled : T :=
  DataFrame ["id"; "label.name"; "point.media_id"]
    [[int_ 10; str_ "kelp"; int_ 7];
     [int_ 11; str_ "sand"; int_ 8]].

(** A service that answers the tabular query on [point.media.id] with
    [unlabelled], the tabular query on [point.media_id] with [labelled], and
    fails on every other call. *)
Definition answers_first : server Empty_set :=
  Server
    (fun rq => if bool_decide (map fst (filters rq) = ["point.media.id"])
               then Ok unlabelled
               else if bool_decide (map fst (filters rq) = ["point.media_id"])
                    then Ok labelled
                    else Raise RemoteError)
    (fun _ => Raise RemoteError)
    (fun _ => Raise RemoteError).

(** A service that answers every tabular export with the two requested
    fields, none of which names the media. *)
Definition never_labelled : server Empty_set :=
  Server (fun _ => Ok unlabelled) (fun _ => Raise RemoteError)
    (fun _ => Raise RemoteError).

(** A service that ignores the filter on the media: it answers every export
    in tabular form with [annotations]. *)
Definition ignores_filter : server Empty_set :=
  Server (fun _ => Ok annotations) (fun _ => Raise RemoteError)
    (fun _ => Raise RemoteError).

Definition record (fields : list (string * J)) : J := JObj (list_to_map fields).

(** Annotation 100 is on media 7, annotation 101 on media 8; any other
    identifier fails to load. *)
Definition annotation_100 : J :=
  record [("id", JInt 100);
          ("label", record [("name", JStr "kelp")]);
          ("point", record [("x", JInt 3); ("y", JInt 4);
                            ("media", record [("id", JInt 7)])])].

Definition annotation_101 : J :=
  record [("id", JInt 101);
          ("label", record [("name", JStr "sand")]);
          ("point", record [("x", JInt 5); ("y", JInt 6);
                            ("media", record [("id", JInt 8)])])].

Definition two_media : server Empty_set :=
  Server (fun _ => Raise RemoteError) (fun _ => Raise RemoteError)
    (fun aid => if aid =? 100 then Ok annotation_100
                else if aid =? 101 then Ok annotation_101
                else Raise RemoteError).

(** A collection of three media, as the tabular export and as raw JSON. *)
Definition media_csv : T :=
  DataFrame ["id"; "path_best"]
    [[int_ 1; str_ "a.jpg"]; [int_ 2; str_ "b.jpg"]; [int_ 3; str_ "broken.jpg"]].

Definition media_json : J :=
  record [("objects",
           JArr [record [("id", JInt 1); ("path_best", JStr "a.jpg"); ("key", JStr "k1")];
                 record [("id", JInt 2); ("path_best", JStr "b.jpg"); ("key", JStr "k2")];
                 record [("id", JInt 3); ("path_best", JStr "broken.jpg");
                         ("key", JStr "k3")]])].

(** The annotation set with every column, and restricted to two of them. *)
Definition annset_full : T := annotations.

Definition annset_narrow : T :=
  DataFrame ["id"; "point.media.id"]
    [[int_ 10; int_ 1]; [int_ 11; int_ 2]; [int_ 12; int_ 4]; [int_ 13; str_ "bad"]].

(** A service whose preferred exports work. *)
Definition up : server Empty_set :=
  Server
    (fun rq => match resource rq with
               | MediaCollectionExport _ => Ok media_csv
               | AnnotationSetExport _ => Ok annset_narrow
               | AnnotationExport => Raise RemoteError
               end)
    (fun _ => Raise RemoteError)
    (fun _ => Raise RemoteError).

(** The same service when the tabular export with a list of fields fails:
    the JSON export and the tabular export without fields still work. *)
Definition degraded : server Empty_set :=
  Server
    (fun rq => match resource rq, include_columns rq with
               | AnnotationSetExport _, None => Ok annset_full
               | _, _ => Raise RemoteError
               end)
    (fun rq => match resource rq with
               | MediaCollectionExport _ => Ok media_json
               | _ => Raise RemoteError
               end)
    (fun _ => Raise RemoteError).

(** The body of [_one]: every download works but that of [broken.jpg]. *)
Definition fetch (mid : Z) (url : string) : option string :=
  if String.eqb url "broken.jpg" then None
  else if String.eqb url "nan" then None
  else Some ("out_bundle/images/" +:+ pretty mid +:+ "_" +:+ url).

(** A media whose URL was left empty in the tabular export. *)
Definition missing_url : T :=
  DataFrame ["id"; "path_best"] [[int_ 1; CNaN]].

Definition finish_in_order (futs : list (Z * string)) : list (Z * string) := futs.

End Demo.

(** ** Further notions used to state properties of the code *)

Section MoreProperties.
Context {F : Type} `{Runtime F}.

(** Every row has one cell per column, as in a DataFrame. *)
Definition rectangular (df : table F) : Prop :=
  Forall (fun row => length row = length (columns df)) (rows df).

(** The record that holds [v] at the end of the path [parts] and nothing
    else: [{"a": {"b": v}}] for the parts [a], [b]. *)
Fixpoint singleton_path (parts : list string) (v : json F) : json F :=
  match parts with
  | [] => v
  | part :: rest => JObj {[ part := singleton_path rest v ]}
  end.

(** The integer a value of the join-key column stands for: that of an
    integer, of a string that is the literal of one, of a float that is
    one; none for a missing value and for what is no number. *)
Definition key_of (x : cell F) : option Z :=
  match numeric_of x with
  | NInt z _ => Some z
  | NFloat v => v
  | NNaN => None
  end.

(** The value, when an integer, is one that float64 represents (every
    integer up to 2^53 in magnitude is). *)
Definition exact (x : cell F) : Prop :=
  match numeric_of x with
  | NInt z as_float => as_float = z
  | _ => True
  end.

(** The value is missing, no number, or an integer of int64: the cast to
    [Int64] accepts it. *)
Definition castable (x : cell F) : Prop :=
  match numeric_of x with
  | NInt z _ | NFloat (Some z) => in_int64 z = true
  | NFloat None => False
  | NNaN => True
  end.

(** The integers of the join-key column are represented by floats. *)
Definition exact_keys (df : table F) : Prop :=
  forall col,
    ImageCollection.detect_ann_media_col (columns df) = Ok col ->
    Forall exact (column df col).

(** The value of [row] in the join-key column is an integer of [media_ids]. *)
Definition member_row (cols : list string) (col : string) (media_ids : list Z)
    (row : list (cell F)) : bool :=
  ImageCollection.isin media_ids (key_of (cell_at cols col row)).

End MoreProperties.

(** ** The scripts run as programs *)

Section Assignment.
Context {F : Type} `{Runtime F}.

(** [df[c] = v] for a scalar [v]: the column [c] is overwritten where it
    stands, or added as the last column. *)
Definition assign_scalar (df : table F) (c : string) (v : cell F) : table F :=
  match col_index c (columns df) with
  | Some i => DataFrame (columns df) (map (fun row => <[i := v]> row) (rows df))
  | None => DataFrame (columns df ++ [c]) (map (fun row => row ++ [v]) (rows df))
  end.

End Assignment.

(** The block under [if __name__ == "__main__"] of image_collection_with_ann.py;
    the constants of its CONFIG section are the fields of [config]. *)
Module CollectionScript.

Record config : Type := Config {
  COLLECTION_ID : Z;
  ANNSET_ID : Z;
  DOWNLOAD_IMAGES : bool
}.

(** The values in the file. *)
Definition defaults : config := Config 14233 17711 true.

(** What a run that ends leaves: the two tables written with [to_csv], the
    report of the downloader when it ran, and the requests sent. *)
Record outputs (F : Type) : Type := Outputs {
  media_csv : table F;
  ann_csv : table F;
  downloaded : option ImageCollection.download_report;
  sent : list request
}.

Arguments Outputs {F} media_csv ann_csv downloaded sent.
Arguments media_csv {F} o.
Arguments ann_csv {F} o.
Arguments downloaded {F} o.
Arguments sent {F} o.

Section Functions.
Context {F : Type} `{Runtime F}.

(** [Series.astype(int).tolist()] on the cells of a column: the integers
    are those of int64. *)
Fixpoint ints_of_rows (cols : list string) (c : string) (rs : list (list (cell F)))
    : outcome (list Z) :=
  match rs with
  | [] => Ok []
  | row :: rest =>
      do z <- ImageCollection.mid_of_row cols c row;
      do z <- if in_int64 z then Ok z else Raise OverflowError;
      do zs <- ints_of_rows cols c rest;
      Ok (z :: zs)
  end.

(** [media_df["id"].astype(int).tolist()] *)
Definition media_ids_of (media_df : table F) : outcome (list Z) :=
  match col_index "id" (columns media_df) with
  | None => Raise (KeyError "id")
  | Some _ => ints_of_rows (columns media_df) "id" (rows media_df)
  end.

(** The statements under [# Provenance]. *)
Definition add_provenance (cfg : config) (ann_df : table F) : table F :=
  let ann_df := assign_scalar ann_df "collection_id" (CVal (JInt (COLLECTION_ID cfg))) in
  if bool_decide ("annotation_set_id" ∈ columns ann_df) then ann_df
  else assign_scalar ann_df "annotation_set_id" (CVal (JInt (ANNSET_ID cfg))).

Definition main (cfg : config) (sq : server F)
    (fetch : Z -> string -> option string)
    (as_completed : list (Z * string) -> list (Z * string)) : outcome (outputs F) :=
  let '(sent1, media_res) :=
    ImageCollection.export_media_collection_csv sq (COLLECTION_ID cfg)
      (Some ImageCollection.MEDIA_FIELDS) in
  do media_df <- media_res;
  do media_ids <- media_ids_of media_df;
  let '(sent2, ann_res) :=
    ImageCollection.export_annotation_set_csv sq (ANNSET_ID cfg)
      (Some ImageCollection.ANN_FIELDS) in
  do ann_df <- ann_res;
  do ann_df <- ImageCollection.post_filter_ann_to_media_ids ann_df media_ids;
  let ann_df := add_provenance cfg ann_df in
  if DOWNLOAD_IMAGES cfg then
    do rep <- ImageCollection.download_images_from_export fetch as_completed media_df
                "path_best" "id";
    Ok (Outputs media_df ann_df (Some rep) (sent1 ++ sent2))
  else Ok (Outputs media_df ann_df None (sent1 ++ sent2)).

End Functions.

End CollectionScript.

(** The block under [if __name__ == "__main__"] of single_image_with_ann.py, up
    to the annotation table it writes; the overlay drawn afterwards is under
    a [try] of its own and writes an image only. *)
Module SingleScript.

Record config : Type := Config {
  MEDIA_ID : Z;
  ANNOTATION_IDS : list Z;
  ANNSET_ID : option Z;
  DOWNLOAD_IMAGE : bool
}.

(** The values in the file. *)
Definition defaults : config := Config 2683099 [13624243; 13624245] None true.

Definition MEDIA_FIELDS : list string :=
  ["id"; "key"; "timestamp_start"; "path_best"; "path_best_thm";
   "media_type.name"; "deployment.id"; "deployment.key";
   "deployment.campaign.id"; "deployment.campaign.key";
   "pose.lat"; "pose.lon"; "pose.dep"].

(** Why a run stops before its end. *)
Inductive abort : Type :=
  | Uncaught (e : exn)      (* an exception of a call that is under no [try] *)
  | NoPathBest              (* RuntimeError("No path_best for this media; ...") *)
  | ImageFailed.            (* the download or the writing of the image raised *)

Inductive ended (A : Type) : Type :=
  | Done (a : A)
  | Aborted (why : abort).

Arguments Done {A} a.
Arguments Aborted {A} why.

(** What a run that ends leaves: the media table written, the path of the
    image saved ([""] when none was), the annotation table written (none
    when the table retrieved is empty), the export requests sent and the
    diagnostics printed by the per-identifier path. *)
Record outputs (F : Type) : Type := Outputs {
  media_csv : table F;
  local_img_path : string;
  ann_csv : option (table F);
  sent : list request;
  log : list (SingleImage.diag F)
}.

Arguments Outputs {F} media_csv local_img_path ann_csv sent log.
Arguments media_csv {F} o.
Arguments local_img_path {F} o.
Arguments ann_csv {F} o.
Arguments sent {F} o.
Arguments log {F} o.

Section Functions.
Context {F : Type} `{Runtime F}.

(** [media.get("path_best")] *)
Definition get_path_best (media : json F) : outcome (json F) :=
  match media with
  | JObj fields =>
      match fields !! "path_best" with
      | Some url => Ok url
      | None => Ok JNull
      end
  | _ => Raise AttributeError
  end.

(** Step 2; [fetch_image url] is the path the image was saved under, or
    [None] when [SQMediaObject(url, ...).data()] or [imwrite] raised. *)
Definition download_image (cfg : config) (media : json F)
    (fetch_image : json F -> option string) : ended string :=
  if DOWNLOAD_IMAGE cfg then
    match get_path_best media with
    | Raise e => Aborted (Uncaught e)
    | Ok url =>
        if truthy url then
          match fetch_image url with
          | Some path => Done path
          | None => Aborted ImageFailed
          end
        else Aborted NoPathBest
    end
  else Done "".

(** The statements under [# provenance]. *)
Definition add_provenance (cfg : config) (path : string) (ann_df : table F) : table F :=
  let ann_df := assign_scalar ann_df "requested_media_id" (CVal (JInt (MEDIA_ID cfg))) in
  let ann_df :=
    match ANNSET_ID cfg with
    | Some annset =>
        if bool_decide ("annotation_set_id" ∈ columns ann_df) then ann_df
        else assign_scalar ann_df "annotation_set_id" (CVal (JInt annset))
    | None => ann_df
    end in
  if String.eqb path "" then ann_df
  else assign_scalar ann_df "local_image_path" (CVal (JStr path)).

(** Step 3: the per-identifier path for a list of identifiers that is not
    empty, the export otherwise. *)
Definition retrieve (cfg : config) (sq : server F)
    : table F * list request * list (SingleImage.diag F) :=
  match ANNOTATION_IDS cfg with
  | [] =>
      let '(requests, ann_df) :=
        SingleImage.export_all_annotations_for_media sq (MEDIA_ID cfg) (ANNSET_ID cfg)
          SingleImage.ANN_FIELDS in
      (ann_df, requests, [])
  | ids =>
      let '(ann_df, diags) :=
        SingleImage.fetch_annotations_by_ids_for_media_via_get sq (MEDIA_ID cfg) ids
          (ANNSET_ID cfg) SingleImage.ANN_FIELDS in
      (ann_df, [], diags)
  end.

(** [media_get] is what [sq.get("/api/media/<MEDIA_ID>").execute().json()]
    returns or raises. *)
Definition main (cfg : config) (media_get : outcome (json F)) (sq : server F)
    (fetch_image : json F -> option string) : ended (outputs F) :=
  match media_get with
  | Raise e => Aborted (Uncaught e)
  | Ok media =>
      let media_row :=
        map (fun k => CVal (SingleImage.get_by_dotted media k (JStr ""))) MEDIA_FIELDS in
      match download_image cfg media fetch_image with
      | Aborted why => Aborted why
      | Done path =>
          let '(ann_df, requests, diags) := retrieve cfg sq in
          Done (Outputs (DataFrame MEDIA_FIELDS [media_row]) path
                  (if empty ann_df then None else Some (add_provenance cfg path ann_df))
                  requests diags)
      end
  end.

End Functions.

End SingleScript.

Section ScriptProperties.
Context {F : Type} `{Runtime F}.

(** The tables the service answers in tabular form are DataFrames read from
    CSV text: every row has one cell per column and there is at least one
    column. *)
Definition answers_are_frames (sq : server F) : Prop :=
  forall rq df, read_csv_of sq rq = Ok df -> rectangular df /\ columns df <> [].

(** [pd.json_normalize] returns DataFrames. *)
(** In the tabular answers of the service, the integers are represented
    by floats (every integer up to 2^53 in magnitude is). *)
Definition answers_are_exact (sq : server F) : Prop :=
  forall rq df, read_csv_of sq rq = Ok df -> Forall (Forall exact) (rows df).

Definition normalize_gives_frames : Prop :=
  forall recs df, json_normalize recs = Ok df -> rectangular df.

End ScriptProperties.

(** ** More tables and records to run the model on *)

Module Cases.

(** A join-key column in which one value is a number with a fractional
    part, next to a value that is no number. *)
Definition fraction_in_key : Demo.T :=
  DataFrame ["id"; "media_id"]
    [[Demo.int_ 1; Demo.str_ "1.5"]; [Demo.int_ 2; Demo.str_ "bad"]].

(** A tabular answer whose join-key column holds 2^53 + 1 next to a value
    that is no number; and the same without the second row, as the answer
    is read when its column holds integers only. *)
Definition big_keys : Demo.T :=
  DataFrame ["id"; "point.media.id"]
    [[Demo.int_ 10; Demo.str_ "9007199254740993"]; [Demo.int_ 11; Demo.str_ "bad"]].

Definition big_keys_only : Demo.T :=
  DataFrame ["id"; "point.media.id"] [[Demo.int_ 10; Demo.int_ 9007199254740993]].

(** A service that ignores the filter on the media and answers every
    export in tabular form with [big_keys]. *)
Definition rounding : server Empty_set :=
  Server (fun _ => Ok big_keys) (fun _ => Raise RemoteError)
    (fun _ => Raise RemoteError).

(** A record whose media is an explicit null under the first spelling and
    7 under the second. *)
Definition null_first : Demo.J :=
  Demo.record [("id", JInt 200);
               ("point", Demo.record [("media", Demo.record [("id", JNull)]);
                                      ("media_id", JInt 7)])].

(** A record of the media 7 in the annotation set 5. *)
Definition in_set_5 : Demo.J :=
  Demo.record [("id", JInt 300);
               ("annotation_set_id", JInt 5);
               ("point", Demo.record [("media", Demo.record [("id", JInt 7)])])].

(** Annotation 200 is [null_first], annotation 300 is [in_set_5]; the other
    identifiers are those of [Demo.two_media]. *)
Definition records : server Empty_set :=
  Server (fun _ => Raise RemoteError) (fun _ => Raise RemoteError)
    (fun aid => if aid =? 200 then Ok null_first
                else if aid =? 300 then Ok in_set_5
                else get_annotation Demo.two_media aid).

(** A media table of two rows, the second without URL, as [read_csv]
    gives it. *)
Definition url_left_empty : Demo.T :=
  DataFrame ["id"; "path_best"]
    [[Demo.int_ 1; Demo.str_ "a.jpg"]; [Demo.int_ 2; CNaN]].

(** A media table in which the second row has a URL and no identifier. *)
Definition id_missing : Demo.T :=
  DataFrame ["id"; "path_best"]
    [[Demo.int_ 1; Demo.str_ "a.jpg"]; [CNaN; Demo.str_ "b.jpg"]].

(** The pool finishes the tasks in the reverse order of submission. *)
Definition finish_reversed (futs : list (Z * string)) : list (Z * string) := rev futs.

(** A run configured as in the file, without the download of the images. *)
Definition no_download : CollectionScript.config :=
  CollectionScript.Config 14233 17711 false.

(** A run of the single-image script on the media 7 and the annotations
    100 and 101, without the download of the image. *)
Definition two_ids : SingleScript.config :=
  SingleScript.Config 7 [100; 101] None false.

End Cases.

(** * Proofs *)

(** ** Strings *)

Lemma append_cons (x : ascii) (a b : string) : String x a +:+ b = String x (a +:+ b).
Proof. reflexivity. Qed.

Lemma append_nil (b : string) : "" +:+ b = b.
Proof. reflexivity. Qed.

Lemma endswith_spec (s suf : string) :
  PyStr.endswith s suf = true <-> exists p, s = p +:+ suf.
Proof.
  induction s as [|c r IH]; cbn [PyStr.endswith].
  - destruct (String.eqb_spec "" suf) as [E|E].
    + split; [intros _; exists ""; now rewrite <- E | reflexivity].
    + split; [discriminate|]. intros [p Hp].
      destruct p; [rewrite append_nil in Hp; congruence | discriminate].
  - destruct (String.eqb_spec (String c r) suf) as [E|E].
    + split; [intros _; exists ""; now rewrite <- E | reflexivity].
    + rewrite IH. split.
      * intros [p Hp]. exists (String c p). rewrite append_cons. now rewrite Hp.
      * intros [p Hp]. destruct p as [|x p].
        -- rewrite append_nil in Hp. congruence.
        -- rewrite append_cons in Hp. injection Hp as _ Hp. now exists p.
Qed.

Lemma prefix_spec (p s : string) :
  String.prefix p s = true <-> exists q, s = p +:+ q.
Proof.
  revert s. induction p as [|a p IH]; intros s.
  - destruct s; (split; [intros _; eexists; reflexivity | reflexivity]).
  - destruct s as [|b s]; simpl.
    + split; [discriminate | intros [q Hq]; discriminate].
    + destruct (Ascii.ascii_dec a b) as [->|Hne].
      * rewrite IH. split; intros [q Hq]; exists q.
        -- rewrite append_cons. now rewrite Hq.
        -- rewrite append_cons in Hq. congruence.
      * split; [discriminate|]. intros [q Hq]. rewrite append_cons in Hq. congruence.
Qed.

Lemma contains_spec (sub s : string) :
  PyStr.contains sub s = true <-> exists p q, s = p +:+ sub +:+ q.
Proof.
  induction s as [|c r IH]; cbn [PyStr.contains].
  - destruct (String.prefix sub "") eqn:E.
    + split; [intros _|reflexivity]. apply prefix_spec in E as [q Hq]. now exists "", q.
    + split; [discriminate|]. intros [p [q Hq]]. destruct p; [|discriminate].
      rewrite append_nil in Hq.
      assert (String.prefix sub "" = true) by (apply prefix_spec; eauto).
      congruence.
  - destruct (String.prefix sub (String c r)) eqn:E.
    + split; [intros _|reflexivity]. apply prefix_spec in E as [q Hq]. now exists "", q.
    + rewrite IH. split.
      * intros [p [q Hq]]. exists (String c p), q. rewrite append_cons. now rewrite Hq.
      * intros [p [q Hq]]. destruct p as [|x p].
        -- rewrite append_nil in Hq.
           assert (String.prefix sub (String c r) = true) by (apply prefix_spec; eauto).
           congruence.
        -- rewrite append_cons in Hq. injection Hq as _ Hq. now exists p, q.
Qed.

Lemma has_media_suffix_spec (c : string) :
  has_media_suffix c = true <-> suffix_match c.
Proof.
  unfold has_media_suffix, suffix_match. rewrite existsb_exists. split.
  - intros [suf [Hin H]]. apply endswith_spec in H as [p Hp]. eauto.
  - intros [suf [p [Hin Hp]]]. exists suf. split; [assumption|].
    apply endswith_spec. eauto.
Qed.

Lemma mentions_media_id_spec (c : string) :
  mentions_media_id c = true <-> loose_match c.
Proof.
  unfold mentions_media_id, loose_match.
  rewrite andb_true_iff, !contains_spec. reflexivity.
Qed.

(** ** The join-key detector *)

Lemma filter_head_split {A : Type} (p : A -> bool) (l : list A) (c : A) (rest : list A) :
  List.filter p l = c :: rest ->
  exists pre post, l = pre ++ c :: post /\ p c = true /\ Forall (fun x => p x = false) pre.
Proof.
  induction l as [|x l IH]; simpl; [discriminate|].
  destruct (p x) eqn:E.
  - intros [= -> _]. exists [], l. auto.
  - intros Hf. destruct (IH Hf) as (pre & post & -> & Hc & Hpre).
    exists (x :: pre), post. auto.
Qed.

Lemma filter_nil_all {A : Type} (p : A -> bool) (l : list A) :
  List.filter p l = [] -> Forall (fun x => p x = false) l.
Proof.
  induction l as [|x l IH]; simpl; [constructor|].
  destruct (p x) eqn:E; [discriminate|]. auto.
Qed.

Lemma first_mention_some (cols : list string) (c : string) :
  first_mention cols = Some c ->
  exists pre post, cols = pre ++ c :: post /\ mentions_media_id c = true /\
                   Forall (fun x => mentions_media_id x = false) pre.
Proof.
  induction cols as [|x cols IH]; simpl; [discriminate|].
  destruct (mentions_media_id x) eqn:E.
  - intros [= ->]. exists [], cols. auto.
  - intros Hf. destruct (IH Hf) as (pre & post & -> & Hc & Hpre).
    exists (x :: pre), post. auto.
Qed.

Lemma first_mention_none (cols : list string) :
  first_mention cols = None -> Forall (fun x => mentions_media_id x = false) cols.
Proof.
  induction cols as [|x cols IH]; simpl; [constructor|].
  destruct (mentions_media_id x) eqn:E; [discriminate|]. auto.
Qed.

Lemma not_suffix_match (c : string) : has_media_suffix c = false -> ~ suffix_match c.
Proof. intros E M. apply has_media_suffix_spec in M. congruence. Qed.

Lemma not_loose_match (c : string) : mentions_media_id c = false -> ~ loose_match c.
Proof. intros E M. apply mentions_media_id_spec in M. congruence. Qed.

Lemma first_such_unique (P : string -> Prop) (l : list string) (c1 c2 : string) :
  first_such P l c1 -> first_such P l c2 -> c1 = c2.
Proof.
  intros (pre1 & post1 & E1 & P1 & N1) (pre2 & post2 & E2 & P2 & N2).
  subst l. revert pre2 E2 N2.
  induction pre1 as [|x pre1 IH]; intros [|y pre2] E2 N2; simpl in E2.
  - congruence.
  - injection E2 as -> _. inversion N2; subst. tauto.
  - injection E2 as -> _. inversion N1; subst. tauto.
  - injection E2 as -> E2. inversion N1; inversion N2; subst. eauto.
Qed.

Lemma first_such_none (P : string -> Prop) (l : list string) (c : string) :
  first_such P l c -> Forall (fun x => ~ P x) l -> False.
Proof.
  intros (pre & post & -> & Pc & _) Hall.
  rewrite Forall_app in Hall. destruct Hall as [_ Hall]. inversion Hall; subst. tauto.
Qed.

(** The contract leaves one result only. *)
Lemma detector_contract_functional (msg : string) (cols : list string)
    (r1 r2 : outcome string) :
  detector_contract msg cols r1 -> detector_contract msg cols r2 -> r1 = r2.
Proof.
  intros [(c1 & F1 & ->) | [(N1 & c1 & F1 & ->) | (N1 & L1 & ->)]]
         [(c2 & F2 & ->) | [(N2 & c2 & F2 & ->) | (N2 & L2 & ->)]];
    try reflexivity;
    try (f_equal; eapply first_such_unique; eassumption);
    exfalso; eauto using first_such_none.
Qed.

Lemma detector_meets_contract (msg : string) (cols : list string) :
  detector_contract msg cols
    match List.filter has_media_suffix cols with
    | c :: _ => Ok c
    | [] => match first_mention cols with
            | Some c => Ok c
            | None => Raise (ValueError msg (take 20 cols))
            end
    end.
Proof.
  destruct (List.filter has_media_suffix cols) as [|c rest] eqn:Ef.
  - apply filter_nil_all in Ef.
    assert (Forall (fun x => ~ suffix_match x) cols) as Hno
      by (eapply Forall_impl; [eassumption | intros x; apply not_suffix_match]).
    destruct (first_mention cols) as [c|] eqn:Em.
    + right; left. split; [assumption|]. exists c. split; [|reflexivity].
      apply first_mention_some in Em as (pre & post & -> & Hc & Hpre).
      exists pre, post. split; [reflexivity|]. split.
      * now apply mentions_media_id_spec.
      * eapply Forall_impl; [eassumption | intros x; apply not_loose_match].
    + right; right. split; [assumption|]. split; [|reflexivity].
      apply first_mention_none in Em.
      eapply Forall_impl; [eassumption | intros x; apply not_loose_match].
  - left. exists c. split; [|reflexivity].
    apply filter_head_split in Ef as (pre & post & -> & Hc & Hpre).
    exists pre, post. split; [reflexivity|]. split.
    + now apply has_media_suffix_spec.
    + eapply Forall_impl; [eassumption | intros x; apply not_suffix_match].
Qed.

(** C4. On every list of column labels, each of the two detectors returns the
    first label whose lower-cased name ends with one of [point.media.id],
    [media.id], [media_id], [point_media_id]; when there is none, the first
    label whose lower-cased name contains both [media] and [id]; when there is
    none either, it raises the schema-detection error that carries the first
    20 labels.  This fixes the result: two calls on the same labels agree. *)
Theorem detect_ann_media_col_contract (cols : list string) :
  detector_contract ImageCollection.detect_msg cols
    (ImageCollection.detect_ann_media_col cols) /\
  detector_contract SingleImage.detect_msg cols
    (SingleImage.detect_ann_media_col cols) /\
  (forall msg r1 r2,
     detector_contract msg cols r1 -> detector_contract msg cols r2 -> r1 = r2).
Proof.
  split; [apply detector_meets_contract|].
  split; [apply detector_meets_contract|].
  intros msg r1 r2. apply detector_contract_functional.
Qed.

(** A label named [point.media.id] wins over [other_media_id_ref]. *)
Example detect_prefers_suffix :
  SingleImage.detect_ann_media_col ["id"; "other_media_id_ref"; "Point.Media.ID"]
  = Ok "Point.Media.ID".
Proof. reflexivity. Qed.

Example detect_loose_match :
  ImageCollection.detect_ann_media_col ["id"; "other_media_id_ref"; "x"]
  = Ok "other_media_id_ref".
Proof. reflexivity. Qed.

Example detect_reports_columns :
  ImageCollection.detect_ann_media_col ["id"; "label.name"]
  = Raise (ValueError ImageCollection.detect_msg ["id"; "label.name"]).
Proof. reflexivity. Qed.

(** ** The dotted-path projector *)

Lemma split_dot_cons (s : string) : exists h t, PyStr.split_dot s = h :: t.
Proof.
  induction s as [|c r (h & t & E)]; simpl; [eauto|].
  destruct (Ascii.eqb c "."); [eauto|]. rewrite E. eauto.
Qed.

Lemma join_dot_cons (c : ascii) (h : string) (t : list string) :
  PyStr.join_dot (String c h :: t) = String c (PyStr.join_dot (h :: t)).
Proof. destruct t; reflexivity. Qed.

(** The parts, joined by dots, give the path back. *)
Lemma join_split_dot (s : string) : PyStr.join_dot (PyStr.split_dot s) = s.
Proof.
  induction s as [|c r IH]; [reflexivity|]. simpl PyStr.split_dot.
  destruct (Ascii.eqb_spec c "."%char) as [->|Hc].
  - destruct (split_dot_cons r) as (h & t & E). rewrite E in *.
    change (PyStr.join_dot ("" :: h :: t)) with ("" +:+ "." +:+ PyStr.join_dot (h :: t)).
    rewrite IH. reflexivity.
  - destruct (split_dot_cons r) as (h & t & E). rewrite E in *.
    rewrite join_dot_cons, IH. reflexivity.
Qed.

Lemma prefix_dot_other (c : ascii) (h : string) :
  c <> "."%char -> String.prefix "." (String c h) = false.
Proof.
  intros Hc. destruct (String.prefix "." (String c h)) eqn:E; [|reflexivity].
  apply prefix_spec in E as [q Hq]. rewrite append_cons in Hq. congruence.
Qed.

Lemma split_dot_parts_dot_free (s : string) :
  Forall (fun part => PyStr.contains "." part = false) (PyStr.split_dot s).
Proof.
  induction s as [|c r IH]; simpl PyStr.split_dot.
  - constructor; [reflexivity | constructor].
  - destruct (Ascii.eqb_spec c "."%char) as [->|Hc].
    + constructor; [reflexivity | exact IH].
    + destruct (split_dot_cons r) as (h & t & E). rewrite E in *.
      inversion IH as [|? ? Hh Ht]; subst. constructor; [|exact Ht].
      cbn [PyStr.contains]. rewrite (prefix_dot_other c h Hc). exact Hh.
Qed.

Section Dotted.
Context {F : Type} `{Runtime F}.

Lemma resolves_functional (d : json F) (parts : list string) (v w : json F) :
  resolves d parts v -> resolves d parts w -> v = w.
Proof.
  intros Hv. revert w. induction Hv as [v|fields part rest v u Hl Hv IH]; intros w Hw.
  - now inversion Hw.
  - inversion Hw; subst. apply IH. congruence.
Qed.

Lemma descend_found (d : json F) (parts : list string) (default v : json F) :
  resolves d parts v -> SingleImage.descend d parts default = v.
Proof.
  induction 1 as [v|fields part rest v w Hl Hv IH]; simpl; [reflexivity|].
  now rewrite Hl.
Qed.

Lemma descend_missing (d : json F) (parts : list string) (default : json F) :
  (forall v, ~ resolves d parts v) -> SingleImage.descend d parts default = default.
Proof.
  revert d. induction parts as [|part rest IH]; intros d Hno.
  - exfalso. apply (Hno d). constructor.
  - simpl. destruct d as [| | | | | |fields]; try reflexivity.
    destruct (fields !! part) as [v|] eqn:Hl; [|reflexivity].
    apply IH. intros w Hw. apply (Hno w). econstructor; eassumption.
Qed.

Lemma resolves_dec (d : json F) (parts : list string) :
  (exists v, resolves d parts v) \/ (forall v, ~ resolves d parts v).
Proof.
  revert d. induction parts as [|part rest IH]; intros d.
  - left. exists d. constructor.
  - destruct d as [| | | | | |fields];
      try (right; intros v Hv; inversion Hv; fail).
    destruct (fields !! part) as [v|] eqn:Hl.
    + destruct (IH v) as [(w & Hw)|Hno].
      * left. exists w. econstructor; eassumption.
      * right. intros w Hw. inversion Hw; subst.
        apply (Hno w). congruence.
    + right. intros w Hw. inversion Hw; subst. congruence.
Qed.

(** C7. For every nested mapping, dotted path and default, [get_by_dotted]
    descends the mapping along the dot-separated components of the path, one
    at a time, and returns the value it reaches; when a component is missing
    or the value at hand is no mapping, it returns the default.  It is a
    total function of its three arguments: it raises nothing and changes
    nothing. *)
Theorem get_by_dotted_contract (d : json F) (dotted : string) (default : json F) :
  let parts := PyStr.split_dot dotted in
  PyStr.join_dot parts = dotted /\
  Forall dot_free parts /\
  ((exists v, resolves d parts v /\ SingleImage.get_by_dotted d dotted default = v) \/
   ((forall v, ~ resolves d parts v) /\
    SingleImage.get_by_dotted d dotted default = default)).
Proof.
  intros parts. split; [apply join_split_dot|].
  split; [apply split_dot_parts_dot_free|].
  unfold SingleImage.get_by_dotted. fold parts.
  destruct (resolves_dec d parts) as [(v & Hv)|Hno].
  - left. exists v. split; [assumption|]. now apply descend_found.
  - right. split; [assumption|]. now apply descend_missing.
Qed.

End Dotted.

Example get_by_dotted_nested :
  SingleImage.get_by_dotted
    (JObj (list_to_map [("id", JInt 7);
                        ("point", JObj (list_to_map
                           [("media", JObj (list_to_map [("id", JInt 42)]))]))]) : Demo.J)
    "point.media.id" (JStr "") = JInt 42.
Proof. reflexivity. Qed.

Example get_by_dotted_through_scalar :
  SingleImage.get_by_dotted
    (JObj (list_to_map [("point", JInt 3)]) : Demo.J) "point.media.id" (JStr "") = JStr "".
Proof. reflexivity. Qed.

(** ** Coercion to nullable integers and the referential filter *)

Lemma round_float64_small (z : Z) : Z.abs z <= 2 ^ 53 -> round_float64 z = z.
Proof.
  intros Hz. unfold round_float64.
  destruct (Z.ltb_spec (Z.abs z) (2 ^ 53)) as [Hlt|Hge]; [reflexivity|].
  assert (Z.abs z = 2 ^ 53) as Ha by lia. rewrite Ha.
  destruct (Z.abs_eq_or_opp z) as [E|E]; rewrite E in Ha.
  - subst z. reflexivity.
  - assert (z = - 2 ^ 53) as -> by lia. reflexivity.
Qed.

Lemma forallb_false_witness {A : Type} (p : A -> bool) (l : list A) :
  forallb p l = false -> exists x, In x l /\ p x = false.
Proof.
  induction l as [|x l IH]; simpl; [discriminate|].
  destruct (p x) eqn:Ex; simpl.
  - intros E. destruct (IH E) as (y & Hy & Hp). eauto.
  - intros _. eauto.
Qed.

Lemma existsb_eqb_In (z : Z) (ids : list Z) :
  existsb (Z.eqb z) ids = true <-> In z ids.
Proof.
  rewrite existsb_exists. split.
  - intros (y & Hy & E). apply Z.eqb_eq in E. now subst.
  - intros Hin. exists z. split; [assumption | apply Z.eqb_refl].
Qed.

Lemma to_numeric_dtype_cases (ns : list numeric) :
  (to_numeric_dtype ns = Int64 /\ forallb is_int64 ns = true) \/
  (to_numeric_dtype ns = UInt64 /\
   forallb is_int64 ns = false /\ forallb is_uint64 ns = true) \/
  (to_numeric_dtype ns = Float64 /\
   forallb is_int64 ns = false /\ forallb is_uint64 ns = false).
Proof.
  unfold to_numeric_dtype.
  destruct (forallb is_int64 ns); [auto|].
  destruct (forallb is_uint64 ns); auto.
Qed.

Section Filter.
Context {F : Type} `{Runtime F}.

(** An integer cell of magnitude at most 2^53 is represented by its float. *)
Lemma small_integer_exact (z : Z) : Z.abs z <= 2 ^ 53 -> exact (CVal (JInt z)).
Proof.
  intros Hz. unfold exact, numeric_of, numeric_of_int. now apply round_float64_small.
Qed.

(** Indexing the rows by a mask computed row by row is filtering them. *)
Lemma boolean_index_map (h : list (cell F) -> bool) (rs : list (list (cell F))) :
  boolean_index (map h rs) rs = List.filter h rs.
Proof.
  induction rs as [|r rs IH]; simpl; [reflexivity|]. rewrite IH. reflexivity.
Qed.

Lemma boolean_index_subset (mask : list bool) (rs : list (list (cell F)))
    (r : list (cell F)) :
  In r (boolean_index mask rs) -> In r rs.
Proof.
  revert mask. induction rs as [|x rs IH]; intros [|b mask]; simpl; try tauto.
  destruct b; simpl; intros Hin; [destruct Hin|]; eauto.
Qed.

Lemma cast_floats_ok (ns : list numeric) (ms : list (option Z)) :
  cast_floats ns = Ok ms -> Forall2 (fun n m => cast_float n = Ok m) ns ms.
Proof.
  revert ms. induction ns as [|n ns IH]; simpl; intros ms E.
  - injection E as <-. constructor.
  - destruct (cast_float n) as [m|e] eqn:En; simpl in E; [|discriminate].
    destruct (cast_floats ns) as [ms'|e] eqn:Ens; simpl in E; [|discriminate].
    injection E as <-. constructor; auto.
Qed.

Lemma cast_floats_all (ns : list numeric) (ms : list (option Z)) :
  Forall2 (fun n m => cast_float n = Ok m) ns ms -> cast_floats ns = Ok ms.
Proof.
  induction 1 as [|n m ns ms Hn _ IH]; simpl; [reflexivity|].
  rewrite Hn, IH. reflexivity.
Qed.

(** On a column whose integers are represented by floats, the cast accepts
    the column exactly when it accepts every value, and gives every value
    the integer it stands for. *)
Lemma coerce_exact_ok (xs : list (cell F)) :
  Forall exact xs -> Forall castable xs ->
  coerce_column xs = Ok (map key_of xs).
Proof.
  intros Hex Hca. unfold coerce_column.
  destruct (to_numeric_dtype_cases (map numeric_of xs))
    as [[-> Ei]|[(-> & Ei & Eu)|(-> & _ & _)]].
  - f_equal. rewrite List.map_map. apply map_ext_in. intros x Hin.
    rewrite forallb_forall in Ei. specialize (Ei (numeric_of x) (in_map _ _ _ Hin)).
    unfold key_of. destruct (numeric_of x); try discriminate. reflexivity.
  - exfalso. apply forallb_false_witness in Ei as (n & Hin & Hn).
    apply in_map_iff in Hin as (x & <- & Hx).
    rewrite forallb_forall in Eu. specialize (Eu (numeric_of x) (in_map _ _ _ Hx)).
    rewrite List.Forall_forall in Hca. specialize (Hca x Hx). unfold castable in Hca.
    destruct (numeric_of x); simpl in *; congruence.
  - apply cast_floats_all.
    induction xs as [|x xs IH]; simpl; [constructor|].
    inversion Hex as [|? ? Hx Hxs]; inversion Hca as [|? ? Cx Cxs]; subst.
    constructor; [|auto].
    unfold exact in Hx. unfold castable in Cx. unfold key_of.
    destruct (numeric_of x) as [z fl|[z|]|]; simpl.
    + subst fl. now rewrite Cx.
    + now rewrite Cx.
    + destruct Cx.
    + reflexivity.
Qed.

Lemma coerce_exact_inv (xs : list (cell F)) (ms : list (option Z)) :
  Forall exact xs -> coerce_column xs = Ok ms ->
  Forall castable xs /\ ms = map key_of xs.
Proof.
  intros Hex E.
  assert (Forall castable xs) as Hca.
  { unfold coerce_column in E.
    destruct (to_numeric_dtype_cases (map numeric_of xs))
      as [[Ed Ei]|[(Ed & _ & _)|(Ed & _ & _)]]; rewrite Ed in E.
    - apply List.Forall_forall. intros x Hx.
      rewrite forallb_forall in Ei. specialize (Ei (numeric_of x) (in_map _ _ _ Hx)).
      unfold castable. destruct (numeric_of x); try discriminate. exact Ei.
    - discriminate.
    - apply cast_floats_ok in E. clear Ed. revert ms E.
      induction xs as [|x xs IH]; intros ms E; [constructor|].
      simpl in E. inversion E as [|? m ? ms' Hx Hrest]; subst.
      inversion Hex as [|? ? Ex Exs]; subst.
      constructor; [|eauto].
      unfold exact in Ex. unfold castable.
      destruct (numeric_of x) as [z fl|[z|]|]; simpl in Hx.
      + subst fl. destruct (in_int64 z); [reflexivity | discriminate].
      + destruct (in_int64 z); [reflexivity | discriminate].
      + discriminate.
      + exact I. }
  split; [assumption|].
  rewrite (coerce_exact_ok xs Hex Hca) in E. now injection E.
Qed.

(** What the filter went through when it returns on a table that is not
    empty. *)
Lemma post_filter_filters (ann_df out : table F) (ids : list Z) :
  empty ann_df = false ->
  ImageCollection.post_filter_ann_to_media_ids ann_df ids = Ok out ->
  exists col mids,
    ImageCollection.detect_ann_media_col (columns ann_df) = Ok col /\
    coerce_column (column ann_df col) = Ok mids /\
    forallb in_int64 ids = true /\
    out = DataFrame (columns ann_df)
            (boolean_index (map (ImageCollection.isin ids) mids) (rows ann_df)).
Proof.
  intros Hne E. unfold ImageCollection.post_filter_ann_to_media_ids in E.
  rewrite Hne in E.
  destruct (ImageCollection.detect_ann_media_col (columns ann_df)) as [col|e] eqn:Ed;
    simpl in E; [|discriminate].
  destruct (coerce_column (column ann_df col)) as [ms|e] eqn:Ec; simpl in E; [|discriminate].
  unfold ImageCollection.int64_index in E.
  destruct (forallb in_int64 ids) eqn:Ei; simpl in E; [|discriminate].
  injection E as <-. exists col, ms. auto.
Qed.

(** On a table whose keys are represented by floats, the filter keeps the
    rows whose key is an integer of the list. *)
Lemma post_filter_exact (ann_df out : table F) (ids : list Z) :
  exact_keys ann_df ->
  empty ann_df = false ->
  ImageCollection.post_filter_ann_to_media_ids ann_df ids = Ok out ->
  exists col,
    ImageCollection.detect_ann_media_col (columns ann_df) = Ok col /\
    Forall castable (column ann_df col) /\
    forallb in_int64 ids = true /\
    out = DataFrame (columns ann_df)
            (List.filter (member_row (columns ann_df) col ids) (rows ann_df)).
Proof.
  intros Hex Hne E.
  destruct (post_filter_filters _ _ _ Hne E) as (col & mids & Hd & Hc & Hi & ->).
  destruct (coerce_exact_inv _ _ (Hex col Hd) Hc) as [Hca ->].
  exists col. repeat split; try assumption. f_equal.
  unfold column. rewrite !List.map_map. apply boolean_index_map.
Qed.

Lemma post_filter_computes (ann_df : table F) (ids : list Z) (col : string) :
  empty ann_df = false ->
  ImageCollection.detect_ann_media_col (columns ann_df) = Ok col ->
  Forall exact (column ann_df col) ->
  Forall castable (column ann_df col) ->
  forallb in_int64 ids = true ->
  ImageCollection.post_filter_ann_to_media_ids ann_df ids
  = Ok (DataFrame (columns ann_df)
          (List.filter (member_row (columns ann_df) col ids) (rows ann_df))).
Proof.
  intros Hne Hd Hex Hca Hi. unfold ImageCollection.post_filter_ann_to_media_ids.
  rewrite Hne, Hd. cbn [bind]. rewrite (coerce_exact_ok _ Hex Hca). cbn [bind].
  unfold ImageCollection.int64_index. rewrite Hi. cbn [bind]. do 2 f_equal.
  unfold column. rewrite !List.map_map. apply boolean_index_map.
Qed.

End Filter.

(** ** The single-image exporter *)

Section SingleExport.
Context {F : Type} `{Runtime F}.

(** C9 (amended). The constrained annotation query makes its attempts in a
    fixed order: the tabular request with the media field [point.media.id],
    then with [point.media_id], then the JSON request with each of the two.
    An attempt is its request, the decoding of the answer and, on a table
    that is not empty, the local detection of the join key and the local
    filter; it fails when any of these raises.  The call sends the requests
    up to the first attempt that does not fail and returns the table of that
    attempt, whatever its number of rows; when the four attempts fail it
    returns the table of the requested fields with no row.  It never
    raises. *)
Theorem export_all_first_success (sq : server F) (media_id : Z) (annset_id : option Z)
    (ann_fields : list string) :
  let atts := attempts sq media_id annset_id ann_fields in
  (exists pre rq df post,
     atts = pre ++ (rq, Ok df) :: post /\
     Forall (fun a => succeeded a.2 = false) pre /\
     SingleImage.export_all_annotations_for_media sq media_id annset_id ann_fields
     = (map fst pre ++ [rq], df)) \/
  (Forall (fun a => succeeded a.2 = false) atts /\
   SingleImage.export_all_annotations_for_media sq media_id annset_id ann_fields
   = (map fst atts, DataFrame ann_fields [])).
Proof.
  unfold attempts, SingleImage.export_all_annotations_for_media,
    SingleImage.MEDIA_FIELD_CANDIDATES.
  cbn [map app SingleImage.try_candidates].
  destruct (SingleImage.attempt_csv sq media_id annset_id ann_fields "point.media.id")
    as [df1|e1] eqn:E1.
  { left. eexists [], _, _, _. split; [reflexivity|]. split; [constructor | reflexivity]. }
  destruct (SingleImage.attempt_csv sq media_id annset_id ann_fields "point.media_id")
    as [df2|e2] eqn:E2.
  { left. eexists [(_, Raise e1)], _, _, _. split; [reflexivity|].
    split; [repeat constructor | reflexivity]. }
  destruct (SingleImage.attempt_json sq media_id annset_id ann_fields "point.media.id")
    as [df3|e3] eqn:E3.
  { left. eexists [(_, Raise e1); (_, Raise e2)], _, _, _. split; [reflexivity|].
    split; [repeat constructor | reflexivity]. }
  destruct (SingleImage.attempt_json sq media_id annset_id ann_fields "point.media_id")
    as [df4|e4] eqn:E4.
  { left. eexists [(_, Raise e1); (_, Raise e2); (_, Raise e3)], _, _, _.
    split; [reflexivity|]. split; [repeat constructor | reflexivity]. }
  right. split; [repeat constructor | reflexivity].
Qed.

(** C8. The referential filter returns an empty annotation table as it is,
    whatever the media identifiers, and raises nothing; the per-identifier
    resolver, given no identifier, returns the table that has the requested
    fields as columns and no row, and prints nothing. *)
Theorem empty_input_stability (ann_df : table F) (media_ids : list Z)
    (sq : server F) (media_id : Z) (annset_id : option Z) (ann_fields : list string) :
  empty ann_df = true ->
  ImageCollection.post_filter_ann_to_media_ids ann_df media_ids = Ok ann_df /\
  SingleImage.fetch_annotations_by_ids_for_media_via_get sq media_id [] annset_id ann_fields
  = (DataFrame ann_fields [], []).
Proof.
  intros He. split; [|reflexivity].
  unfold ImageCollection.post_filter_ann_to_media_ids. now rewrite He.
Qed.

End SingleExport.

(** The filter on the scenario of the specification: the media 1, 2 and 3,
    annotations of the media 1, 2, 4 and of a media that is no number. *)
Example post_filter_scenario :
  ImageCollection.post_filter_ann_to_media_ids Demo.annotations [1; 2; 3] = Ok Demo.kept.
Proof. reflexivity. Qed.

(** C1. The referential filter on a tabular answer whose join-key column
    holds the integer 9007199254740993 (2^53 + 1) next to a value that is no
    number.  The column is coerced through float64, where the key becomes
    9007199254740992: the row is dropped for the set {9007199254740993},
    although its key is an integer of the set, and it is retained for the
    set {9007199254740992}, to which its key does not belong.  In a column of
    integers only, the same key is compared as it is. *)
Theorem referential_filter_rounds_keys :
  ImageCollection.post_filter_ann_to_media_ids Cases.big_keys [9007199254740993]
  = Ok (DataFrame ["id"; "point.media.id"] []) /\
  ImageCollection.post_filter_ann_to_media_ids Cases.big_keys [9007199254740992]
  = Ok (DataFrame ["id"; "point.media.id"]
          [[Demo.int_ 10; Demo.str_ "9007199254740993"]]) /\
  ImageCollection.post_filter_ann_to_media_ids Cases.big_keys_only [9007199254740993]
  = Ok Cases.big_keys_only.
Proof. repeat split; vm_compute; reflexivity. Qed.

Lemma empty_input_stability_witness :
  empty Demo.no_rows = true /\
  ImageCollection.post_filter_ann_to_media_ids Demo.no_rows [1; 2; 3] = Ok Demo.no_rows /\
  SingleImage.fetch_annotations_by_ids_for_media_via_get Demo.down 7 [] None
    SingleImage.ANN_FIELDS = (DataFrame SingleImage.ANN_FIELDS [], []).
Proof.
  split; [reflexivity|].
  apply (empty_input_stability Demo.no_rows [1; 2; 3] Demo.down 7 None SingleImage.ANN_FIELDS).
  reflexivity.
Defined.

(** C9 as stated fails when the first answer is a table in which no column
    names the media: the answer is no error, yet the next candidate is
    requested. *)
Lemma first_response_counterexample :
  ~ accepts_first_response Demo.answers_first 7 None ["id"; "label.name"].
Proof.
  intros Hc. specialize (Hc Demo.unlabelled eq_refl). vm_compute in Hc. discriminate Hc.
Qed.

(** On that service the table returned is made of the second answer. *)
Example export_all_returns_second_answer :
  SingleImage.export_all_annotations_for_media Demo.answers_first 7 None ["id"; "label.name"]
  = ([SingleImage.annotation_query 7 None ["id"; "label.name"] DataframeCsv "point.media.id";
      SingleImage.annotation_query 7 None ["id"; "label.name"] DataframeCsv "point.media_id"],
     DataFrame ["id"; "label.name"; "point.media_id"]
       [[Demo.int_ 10; Demo.str_ "kelp"; Demo.int_ 7]]).
Proof. reflexivity. Qed.

(** When no answer names the media, the call ends with the empty table of the
    requested fields, after the four requests. *)
Example export_all_rejects_unlabelled :
  SingleImage.export_all_annotations_for_media Demo.never_labelled 7 None
    ["id"; "label.name"]
  = (map fst (attempts Demo.never_labelled 7 None ["id"; "label.name"]),
     DataFrame ["id"; "label.name"] []).
Proof. reflexivity. Qed.

(** C10. The export of all annotations of the media 9007199254740992 from a
    service that ignores the filter on the media and answers with a table
    whose media column holds 9007199254740993 next to a value that is no
    number: the local filter compares the column after its coercion through
    float64, and the table returned holds the row of the media
    9007199254740993, which is not the target. *)
Theorem export_all_returns_other_media :
  SingleImage.export_all_annotations_for_media Cases.rounding 9007199254740992 None
    ["id"; "point.media.id"]
  = ([SingleImage.annotation_query 9007199254740992 None ["id"; "point.media.id"]
        DataframeCsv "point.media.id"],
     DataFrame ["id"; "point.media.id"]
       [[Demo.int_ 10; Demo.str_ "9007199254740993"]]).
Proof. vm_compute. reflexivity. Qed.

(** On a service that ignores the filter and answers with keys that floats
    represent, the rows of the other media are removed locally. *)
Example export_all_filters_locally :
  (SingleImage.export_all_annotations_for_media Demo.ignores_filter 2 None
     ["id"; "label.name"; "point.media.id"]).2
  = DataFrame ["id"; "label.name"; "point.media.id"]
      [[Demo.int_ 11; Demo.str_ "sand"; Demo.int_ 2]].
Proof. reflexivity. Qed.

(** ** The per-identifier resolver *)

Section Resolver.
Context {F : Type} `{Runtime F}.

Lemma resolve_loop_acc (sq : server F) (media_id : Z) (annset_id : option Z)
    (ann_fields : list string) (ids : list Z)
    (rs : list (list (cell F))) (log : list (SingleImage.diag F)) :
  SingleImage.resolve_loop sq media_id annset_id ann_fields ids (rs, log)
  = (rs ++ kept_rows sq media_id annset_id ann_fields ids,
     log ++ diagnostics sq media_id annset_id ann_fields ids).
Proof.
  revert rs log. induction ids as [|aid ids IH]; intros rs log.
  - simpl. now rewrite !app_nil_r.
  - cbn [SingleImage.resolve_loop]. unfold kept_rows, diagnostics. cbn [flat_map].
    fold (kept_rows sq media_id annset_id ann_fields ids).
    fold (diagnostics sq media_id annset_id ann_fields ids).
    destruct (SingleImage.resolve_one sq media_id annset_id ann_fields aid) as [row|d];
      rewrite IH; simpl; now rewrite <- ?app_assoc.
Qed.

(** Every identifier is resolved on its own. *)
Lemma fetch_by_ids_unfold (sq : server F) (media_id : Z) (annset_id : option Z)
    (ann_fields : list string) (ids : list Z) :
  SingleImage.fetch_annotations_by_ids_for_media_via_get sq media_id ids annset_id ann_fields
  = (DataFrame ann_fields (kept_rows sq media_id annset_id ann_fields ids),
     diagnostics sq media_id annset_id ann_fields ids).
Proof.
  unfold SingleImage.fetch_annotations_by_ids_for_media_via_get.
  rewrite resolve_loop_acc. simpl.
  now destruct (kept_rows sq media_id annset_id ann_fields ids).
Qed.

Lemma kept_rows_app (sq : server F) (media_id : Z) (annset_id : option Z)
    (ann_fields : list string) (ids1 ids2 : list Z) :
  kept_rows sq media_id annset_id ann_fields (ids1 ++ ids2)
  = kept_rows sq media_id annset_id ann_fields ids1 ++
    kept_rows sq media_id annset_id ann_fields ids2.
Proof. unfold kept_rows. apply flat_map_app. Qed.

Lemma diagnostics_app (sq : server F) (media_id : Z) (annset_id : option Z)
    (ann_fields : list string) (ids1 ids2 : list Z) :
  diagnostics sq media_id annset_id ann_fields (ids1 ++ ids2)
  = diagnostics sq media_id annset_id ann_fields ids1 ++
    diagnostics sq media_id annset_id ann_fields ids2.
Proof. unfold diagnostics. apply flat_map_app. Qed.

(** A skipped identifier leaves the rows of the others and adds one line. *)
Lemma fetch_by_ids_skip (sq : server F) (media_id : Z) (annset_id : option Z)
    (ann_fields : list string) (ids1 ids2 : list Z) (aid : Z) (d : SingleImage.diag F) :
  SingleImage.resolve_one sq media_id annset_id ann_fields aid = SingleImage.Skip d ->
  let run := fun ids =>
    SingleImage.fetch_annotations_by_ids_for_media_via_get sq media_id ids annset_id
      ann_fields in
  rows (run (ids1 ++ aid :: ids2)).1 = rows (run ids1).1 ++ rows (run ids2).1 /\
  (run (ids1 ++ aid :: ids2)).2 = (run ids1).2 ++ d :: (run ids2).2.
Proof.
  intros Hs run. unfold run. rewrite !fetch_by_ids_unfold. simpl.
  rewrite kept_rows_app, diagnostics_app.
  unfold kept_rows at 2, diagnostics at 2. cbn [flat_map]. rewrite Hs. simpl.
  split; reflexivity.
Qed.

Lemma resolve_one_failed (sq : server F) (media_id : Z) (annset_id : option Z)
    (ann_fields : list string) (aid : Z) (e : exn) :
  get_annotation sq aid = Raise e ->
  SingleImage.resolve_one sq media_id annset_id ann_fields aid
  = SingleImage.Skip (SingleImage.GetFailed aid e).
Proof. intros E. unfold SingleImage.resolve_one. now rewrite E. Qed.

Lemma resolve_one_other_media (sq : server F) (media_id : Z) (annset_id : option Z)
    (ann_fields : list string) (aid : Z) (js : json F) :
  get_annotation sq aid = Ok js ->
  SingleImage.differs_from (media_ref js) media_id <> Ok false ->
  exists d,
    SingleImage.resolve_one sq media_id annset_id ann_fields aid = SingleImage.Skip d /\
    diag_aid d = aid /\
    (SingleImage.lacks_id js = false ->
     SingleImage.differs_from (media_ref js) media_id = Ok true ->
     d = SingleImage.WrongMedia aid (media_ref js) media_id).
Proof.
  intros E Hd. unfold SingleImage.resolve_one. rewrite E. cbn [bind].
  unfold SingleImage.check_record. fold (media_ref js).
  destruct (SingleImage.lacks_id js).
  - eexists. split; [reflexivity|]. split; [reflexivity | discriminate].
  - destruct (SingleImage.differs_from (media_ref js) media_id) as [[|]|e]; cbn [bind].
    + eexists. split; [reflexivity|]. split; [reflexivity | reflexivity].
    + congruence.
    + eexists. split; [reflexivity|]. split; [reflexivity | discriminate].
Qed.

Lemma resolve_one_keep (sq : server F) (media_id : Z) (annset_id : option Z)
    (ann_fields : list string) (aid : Z) (js : json F) :
  get_annotation sq aid = Ok js ->
  SingleImage.lacks_id js = false ->
  SingleImage.differs_from (media_ref js) media_id = Ok false ->
  passes_annset annset_id js ->
  SingleImage.resolve_one sq media_id annset_id ann_fields aid
  = SingleImage.Keep (project js ann_fields).
Proof.
  intros E Hid Hm Hs. unfold SingleImage.resolve_one. rewrite E. cbn [bind].
  unfold SingleImage.check_record. fold (media_ref js). rewrite Hid, Hm. cbn [bind].
  destruct annset_id as [wanted|]; [|reflexivity].
  simpl in Hs. cbn [SingleImage.ENFORCE_ANNSET]. fold (annset_ref js).
  unfold SingleImage.ENFORCE_ANNSET. rewrite Hs. reflexivity.
Qed.

(** C5. The per-identifier resolver treats every identifier on its own.  An
    annotation whose media reference is not the target media adds no row:
    the rows are those of the identifiers before it followed by those of the
    identifiers after it, and one diagnostic about it is printed between
    theirs (the media mismatch, when the record has an identifier).  An
    identifier whose fetch fails does the same, with the failure as
    diagnostic: the call goes on and returns.  In particular, for the
    identifiers [A; B] where the record of [A] is on the target media (and
    in the wanted annotation set, when one is given) and the record of [B]
    is on another media, the result is the one row of [A] and the
    diagnostic is the mismatch of [B]. *)
Theorem resolver_isolation (sq : server F) (media_id : Z) (annset_id : option Z)
    (ann_fields : list string) :
  let run := fun ids =>
    SingleImage.fetch_annotations_by_ids_for_media_via_get sq media_id ids annset_id
      ann_fields in
  (forall ids1 aid ids2 js,
     get_annotation sq aid = Ok js ->
     SingleImage.differs_from (media_ref js) media_id <> Ok false ->
     exists d,
       diag_aid d = aid /\
       rows (run (ids1 ++ aid :: ids2)).1 = rows (run ids1).1 ++ rows (run ids2).1 /\
       (run (ids1 ++ aid :: ids2)).2 = (run ids1).2 ++ d :: (run ids2).2 /\
       (SingleImage.lacks_id js = false ->
        SingleImage.differs_from (media_ref js) media_id = Ok true ->
        d = SingleImage.WrongMedia aid (media_ref js) media_id)) /\
  (forall ids1 aid ids2 e,
     get_annotation sq aid = Raise e ->
     rows (run (ids1 ++ aid :: ids2)).1 = rows (run ids1).1 ++ rows (run ids2).1 /\
     (run (ids1 ++ aid :: ids2)).2
     = (run ids1).2 ++ SingleImage.GetFailed aid e :: (run ids2).2) /\
  (forall A B jsA jsB,
     get_annotation sq A = Ok jsA ->
     SingleImage.lacks_id jsA = false ->
     SingleImage.differs_from (media_ref jsA) media_id = Ok false ->
     passes_annset annset_id jsA ->
     get_annotation sq B = Ok jsB ->
     SingleImage.lacks_id jsB = false ->
     SingleImage.differs_from (media_ref jsB) media_id = Ok true ->
     run [A; B]
     = (DataFrame ann_fields [project jsA ann_fields],
        [SingleImage.WrongMedia B (media_ref jsB) media_id])).
Proof.
  intros run. split; [|split].
  - intros ids1 aid ids2 js E Hd.
    destruct (resolve_one_other_media sq media_id annset_id ann_fields aid js E Hd)
      as (d & Hs & Ha & Hw).
    exists d. split; [assumption|].
    destruct (fetch_by_ids_skip sq media_id annset_id ann_fields ids1 ids2 aid d Hs)
      as [Hr Hl].
    auto.
  - intros ids1 aid ids2 e E.
    apply fetch_by_ids_skip. now apply resolve_one_failed.
  - intros A B jsA jsB EA HidA HmA HsA EB HidB HmB.
    unfold run. rewrite fetch_by_ids_unfold. unfold kept_rows, diagnostics.
    cbn [flat_map].
    rewrite (resolve_one_keep sq media_id annset_id ann_fields A jsA EA HidA HmA HsA).
    destruct (resolve_one_other_media sq media_id annset_id ann_fields B jsB EB)
      as (d & -> & _ & Hw); [congruence|].
    rewrite (Hw HidB HmB). reflexivity.
Qed.

End Resolver.

(** The scenario of the specification: annotation 100 is on the media 7,
    annotation 101 on the media 8. *)
Lemma resolver_isolation_witness :
  SingleImage.fetch_annotations_by_ids_for_media_via_get Demo.two_media 7 [100; 101] None
    ["id"; "label.name"; "point.media.id"]
  = (DataFrame ["id"; "label.name"; "point.media.id"]
       [project Demo.annotation_100 ["id"; "label.name"; "point.media.id"]],
     [SingleImage.WrongMedia 101 (media_ref Demo.annotation_101) 7]).
Proof.
  apply (proj2 (proj2 (resolver_isolation Demo.two_media 7 None
                         ["id"; "label.name"; "point.media.id"])));
    reflexivity || exact I.
Defined.

(** An identifier that fails to load between the two changes no row. *)
Example resolver_survives_failure :
  SingleImage.fetch_annotations_by_ids_for_media_via_get Demo.two_media 7 [102; 100; 101]
    None ["id"; "point.media.id"]
  = (DataFrame ["id"; "point.media.id"] [[Demo.int_ 100; Demo.int_ 7]],
     [SingleImage.GetFailed 102 RemoteError; SingleImage.WrongMedia 101 (JInt 8) 7]).
Proof. reflexivity. Qed.

(** ** The exporters of the collection script *)

Section Exporters.
Context {F : Type} `{Runtime F}.






(** The table the media export builds from the raw JSON. *)
Lemma media_fallback_result (sq : server F) (collection_id : Z)
    (include_columns : option (list string)) :
  succeeded (read_csv_of sq (ImageCollection.media_preferred collection_id
                               (ImageCollection.media_include include_columns))) = false ->
  ImageCollection.export_media_collection_csv sq collection_id include_columns
  = ([ImageCollection.media_preferred collection_id
        (ImageCollection.media_include include_columns);
      ImageCollection.media_fallback collection_id
        (ImageCollection.media_include include_columns)],
     do df <- flat_records sq
                (ImageCollection.media_fallback collection_id
                   (ImageCollection.media_include include_columns));
     Ok match present_columns (ImageCollection.media_include include_columns) df with
        | [] => df
        | keep => select_columns keep df
        end).
Proof.
  intros Hf. unfold ImageCollection.export_media_collection_csv.
  destruct (read_csv_of sq _) as [df|e]; [discriminate|].
  f_equal. unfold flat_records.
  destruct (json_of sq _) as [js|e1]; [|reflexivity]. cbn [bind].
  destruct (get_objects js) as [recs|e2]; [|reflexivity]. cbn [bind].
  destruct (json_normalize recs) as [df|e3]; [|reflexivity]. cbn [bind].
  destruct (present_columns _ df); reflexivity.
Qed.

(** The table the annotation-set export builds from its second request. *)
Lemma annset_retry_result (sq : server F) (annset_id : Z)
    (include_columns : option (list string)) :
  succeeded (read_csv_of sq (ImageCollection.annset_preferred annset_id include_columns))
  = false ->
  ImageCollection.export_annotation_set_csv sq annset_id include_columns
  = ([ImageCollection.annset_preferred annset_id include_columns;
      ImageCollection.annset_retry annset_id],
     do df <- read_csv_of sq (ImageCollection.annset_retry annset_id);
     Ok match or_nil include_columns with
        | [] => df
        | wanted =>
            match present_columns wanted df with
            | [] => df
            | cols => select_columns cols df
            end
        end).
Proof.
  intros Hf. unfold ImageCollection.export_annotation_set_csv.
  destruct (read_csv_of sq (ImageCollection.annset_preferred _ _)) as [df|e];
    [discriminate|].
  reflexivity.
Qed.

(** C3 (amended). When the preferred request of the media-collection export
    fails, for whatever exception, the export requests the raw JSON of the
    same resource with the same list of fields, flattens it locally and
    keeps the requested fields that are present (all columns when none is).
    When the preferred request of the annotation-set export fails, the
    export does not ask for JSON: it requests the server-side flattening
    once more, without the list of fields, and keeps the requested fields
    that are present.  No other request is sent. *)
Theorem fallback_strategy (sq : server F) (collection_id annset_id : Z)
    (include_columns : option (list string)) :
  let include := ImageCollection.media_include include_columns in
  succeeded (read_csv_of sq (ImageCollection.media_preferred collection_id include))
  = false ->
  succeeded (read_csv_of sq (ImageCollection.annset_preferred annset_id include_columns))
  = false ->
  json_fallback
    (ImageCollection.export_media_collection_csv sq collection_id include_columns).1 /\
  (ImageCollection.export_media_collection_csv sq collection_id include_columns).2
  = (do df <- flat_records sq (ImageCollection.media_fallback collection_id include);
     Ok match present_columns include df with
        | [] => df
        | keep => select_columns keep df
        end) /\
  csv_retry
    (ImageCollection.export_annotation_set_csv sq annset_id include_columns).1 /\
  (ImageCollection.export_annotation_set_csv sq annset_id include_columns).2
  = (do df <- read_csv_of sq (ImageCollection.annset_retry annset_id);
     Ok match or_nil include_columns with
        | [] => df
        | wanted =>
            match present_columns wanted df with
            | [] => df
            | cols => select_columns cols df
            end
        end).
Proof.
  intros include Hm Ha.
  rewrite (media_fallback_result sq collection_id include_columns Hm).
  rewrite (annset_retry_result sq annset_id include_columns Ha).
  cbn [fst snd]. repeat split.
  - eexists _, _. split; [reflexivity|]. repeat split.
  - eexists _, _. split; [reflexivity|]. repeat split.
Qed.


End Exporters.

(** C3 as stated fails on the annotation-set export: after the preferred
    request it asks for the server-side table again, not for JSON. *)
Lemma json_fallback_counterexample :
  ~ json_fallback
      (ImageCollection.export_annotation_set_csv Demo.down 17711
         (Some ImageCollection.ANN_FIELDS)).1.
Proof.
  intros (p & f & E & Ht & _). vm_compute in E. injection E as _ <-. discriminate Ht.
Qed.

Lemma fallback_strategy_witness :
  json_fallback
    (ImageCollection.export_media_collection_csv Demo.degraded 14233
       (Some ["id"; "key"])).1 /\
  csv_retry
    (ImageCollection.export_annotation_set_csv Demo.degraded 17711
       (Some ["id"; "point.media.id"])).1.
Proof.
  destruct (fallback_strategy Demo.degraded 14233 17711 (Some ["id"; "key"]))
    as (Hj & _ & _ & _); [reflexivity | reflexivity |].
  destruct (fallback_strategy Demo.degraded 14233 17711 (Some ["id"; "point.media.id"]))
    as (_ & _ & Hc & _); [reflexivity | reflexivity |].
  split; assumption.
Defined.



(** ** The bulk asset downloader *)

Section Download.
Context {F : Type} `{Runtime F}.

Lemma blank_url_empty (cols : list string) (url_col : string) (row : list (cell F)) :
  blank_url cols url_col row -> ImageCollection.url_of_row cols url_col row = "".
Proof.
  unfold blank_url, ImageCollection.url_of_row. intros [-> | [-> | ->]]; reflexivity.
Qed.

(** A row without URL leaves no trace in what is scheduled. *)
Lemma schedule_skip (cols : list string) (url_col id_col : string)
    (rs1 rs2 : list (list (cell F))) (row : list (cell F)) :
  ImageCollection.url_of_row cols url_col row = "" ->
  ImageCollection.schedule cols url_col id_col (rs1 ++ row :: rs2)
  = ImageCollection.schedule cols url_col id_col (rs1 ++ rs2).
Proof.
  intros Hu. induction rs1 as [|r rs1 IH]; simpl.
  - now rewrite Hu.
  - now rewrite IH.
Qed.

(** Rows that all have a URL and an identifier are all scheduled, in order. *)
Lemma schedule_all (cols : list string) (url_col id_col : string)
    (rs : list (list (cell F))) :
  Forall (schedulable cols url_col id_col) rs ->
  exists futs,
    ImageCollection.schedule cols url_col id_col rs = Ok futs /\
    Forall2 (fun row t => ImageCollection.mid_of_row cols id_col row = Ok t.1 /\
                          ImageCollection.url_of_row cols url_col row = t.2) rs futs.
Proof.
  induction 1 as [|row rs [Hu Hm] _ (futs & E & Hall)]; simpl.
  - exists []. split; [reflexivity | constructor].
  - destruct (String.eqb_spec (ImageCollection.url_of_row cols url_col row) "")
      as [Hz|_]; [contradiction|].
    destruct (ImageCollection.mid_of_row cols id_col row) as [mid|e] eqn:Em;
      [|discriminate].
    rewrite E. cbn [bind].
    exists ((mid, ImageCollection.url_of_row cols url_col row) :: futs).
    split; [reflexivity|]. constructor; [split; [assumption | reflexivity] | assumption].
Qed.

Lemma scheduled_mids (cols : list string) (url_col id_col : string)
    (rs : list (list (cell F))) (futs : list (Z * string)) :
  Forall2 (fun row t => ImageCollection.mid_of_row cols id_col row = Ok t.1 /\
                        ImageCollection.url_of_row cols url_col row = t.2) rs futs ->
  map (ImageCollection.mid_of_row cols id_col) rs = map Ok (map fst futs).
Proof.
  induction 1 as [|row t rs futs [Hm _] _ IH]; simpl; [reflexivity|].
  now rewrite Hm, IH.
Qed.

Lemma scheduled_failures (fetch : Z -> string -> option string) (cols : list string)
    (url_col id_col : string) (rs : list (list (cell F))) (futs : list (Z * string)) :
  Forall2 (fun row t => ImageCollection.mid_of_row cols id_col row = Ok t.1 /\
                        ImageCollection.url_of_row cols url_col row = t.2) rs futs ->
  length (List.filter (row_fails fetch cols url_col id_col) rs)
  = length (List.filter (fun t => negb (bool_decide (is_Some (fetch t.1 t.2)))) futs).
Proof.
  induction 1 as [|row t rs futs [Hm Hu] _ IH]; simpl; [reflexivity|].
  unfold row_fails at 1. rewrite Hm, Hu.
  destruct (negb (bool_decide (is_Some (fetch t.1 t.2)))); simpl; now rewrite IH.
Qed.

Lemma NoDup_map_Ok (l : list Z) : NoDup (map (@Ok Z) l) -> NoDup l.
Proof.
  induction l as [|x l IH]; simpl; intros Hn; [constructor|].
  apply NoDup_cons in Hn as [Hx Hn]. apply NoDup_cons. split; [|auto].
  intros Hin. apply Hx. apply list_elem_of_In, in_map. now apply list_elem_of_In.
Qed.

Lemma NoDup_map_Ok_intro (l : list Z) : NoDup l -> NoDup (map (@Ok Z) l).
Proof.
  induction l as [|x l IH]; simpl; intros Hn; [constructor|].
  apply NoDup_cons in Hn as [Hx Hn]. apply NoDup_cons. split; [|auto].
  intros Hin. apply Hx. apply list_elem_of_In in Hin. apply in_map_iff in Hin.
  destruct Hin as (y & [= ->] & Hy). now apply list_elem_of_In.
Qed.

Lemma filter_length_perm {A : Type} (p : A -> bool) (l l' : list A) :
  Permutation l l' -> length (List.filter p l) = length (List.filter p l').
Proof.
  induction 1 as [|x l l' _ IH|x y l|l l' l'' _ IH1 _ IH2]; simpl.
  - reflexivity.
  - destruct (p x); simpl; now rewrite IH.
  - destruct (p x), (p y); reflexivity.
  - now rewrite IH1.
Qed.

Lemma filter_length_split {A : Type} (p : A -> bool) (l : list A) :
  (length (List.filter p l) + length (List.filter (fun x => negb (p x)) l))%nat = length l.
Proof.
  induction l as [|x l IH]; simpl; [reflexivity|].
  destruct (p x); simpl; lia.
Qed.

(** *** The loop over the finished tasks *)

Lemma collect_lookup_other (fetch : Z -> string -> option string)
    (done : list (Z * string)) (acc : gmap Z string) (mid : Z) :
  ~ In mid (map fst done) ->
  ImageCollection.collect fetch done acc !! mid = acc !! mid.
Proof.
  revert acc. induction done as [|[m u] done IH]; intros acc Hnot; simpl; [reflexivity|].
  simpl in Hnot. rewrite IH by tauto.
  destruct (fetch m u); [|reflexivity].
  apply lookup_insert_ne. tauto.
Qed.

Lemma collect_lookup_in (fetch : Z -> string -> option string)
    (done : list (Z * string)) (acc : gmap Z string) (mid : Z) (url : string) :
  NoDup (map fst done) ->
  (forall m, In m (map fst done) -> acc !! m = None) ->
  In (mid, url) done ->
  ImageCollection.collect fetch done acc !! mid = fetch mid url.
Proof.
  revert acc. induction done as [|[m u] done IH]; intros acc Hnd Hacc Hin; simpl in *;
    [contradiction|].
  apply NoDup_cons in Hnd as [Hm Hnd].
  assert (~ In m (map fst done)) as Hm' by (intros Hx; apply Hm; now apply list_elem_of_In).
  destruct Hin as [[= -> ->]|Hin].
  - rewrite collect_lookup_other by assumption.
    destruct (fetch mid url); [apply lookup_insert_eq | apply Hacc; auto].
  - apply IH; [assumption | | assumption].
    intros m' Hm''. destruct (fetch m u); [|auto].
    rewrite lookup_insert_ne; [auto|]. intros ->. contradiction.
Qed.

Lemma collect_size (fetch : Z -> string -> option string)
    (done : list (Z * string)) (acc : gmap Z string) :
  NoDup (map fst done) ->
  (forall m, In m (map fst done) -> acc !! m = None) ->
  size (ImageCollection.collect fetch done acc)
  = (size acc + length (List.filter (fun t => bool_decide (is_Some (fetch t.1 t.2))) done))%nat.
Proof.
  revert acc. induction done as [|[m u] done IH]; intros acc Hnd Hacc; simpl in *; [lia|].
  apply NoDup_cons in Hnd as [Hm Hnd].
  assert (~ In m (map fst done)) as Hm' by (intros Hx; apply Hm; now apply list_elem_of_In).
  destruct (fetch m u) as [p|] eqn:Ef; simpl.
  - rewrite IH; [|assumption|].
    + rewrite map_size_insert_None by auto. lia.
    + intros m' Hm''. rewrite lookup_insert_ne; [auto|]. intros ->. contradiction.
  - apply IH; auto.
Qed.

(** Per-item isolation.  Take a media table in which every row has a URL
    (a text that is not empty) and an identifier that [int] accepts, the
    identifiers being pairwise distinct, and let exactly one download fail.
    Then, in whatever order the pool finishes the tasks, the call raises
    nothing: every row is submitted, one warning is printed, and the
    returned mapping has one entry less than the table has rows, the entry
    of a row being the path its download returned and the failed identifier
    being absent.  Besides, in any media table, a row whose URL cell is an
    empty string or [None], or whose URL column is missing, is passed over
    before anything is submitted: the call behaves as on the table without
    that row. *)
Lemma download_isolation (fetch : Z -> string -> option string)
    (as_completed : list (Z * string) -> list (Z * string))
    (media_df : table F) (url_col id_col : string) :
  let cols := columns media_df in
  ((forall l, Permutation (as_completed l) l) ->
   Forall (schedulable cols url_col id_col) (rows media_df) ->
   NoDup (map (ImageCollection.mid_of_row cols id_col) (rows media_df)) ->
   length (List.filter (row_fails fetch cols url_col id_col) (rows media_df)) = 1%nat ->
   exists rep,
     ImageCollection.download_images_from_export fetch as_completed media_df url_col id_col
     = Ok rep /\
     size (ImageCollection.saved rep) = (length (rows media_df) - 1)%nat /\
     length (ImageCollection.submitted rep) = length (rows media_df) /\
     length (ImageCollection.warned rep) = 1%nat /\
     forall row mid,
       In row (rows media_df) ->
       ImageCollection.mid_of_row cols id_col row = Ok mid ->
       ImageCollection.saved rep !! mid
       = fetch mid (ImageCollection.url_of_row cols url_col row)) /\
  (forall rs1 row rs2,
     rows media_df = rs1 ++ row :: rs2 ->
     blank_url cols url_col row ->
     ImageCollection.download_images_from_export fetch as_completed media_df url_col id_col
     = ImageCollection.download_images_from_export fetch as_completed
         (DataFrame cols (rs1 ++ rs2)) url_col id_col).
Proof.
  intros cols. split.
  - intros Hperm Hall Hnd Hone.
    destruct (schedule_all cols url_col id_col (rows media_df) Hall) as (futs & Es & Hf2).
    unfold ImageCollection.download_images_from_export. fold cols. rewrite Es. cbn [bind].
    eexists. split; [reflexivity|]. cbn [ImageCollection.saved ImageCollection.submitted
                                          ImageCollection.warned].
    assert (length futs = length (rows media_df)) as Hlen
      by (symmetry; eapply Forall2_length; eassumption).
    assert (NoDup (map fst futs)) as Hnf.
    { rewrite (scheduled_mids _ _ _ _ _ Hf2) in Hnd.
      now apply NoDup_map_Ok. }
    rewrite (scheduled_failures fetch _ _ _ _ _ Hf2) in Hone.
    assert (NoDup (map fst (as_completed futs))) as Hnc.
    { assert (Permutation (map fst (as_completed futs)) (map fst futs)) as Hp
        by apply Permutation_map, Hperm.
      now rewrite Hp. }
    split; [|split; [|split]].
    + rewrite collect_size; [|assumption|intros; apply lookup_empty].
      rewrite map_size_empty.
      rewrite (filter_length_perm _ _ _ (Hperm futs)).
      pose proof (filter_length_split
                    (fun t : Z * string => bool_decide (is_Some (fetch t.1 t.2))) futs).
      lia.
    + assumption.
    + now rewrite length_map.
    + intros row mid Hin Hm.
      assert (In (mid, ImageCollection.url_of_row cols url_col row) futs) as Hfut.
      { clear -Hf2 Hin Hm. induction Hf2 as [|r t rs futs [Hr Hu] _ IH]; [contradiction|].
        destruct Hin as [->|Hin]; [|right; auto].
        left. destruct t as [m u]. simpl in *. congruence. }
      apply collect_lookup_in; [assumption | intros; apply lookup_empty |].
      eapply Permutation_in; [symmetry; apply Hperm | assumption].
  - intros rs1 row rs2 Hrows Hb.
    unfold ImageCollection.download_images_from_export. fold cols. simpl.
    rewrite Hrows, schedule_skip by (now apply blank_url_empty). reflexivity.
Qed.

End Download.

(** When the second of three downloads fails, two entries are returned. *)
Lemma download_isolation_example :
  exists rep,
    ImageCollection.download_images_from_export Demo.fetch Demo.finish_in_order
      Demo.media_csv "path_best" "id" = Ok rep /\
    size (ImageCollection.saved rep) = 2%nat /\
    length (ImageCollection.submitted rep) = 3%nat /\
    length (ImageCollection.warned rep) = 1%nat /\
    forall row mid,
      In row (rows Demo.media_csv) ->
      ImageCollection.mid_of_row ["id"; "path_best"] "id" row = Ok mid ->
      ImageCollection.saved rep !! mid
      = Demo.fetch mid (ImageCollection.url_of_row ["id"; "path_best"] "path_best" row).
Proof.
  apply (proj1 (download_isolation Demo.fetch Demo.finish_in_order Demo.media_csv
                  "path_best" "id")).
  - intros l. reflexivity.
  - repeat constructor; discriminate.
  - change (NoDup (map (@Ok Z) [1; 2; 3])). apply NoDup_map_Ok_intro.
    apply (bool_decide_unpack (NoDup [1; 2; 3])). vm_compute. exact I.
  - reflexivity.
Defined.

(** C6. A media table read from a tabular export in which the URL of the
    media 2 was left empty: the cell is [NaN], which [str(... or "")] turns
    into the text [nan].  The row is not passed over: its download is
    submitted with the URL [nan], it fails, and a warning is printed for the
    media 2, as for a URL that cannot be reached. *)
Theorem download_nan_url_is_submitted :
  ImageCollection.download_images_from_export Demo.fetch Demo.finish_in_order
    Cases.url_left_empty "path_best" "id"
  = Ok (ImageCollection.Report {[ 1 := "out_bundle/images/1_a.jpg" ]}
          [(1, "a.jpg"); (2, "nan")] [2]).
Proof. vm_compute. reflexivity. Qed.

(** * Further properties *)

(** ** The join-key detector *)

Lemma append_assoc (a b c : string) : (a +:+ b) +:+ c = a +:+ (b +:+ c).
Proof.
  induction a as [|x a IH]; [reflexivity|].
  rewrite !append_cons. f_equal. exact IH.
Qed.

Lemma contains_append_l (sub p s : string) :
  PyStr.contains sub s = true -> PyStr.contains sub (p +:+ s) = true.
Proof.
  rewrite !contains_spec. intros (a & b & ->).
  exists (p +:+ a), b. now rewrite append_assoc.
Qed.

(** A name that ends with one of the four suffixes mentions [media] and [id]. *)
Lemma suffix_implies_mention (c : string) :
  has_media_suffix c = true -> mentions_media_id c = true.
Proof.
  unfold has_media_suffix, mentions_media_id. rewrite existsb_exists.
  intros (suf & Hin & Hs). apply endswith_spec in Hs as [p Hp]. rewrite Hp.
  apply andb_true_iff.
  simpl in Hin.
  destruct Hin as [<-|[<-|[<-|[<-|[]]]]];
    split; apply contains_append_l; reflexivity.
Qed.

Lemma first_mention_in (cols : list string) (c : string) :
  first_mention cols = Some c -> In c cols /\ mentions_media_id c = true.
Proof.
  intros E. apply first_mention_some in E as (pre & post & -> & Hc & _).
  split; [apply in_or_app; right; left; reflexivity | assumption].
Qed.

Lemma first_mention_exists (cols : list string) (c : string) :
  In c cols -> mentions_media_id c = true -> exists c', first_mention cols = Some c'.
Proof.
  induction cols as [|x cols IH]; simpl; [tauto|].
  intros [->|Hin] Hc.
  - rewrite Hc. eauto.
  - destruct (mentions_media_id x); eauto.
Qed.

(** What the shared body of the two detectors returns is a label of the list
    that mentions [media] and [id]. *)
Lemma detected_is_mention (msg : string) (cols : list string) (c : string) :
  match List.filter has_media_suffix cols with
  | c :: _ => Ok c
  | [] => match first_mention cols with
          | Some c => Ok c
          | None => Raise (ValueError msg (take 20 cols))
          end
  end = Ok c ->
  In c cols /\ mentions_media_id c = true.
Proof.
  destruct (List.filter has_media_suffix cols) as [|x rest] eqn:Ef.
  - destruct (first_mention cols) as [y|] eqn:Em; [|discriminate].
    intros [= <-]. now apply first_mention_in.
  - intros [= <-].
    assert (In x (List.filter has_media_suffix cols)) as Hx by (rewrite Ef; now left).
    apply List.filter_In in Hx as [Hin Hs]. split; [assumption|].
    now apply suffix_implies_mention.
Qed.

Lemma detects_when_mentioned (msg : string) (cols : list string) (c : string) :
  In c cols -> mentions_media_id c = true ->
  exists c',
    match List.filter has_media_suffix cols with
    | c :: _ => Ok c
    | [] => match first_mention cols with
            | Some c => Ok c
            | None => Raise (ValueError msg (take 20 cols))
            end
    end = Ok c'.
Proof.
  intros Hin Hc. destruct (List.filter has_media_suffix cols) as [|x rest]; [|eauto].
  destruct (first_mention_exists cols c Hin Hc) as (c' & ->). eauto.
Qed.

(** X1. For both copies of the detector: the label returned is one of the
    labels given, so the lookup of the detected column cannot miss; and the
    detector returns a label exactly when some label, lower-cased, contains
    both [media] and [id] -- the four suffixes only decide which label is
    preferred, they never make a table acceptable that the loose rule
    rejects. *)
Theorem detect_succeeds_iff_mentioned (cols : list string) :
  (forall c, ImageCollection.detect_ann_media_col cols = Ok c ->
             In c cols /\ loose_match c) /\
  (forall c, SingleImage.detect_ann_media_col cols = Ok c ->
             In c cols /\ loose_match c) /\
  (succeeded (ImageCollection.detect_ann_media_col cols) = true <->
   exists c, In c cols /\ loose_match c) /\
  (succeeded (SingleImage.detect_ann_media_col cols) = true <->
   exists c, In c cols /\ loose_match c).
Proof.
  assert (forall msg c,
            match List.filter has_media_suffix cols with
            | c :: _ => Ok c
            | [] => match first_mention cols with
                    | Some c => Ok c
                    | None => Raise (ValueError msg (take 20 cols))
                    end
            end = Ok c -> In c cols /\ loose_match c) as Hsound.
  { intros msg c E. apply detected_is_mention in E as [Hin Hm].
    split; [assumption | now apply mentions_media_id_spec]. }
  assert (forall msg,
            succeeded
              match List.filter has_media_suffix cols with
              | c :: _ => Ok c
              | [] => match first_mention cols with
                      | Some c => Ok c
                      | None => Raise (ValueError msg (take 20 cols))
                      end
              end = true <-> exists c, In c cols /\ loose_match c) as Hiff.
  { intros msg. split.
    - destruct (match List.filter has_media_suffix cols with
                | c :: _ => Ok c
                | [] => _
                end) as [c|e] eqn:E; [|discriminate].
      intros _. exists c. eapply Hsound. exact E.
    - intros (c & Hin & Hm). apply mentions_media_id_spec in Hm.
      destruct (detects_when_mentioned msg cols c Hin Hm) as (c' & ->). reflexivity. }
  split; [apply Hsound|]. split; [apply Hsound|]. split; apply Hiff.
Qed.

Lemma lower_ascii_idempotent (c : ascii) :
  PyStr.lower_ascii (PyStr.lower_ascii c) = PyStr.lower_ascii c.
Proof. destruct c as [[] [] [] [] [] [] [] []]; reflexivity. Qed.

Lemma lower_idempotent (s : string) : PyStr.lower (PyStr.lower s) = PyStr.lower s.
Proof.
  induction s as [|c s IH]; simpl; [reflexivity|].
  now rewrite lower_ascii_idempotent, IH.
Qed.

Lemma filter_map_commute {A : Type} (p : A -> bool) (f : A -> A) (l : list A) :
  (forall x, p (f x) = p x) ->
  List.filter p (map f l) = map f (List.filter p l).
Proof.
  intros Hp. induction l as [|x l IH]; simpl; [reflexivity|].
  rewrite Hp. destruct (p x); simpl; now rewrite IH.
Qed.

Lemma first_mention_map (f : string -> string) (cols : list string) :
  (forall x, mentions_media_id (f x) = mentions_media_id x) ->
  first_mention (map f cols) = option_map f (first_mention cols).
Proof.
  intros Hp. induction cols as [|x cols IH]; simpl; [reflexivity|].
  rewrite Hp. destruct (mentions_media_id x); [reflexivity | exact IH].
Qed.

(** X2. Detection looks at the lower-cased names only: when the labels are
    renamed in a way that leaves their lower-casing as it was (a change of
    case), the detector picks the label at the same place -- the renamed
    version of the one it picked before. *)
Theorem detect_ignores_case (rename : string -> string) (cols : list string) (c : string) :
  (forall x, PyStr.lower (rename x) = PyStr.lower x) ->
  ImageCollection.detect_ann_media_col cols = Ok c ->
  ImageCollection.detect_ann_media_col (map rename cols) = Ok (rename c) /\
  SingleImage.detect_ann_media_col (map rename cols) = Ok (rename c).
Proof.
  intros Hr E.
  assert (forall x, has_media_suffix (rename x) = has_media_suffix x) as Hs
    by (intros x; unfold has_media_suffix; now rewrite Hr).
  assert (forall x, mentions_media_id (rename x) = mentions_media_id x) as Hm
    by (intros x; unfold mentions_media_id; now rewrite Hr).
  unfold ImageCollection.detect_ann_media_col, SingleImage.detect_ann_media_col in *.
  rewrite (filter_map_commute _ _ _ Hs), (first_mention_map _ _ Hm).
  destruct (List.filter has_media_suffix cols) as [|x rest]; simpl.
  - destruct (first_mention cols) as [y|]; simpl; [|discriminate].
    injection E as <-. auto.
  - injection E as <-. auto.
Qed.

Lemma detect_ignores_case_witness :
  ImageCollection.detect_ann_media_col
    (map PyStr.lower ["ID"; "Other_Media_Id_Ref"; "Point.Media.ID"])
  = Ok (PyStr.lower "Point.Media.ID") /\
  SingleImage.detect_ann_media_col
    (map PyStr.lower ["ID"; "Other_Media_Id_Ref"; "Point.Media.ID"])
  = Ok (PyStr.lower "Point.Media.ID").
Proof.
  apply (detect_ignores_case PyStr.lower ["ID"; "Other_Media_Id_Ref"; "Point.Media.ID"]).
  - intros x. apply lower_idempotent.
  - reflexivity.
Defined.

(** ** The dotted-path projector *)

Lemma split_dot_append (p q : string) :
  PyStr.split_dot (p +:+ "." +:+ q) = PyStr.split_dot p ++ PyStr.split_dot q.
Proof.
  induction p as [|c p IH].
  - reflexivity.
  - rewrite append_cons. cbn [PyStr.split_dot]. rewrite IH.
    destruct (Ascii.eqb c "."); [reflexivity|].
    destruct (split_dot_cons p) as (h & t & ->). reflexivity.
Qed.

Section MoreDotted.
Context {F : Type} `{Runtime F}.

Lemma descend_app (d v : json F) (l1 l2 : list string) (default : json F) :
  resolves d l1 v ->
  SingleImage.descend d (l1 ++ l2) default = SingleImage.descend v l2 default.
Proof.
  induction 1 as [v|fields part rest v w Hl Hv IH]; simpl; [reflexivity|].
  now rewrite Hl.
Qed.

Lemma descend_app_missing (d : json F) (l1 l2 : list string) (default : json F) :
  (forall v, ~ resolves d l1 v) ->
  SingleImage.descend d (l1 ++ l2) default = default.
Proof.
  intros Hno. apply descend_missing. intros w Hw. revert d Hno Hw.
  induction l1 as [|part rest IH]; intros d Hno Hw.
  - apply (Hno d). constructor.
  - simpl in Hw. inversion Hw as [|fields ? ? v ? Hl Hv]; subst.
    apply (IH v); [|assumption].
    intros u Hu. apply (Hno u). econstructor; eassumption.
Qed.

(** X3. Reading a path made of two paths joined by a dot is reading the
    second path in what the first path reaches: when [p] leads from [d] to
    [v], [get_by_dotted d "p.q"] is [get_by_dotted v "q"], with the same
    default. *)
Theorem get_by_dotted_compose (d v : json F) (p q : string) (default : json F) :
  resolves d (PyStr.split_dot p) v ->
  SingleImage.get_by_dotted d (p +:+ "." +:+ q) default
  = SingleImage.get_by_dotted v q default.
Proof.
  intros Hv. unfold SingleImage.get_by_dotted.
  rewrite split_dot_append. now apply descend_app.
Qed.

(** X4. When the first of two joined paths leads nowhere in [d], the joined
    path gives the default, whatever the second path is. *)
Theorem get_by_dotted_prefix_missing (d : json F) (p q : string) (default : json F) :
  (forall v, ~ resolves d (PyStr.split_dot p) v) ->
  SingleImage.get_by_dotted d (p +:+ "." +:+ q) default = default.
Proof.
  intros Hno. unfold SingleImage.get_by_dotted.
  rewrite split_dot_append. now apply descend_app_missing.
Qed.

Lemma descend_singleton_path (parts : list string) (v default : json F) :
  SingleImage.descend (singleton_path parts v) parts default = v.
Proof.
  induction parts as [|part rest IH]; simpl; [reflexivity|].
  now rewrite lookup_singleton_eq.
Qed.

(** X5. Round trip: in the record that nests [v] under the components of a
    dotted path, and holds nothing else, the path reads [v] back, whatever
    the default. *)
Theorem get_by_dotted_reads_back (dotted : string) (v default : json F) :
  SingleImage.get_by_dotted (singleton_path (PyStr.split_dot dotted) v) dotted default = v.
Proof. unfold SingleImage.get_by_dotted. apply descend_singleton_path. Qed.

Lemma contains_dot_not_part (dotted key : string) :
  PyStr.contains "." key = true ->
  forall h t, PyStr.split_dot dotted = h :: t -> h <> key.
Proof.
  intros Hk h t E ->.
  pose proof (split_dot_parts_dot_free dotted) as Hfree. rewrite E in Hfree.
  inversion Hfree; subst. congruence.
Qed.

(** X6. A key that itself contains a dot is never read: adding, replacing or
    removing the top-level entry [point.media.id] of a record changes the
    result of no path.  A record flattened to dotted keys is therefore read
    as if its dotted entries were absent. *)
Theorem get_by_dotted_skips_dotted_keys (fields : gmap string (json F))
    (key : string) (v : json F) (dotted : string) (default : json F) :
  PyStr.contains "." key = true ->
  SingleImage.get_by_dotted (JObj (<[key := v]> fields)) dotted default
  = SingleImage.get_by_dotted (JObj fields) dotted default /\
  SingleImage.get_by_dotted (JObj (delete key fields)) dotted default
  = SingleImage.get_by_dotted (JObj fields) dotted default.
Proof.
  intros Hk. unfold SingleImage.get_by_dotted.
  destruct (split_dot_cons dotted) as (h & t & E). rewrite E. simpl.
  assert (h <> key) as Hne by (eapply contains_dot_not_part; eassumption).
  rewrite lookup_insert_ne, lookup_delete_ne by congruence. auto.
Qed.

End MoreDotted.

Lemma get_by_dotted_compose_witness :
  SingleImage.get_by_dotted Demo.annotation_100 ("point" +:+ "." +:+ "media.id") (JStr "")
  = SingleImage.get_by_dotted
      (Demo.record [("x", JInt 3); ("y", JInt 4); ("media", Demo.record [("id", JInt 7)])])
      "media.id" (JStr "").
Proof.
  apply (get_by_dotted_compose Demo.annotation_100).
  econstructor; [reflexivity | constructor].
Defined.

Lemma get_by_dotted_prefix_missing_witness :
  SingleImage.get_by_dotted Demo.annotation_100 ("user" +:+ "." +:+ "username") (JStr "")
  = JStr "".
Proof.
  apply (get_by_dotted_prefix_missing Demo.annotation_100).
  intros v Hv. inversion Hv as [|fields part rest u w Hl Hu]; subst.
  vm_compute in Hl. discriminate Hl.
Defined.

Lemma get_by_dotted_skips_dotted_keys_witness :
  SingleImage.get_by_dotted
    (JObj (<["point.media.id" := JInt 9]> (list_to_map [("id", JInt 1)])) : Demo.J)
    "point.media.id" (JStr "")
  = SingleImage.get_by_dotted (JObj (list_to_map [("id", JInt 1)]) : Demo.J)
      "point.media.id" (JStr "").
Proof.
  apply (get_by_dotted_skips_dotted_keys (list_to_map [("id", JInt 1)])
           "point.media.id" (JInt 9) "point.media.id" (JStr "")).
  reflexivity.
Defined.

(** ** The referential filter *)

Section MoreFilter.
Context {F : Type} `{Runtime F}.

Lemma filter_filter_and {A : Type} (p q : A -> bool) (l : list A) :
  List.filter q (List.filter p l) = List.filter (fun x => (p x && q x)%bool) l.
Proof.
  induction l as [|x l IH]; simpl; [reflexivity|].
  destruct (p x); simpl; [destruct (q x); simpl|]; now rewrite IH.
Qed.

Lemma Forall_filter_keep {A : Type} (P : A -> Prop) (p : A -> bool) (l : list A) :
  Forall P l -> Forall P (List.filter p l).
Proof.
  induction 1 as [|x l Hx _ IH]; simpl; [constructor|].
  destruct (p x); [constructor|]; assumption.
Qed.

Lemma empty_filtered (ann_df : table F) (p : list (cell F) -> bool) :
  empty ann_df = false ->
  empty (DataFrame (columns ann_df) (List.filter p (rows ann_df))) = true ->
  List.filter p (rows ann_df) = [].
Proof.
  unfold empty. simpl. destruct (columns ann_df); [destruct (rows ann_df); discriminate|].
  destruct (List.filter p (rows ann_df)); [reflexivity | discriminate].
Qed.

Lemma Forall_column_filter (P : cell F -> Prop) (df : table F) (col : string)
    (p : list (cell F) -> bool) :
  Forall P (column df col) ->
  Forall P (column (DataFrame (columns df) (List.filter p (rows df))) col).
Proof.
  unfold column. cbn [rows columns]. rewrite !Forall_map.
  apply Forall_filter_keep.
Qed.

Lemma forallb_filter_keep {A : Type} (p q : A -> bool) (l : list A) :
  forallb p l = true -> forallb p (List.filter q l) = true.
Proof.
  rewrite !forallb_forall. intros Hp x Hx. apply List.filter_In in Hx as [Hx _]. auto.
Qed.

(** Filtering what the filter returned, by a second list of identifiers. *)
Lemma post_filter_again (ann_df : table F) (ids1 ids2 : list Z) (col : string) :
  empty ann_df = false ->
  ImageCollection.detect_ann_media_col (columns ann_df) = Ok col ->
  Forall exact (column ann_df col) ->
  Forall castable (column ann_df col) ->
  forallb in_int64 ids2 = true ->
  ImageCollection.post_filter_ann_to_media_ids
    (DataFrame (columns ann_df)
       (List.filter (member_row (columns ann_df) col ids1) (rows ann_df))) ids2
  = Ok (DataFrame (columns ann_df)
          (List.filter (fun r => (member_row (columns ann_df) col ids1 r &&
                                  member_row (columns ann_df) col ids2 r)%bool)
             (rows ann_df))).
Proof.
  intros Hne Hd Hex Hca Hi. rewrite <- filter_filter_and.
  set (t1 := DataFrame (columns ann_df)
               (List.filter (member_row (columns ann_df) col ids1) (rows ann_df))).
  destruct (empty t1) eqn:He.
  - unfold ImageCollection.post_filter_ann_to_media_ids. rewrite He.
    pose proof (empty_filtered ann_df _ Hne He) as Hnil.
    subst t1. rewrite Hnil. reflexivity.
  - apply (post_filter_computes t1 ids2 col He Hd); [| |assumption].
    + now apply Forall_column_filter.
    + now apply Forall_column_filter.
Qed.

Lemma existsb_filter_inter (z : Z) (ids1 ids2 : list Z) :
  existsb (Z.eqb z) (List.filter (fun y => existsb (Z.eqb y) ids2) ids1)
  = (existsb (Z.eqb z) ids1 && existsb (Z.eqb z) ids2)%bool.
Proof.
  induction ids1 as [|y ids1 IH]; simpl; [reflexivity|].
  destruct (Z.eqb_spec z y) as [->|Hne]; simpl.
  - destruct (existsb (Z.eqb y) ids2) eqn:E; simpl.
    + now rewrite Z.eqb_refl.
    + rewrite IH. destruct (existsb (Z.eqb y) ids1); reflexivity.
  - destruct (existsb (Z.eqb y) ids2); simpl; [|exact IH].
    destruct (Z.eqb_spec z y); [contradiction | exact IH].
Qed.

Lemma member_row_inter (cols : list string) (col : string) (ids1 ids2 : list Z)
    (r : list (cell F)) :
  member_row cols col (List.filter (fun y => existsb (Z.eqb y) ids2) ids1) r
  = (member_row cols col ids1 r && member_row cols col ids2 r)%bool.
Proof.
  unfold member_row, ImageCollection.isin.
  destruct (key_of (cell_at cols col r)) as [z|]; [|reflexivity].
  apply existsb_filter_inter.
Qed.

(** X7. Filtering twice is filtering once by the identifiers the two lists
    have in common.  Take a table whose keys are integers that floats
    represent (every integer up to 2^53 in magnitude is one), and a second
    list of identifiers of int64: when the filter returns [out1] for the
    first list, applying it to [out1] with the second list gives what it
    gives on the input for the identifiers of the first list that are in
    the second -- the same table, or the same exception. *)
Theorem post_filter_twice (ann_df out1 : table F) (ids1 ids2 : list Z) :
  exact_keys ann_df ->
  forallb in_int64 ids2 = true ->
  ImageCollection.post_filter_ann_to_media_ids ann_df ids1 = Ok out1 ->
  ImageCollection.post_filter_ann_to_media_ids out1 ids2
  = ImageCollection.post_filter_ann_to_media_ids ann_df
      (List.filter (fun y => existsb (Z.eqb y) ids2) ids1).
Proof.
  intros Hex Hi2 E. destruct (empty ann_df) eqn:Hne.
  - unfold ImageCollection.post_filter_ann_to_media_ids in *. rewrite Hne in *.
    injection E as <-. now rewrite Hne.
  - destruct (post_filter_exact _ _ _ Hex Hne E) as (col & Hd & Hca & Hi1 & ->).
    rewrite (post_filter_again ann_df ids1 ids2 col Hne Hd (Hex col Hd) Hca Hi2).
    rewrite (post_filter_computes ann_df _ col Hne Hd (Hex col Hd) Hca
               (forallb_filter_keep _ _ _ Hi1)).
    do 2 f_equal. apply List.filter_ext. intros r. symmetry. apply member_row_inter.
Qed.

(** X8. The filter is idempotent on a table whose keys are integers that
    floats represent: a table it returned is returned as it is when
    filtered again by the same identifiers. *)
Theorem post_filter_idempotent (ann_df out : table F) (ids : list Z) :
  exact_keys ann_df ->
  ImageCollection.post_filter_ann_to_media_ids ann_df ids = Ok out ->
  ImageCollection.post_filter_ann_to_media_ids out ids = Ok out.
Proof.
  intros Hex E. destruct (empty ann_df) eqn:Hne.
  - unfold ImageCollection.post_filter_ann_to_media_ids in *. rewrite Hne in *.
    injection E as <-. now rewrite Hne.
  - destruct (post_filter_exact _ _ _ Hex Hne E) as (col & Hd & Hca & Hi & ->).
    rewrite (post_filter_again ann_df ids ids col Hne Hd (Hex col Hd) Hca Hi).
    do 2 f_equal. apply List.filter_ext. intros r. apply andb_diag.
Qed.

Lemma isin_same_elements (ids1 ids2 : list Z) (m : option Z) :
  (forall z, In z ids1 <-> In z ids2) ->
  ImageCollection.isin ids1 m = ImageCollection.isin ids2 m.
Proof.
  intros Hs. destruct m as [z|]; [|reflexivity]. simpl.
  destruct (existsb (Z.eqb z) ids1) eqn:E1, (existsb (Z.eqb z) ids2) eqn:E2;
    try reflexivity.
  - apply existsb_eqb_In, Hs, existsb_eqb_In in E1. congruence.
  - apply existsb_eqb_In, Hs, existsb_eqb_In in E2. congruence.
Qed.

Lemma forallb_same_elements {A : Type} (p : A -> bool) (l1 l2 : list A) :
  (forall x, In x l1 <-> In x l2) -> forallb p l1 = forallb p l2.
Proof.
  intros Hs. destruct (forallb p l1) eqn:E1, (forallb p l2) eqn:E2; try reflexivity.
  - rewrite forallb_forall in E1.
    assert (forallb p l2 = true) by (apply forallb_forall; intros x Hx; apply E1, Hs, Hx).
    congruence.
  - rewrite forallb_forall in E2.
    assert (forallb p l1 = true) by (apply forallb_forall; intros x Hx; apply E2, Hs, Hx).
    congruence.
Qed.

(** X9. Only the set of media identifiers matters: two lists with the same
    elements, in any order and with any repetitions, give the same result
    on every table. *)
Theorem post_filter_ids_as_set (ann_df : table F) (ids1 ids2 : list Z) :
  (forall z, In z ids1 <-> In z ids2) ->
  ImageCollection.post_filter_ann_to_media_ids ann_df ids1
  = ImageCollection.post_filter_ann_to_media_ids ann_df ids2.
Proof.
  intros Hs. unfold ImageCollection.post_filter_ann_to_media_ids.
  destruct (empty ann_df); [reflexivity|].
  destruct (ImageCollection.detect_ann_media_col (columns ann_df)) as [col|e];
    [|reflexivity].
  cbn [bind]. destruct (coerce_column (column ann_df col)) as [mids|e]; [|reflexivity].
  cbn [bind]. unfold ImageCollection.int64_index.
  rewrite (forallb_same_elements in_int64 ids1 ids2 Hs).
  destruct (forallb in_int64 ids2); [|reflexivity].
  cbn [bind]. do 3 f_equal. apply map_ext. intros m. now apply isin_same_elements.
Qed.

(** X10. The schema-detection fault is fatal in the collection script: on a
    table that is not empty and in which no label, lower-cased, contains
    both [media] and [id], the filter raises the [ValueError] of the
    detector, which carries the first 20 labels, whatever the identifiers. *)
Theorem post_filter_schema_fault (ann_df : table F) (ids : list Z) :
  empty ann_df = false ->
  Forall (fun c => ~ loose_match c) (columns ann_df) ->
  ImageCollection.post_filter_ann_to_media_ids ann_df ids
  = Raise (ValueError ImageCollection.detect_msg (take 20 (columns ann_df))).
Proof.
  intros Hne Hno. unfold ImageCollection.post_filter_ann_to_media_ids. rewrite Hne.
  assert (forall c, In c (columns ann_df) -> mentions_media_id c = true -> False) as Hc.
  { intros c Hin Hm. rewrite List.Forall_forall in Hno.
    apply (Hno c Hin). now apply mentions_media_id_spec. }
  unfold ImageCollection.detect_ann_media_col.
  destruct (List.filter has_media_suffix (columns ann_df)) as [|x rest] eqn:Ef.
  - destruct (first_mention (columns ann_df)) as [y|] eqn:Em; [|reflexivity].
    apply first_mention_in in Em as [Hin Hm]. destruct (Hc y Hin Hm).
  - assert (In x (List.filter has_media_suffix (columns ann_df))) as Hx
      by (rewrite Ef; now left).
    apply List.filter_In in Hx as [Hin Hs].
    destruct (Hc x Hin (suffix_implies_mention x Hs)).
Qed.

Lemma cast_float_raises (n : numeric) (e : exn) :
  cast_float n = Raise e -> e = TypeError.
Proof.
  destruct n as [z fl|[z|]|]; simpl; try destruct (in_int64 _); congruence.
Qed.

Lemma cast_floats_fault (ns : list numeric) :
  In (NFloat None) ns -> cast_floats ns = Raise TypeError.
Proof.
  induction ns as [|n ns IH]; simpl; [tauto|].
  intros [->|Hin]; [reflexivity|].
  destruct (cast_float n) as [m|e] eqn:En; cbn [bind].
  - now rewrite (IH Hin).
  - now rewrite (cast_float_raises _ _ En).
Qed.

Lemma forallb_false_intro {A : Type} (p : A -> bool) (l : list A) (x : A) :
  In x l -> p x = false -> forallb p l = false.
Proof.
  intros Hin Hx. destruct (forallb p l) eqn:E; [|reflexivity].
  rewrite forallb_forall in E. rewrite (E x Hin) in Hx. discriminate Hx.
Qed.

(** X11. A number that is no integer is not dropped for it: when the
    join-key column of a table that is not empty holds, in one row, a float
    with a fractional part or a string that reads as one (such as [1.5]),
    the column becomes a column of floats, the cast to [Int64] raises
    [TypeError] and so does the filter, whatever the identifiers and
    whatever the other rows hold. *)
Theorem post_filter_cast_fault (ann_df : table F) (ids : list Z) (col : string)
    (row : list (cell F)) :
  empty ann_df = false ->
  ImageCollection.detect_ann_media_col (columns ann_df) = Ok col ->
  In row (rows ann_df) ->
  numeric_of (cell_at (columns ann_df) col row) = NFloat None ->
  ImageCollection.post_filter_ann_to_media_ids ann_df ids = Raise TypeError.
Proof.
  intros Hne Hd Hin Hr.
  unfold ImageCollection.post_filter_ann_to_media_ids. rewrite Hne, Hd. cbn [bind].
  assert (In (NFloat None) (map numeric_of (column ann_df col))) as Hn.
  { rewrite <- Hr. apply in_map. unfold column. now apply in_map. }
  unfold coerce_column.
  destruct (to_numeric_dtype_cases (map numeric_of (column ann_df col)))
    as [[_ Ei]|[(_ & _ & Eu)|(-> & _ & _)]].
  - rewrite (forallb_false_intro _ _ _ Hn eq_refl) in Ei. discriminate Ei.
  - rewrite (forallb_false_intro _ _ _ Hn eq_refl) in Eu. discriminate Eu.
  - now rewrite (cast_floats_fault _ Hn).
Qed.

Lemma detect_same_label (cols : list string) (c : string) :
  SingleImage.detect_ann_media_col cols = Ok c <->
  ImageCollection.detect_ann_media_col cols = Ok c.
Proof.
  unfold SingleImage.detect_ann_media_col, ImageCollection.detect_ann_media_col.
  destruct (List.filter has_media_suffix cols); [|reflexivity].
  destruct (first_mention cols); [reflexivity|]. split; discriminate.
Qed.

Lemma mask_singleton (media_id : Z) (m : option Z) :
  bool_decide (m = Some media_id) = ImageCollection.isin [media_id] m.
Proof.
  destruct m as [z|]; [|reflexivity].
  unfold ImageCollection.isin. cbn [existsb]. rewrite orb_false_r.
  destruct (Z.eqb_spec z media_id) as [->|Hne].
  - now apply bool_decide_eq_true_2.
  - apply bool_decide_eq_false_2. congruence.
Qed.

(** X12. The two scripts filter alike: for a media identifier of int64,
    the local filter of the single-image export returns a table for the
    media [m] exactly when the referential filter of the collection script
    returns it for the one-element list [[m]]. *)
Theorem hard_filter_is_post_filter (df out : table F) (media_id : Z) :
  in_int64 media_id = true ->
  SingleImage.hard_filter df media_id = Ok out <->
  ImageCollection.post_filter_ann_to_media_ids df [media_id] = Ok out.
Proof.
  intros Hm.
  unfold SingleImage.hard_filter, ImageCollection.post_filter_ann_to_media_ids.
  destruct (empty df); [reflexivity|].
  destruct (SingleImage.detect_ann_media_col (columns df)) as [col|e] eqn:Es.
  - apply detect_same_label in Es. rewrite Es. cbn [bind].
    destruct (coerce_column (column df col)) as [mids|e]; cbn [bind];
      [|split; discriminate].
    unfold ImageCollection.int64_index. cbn [forallb]. rewrite Hm. cbn [andb bind].
    rewrite (map_ext _ _ (mask_singleton media_id)). reflexivity.
  - destruct (ImageCollection.detect_ann_media_col (columns df)) as [col|e'] eqn:Ei.
    + apply detect_same_label in Ei. congruence.
    + split; discriminate.
Qed.

End MoreFilter.

(** The keys of a given table are represented by floats. *)
Ltac exact_keys_by_computation :=
  let col := fresh "col" in
  let Hd := fresh "Hd" in
  intros col Hd; vm_compute in Hd; injection Hd as <-;
  repeat constructor.

Lemma post_filter_twice_witness :
  ImageCollection.post_filter_ann_to_media_ids Demo.kept [2; 4]
  = ImageCollection.post_filter_ann_to_media_ids Demo.annotations
      (List.filter (fun y => existsb (Z.eqb y) [2; 4]) [1; 2; 3]).
Proof.
  apply (post_filter_twice Demo.annotations Demo.kept [1; 2; 3] [2; 4]).
  - exact_keys_by_computation.
  - reflexivity.
  - reflexivity.
Defined.

Lemma post_filter_idempotent_witness :
  ImageCollection.post_filter_ann_to_media_ids Demo.kept [1; 2; 3] = Ok Demo.kept.
Proof.
  apply (post_filter_idempotent Demo.annotations Demo.kept [1; 2; 3]).
  - exact_keys_by_computation.
  - reflexivity.
Defined.

Lemma post_filter_ids_as_set_witness :
  ImageCollection.post_filter_ann_to_media_ids Demo.annotations [1; 2; 3]
  = ImageCollection.post_filter_ann_to_media_ids Demo.annotations [3; 3; 2; 1].
Proof.
  apply (post_filter_ids_as_set Demo.annotations [1; 2; 3] [3; 3; 2; 1]).
  intros z. simpl. tauto.
Defined.

Lemma post_filter_schema_fault_witness :
  ImageCollection.post_filter_ann_to_media_ids Demo.unlabelled [1; 2; 3]
  = Raise (ValueError ImageCollection.detect_msg ["id"; "label.name"]).
Proof.
  apply (post_filter_schema_fault Demo.unlabelled [1; 2; 3]); [reflexivity|].
  repeat constructor; apply not_loose_match; reflexivity.
Defined.

Lemma post_filter_cast_fault_witness :
  ImageCollection.post_filter_ann_to_media_ids Cases.fraction_in_key [5] = Raise TypeError.
Proof.
  apply (post_filter_cast_fault Cases.fraction_in_key [5] "media_id"
           [Demo.int_ 1; Demo.str_ "1.5"]);
    [reflexivity | reflexivity | left; reflexivity | reflexivity].
Defined.

Lemma hard_filter_is_post_filter_witness :
  SingleImage.hard_filter Demo.annotations 2
  = Ok (DataFrame ["id"; "label.name"; "point.media.id"]
          [[Demo.int_ 11; Demo.str_ "sand"; Demo.int_ 2]]) <->
  ImageCollection.post_filter_ann_to_media_ids Demo.annotations [2]
  = Ok (DataFrame ["id"; "label.name"; "point.media.id"]
          [[Demo.int_ 11; Demo.str_ "sand"; Demo.int_ 2]]).
Proof.
  apply (hard_filter_is_post_filter Demo.annotations
           (DataFrame ["id"; "label.name"; "point.media.id"]
              [[Demo.int_ 11; Demo.str_ "sand"; Demo.int_ 2]]) 2).
  reflexivity.
Defined.

(** ** The per-identifier resolver *)

Section MoreResolver.
Context {F : Type} `{Runtime F}.

(** A row is kept only for a record that passed the three stages. *)
Lemma resolve_one_keep_inv (sq : server F) (media_id : Z) (annset_id : option Z)
    (ann_fields : list string) (aid : Z) (row : list (cell F)) :
  SingleImage.resolve_one sq media_id annset_id ann_fields aid = SingleImage.Keep row ->
  exists js,
    get_annotation sq aid = Ok js /\
    SingleImage.lacks_id js = false /\
    SingleImage.differs_from (media_ref js) media_id = Ok false /\
    passes_annset annset_id js /\
    row = project js ann_fields.
Proof.
  unfold SingleImage.resolve_one.
  destruct (get_annotation sq aid) as [js|e]; cbn [bind]; [|discriminate].
  unfold SingleImage.check_record. fold (media_ref js). fold (annset_ref js).
  destruct (SingleImage.lacks_id js) eqn:Hi; [discriminate|].
  destruct (SingleImage.differs_from (media_ref js) media_id) as [[|]|e] eqn:Em;
    cbn [bind]; try discriminate.
  destruct annset_id as [wanted|]; unfold SingleImage.ENFORCE_ANNSET.
  - destruct (SingleImage.differs_from (annset_ref js) wanted) as [[|]|e] eqn:Es;
      cbn [bind]; try discriminate.
    intros [= <-]. exists js. simpl. auto 10.
  - intros [= <-]. exists js. simpl. auto 10.
Qed.

Lemma kept_rows_origin (sq : server F) (media_id : Z) (annset_id : option Z)
    (ann_fields : list string) (ids : list Z) (row : list (cell F)) :
  In row (kept_rows sq media_id annset_id ann_fields ids) ->
  exists aid,
    In aid ids /\
    SingleImage.resolve_one sq media_id annset_id ann_fields aid = SingleImage.Keep row.
Proof.
  unfold kept_rows. rewrite in_flat_map. intros (aid & Hin & Hrow).
  exists aid. split; [assumption|].
  destruct (SingleImage.resolve_one sq media_id annset_id ann_fields aid) as [r|d];
    simpl in Hrow; [|contradiction].
  destruct Hrow as [->|[]]. reflexivity.
Qed.

Lemma verdict_count (sq : server F) (media_id : Z) (annset_id : option Z)
    (ann_fields : list string) (ids : list Z) :
  (length (kept_rows sq media_id annset_id ann_fields ids) +
   length (diagnostics sq media_id annset_id ann_fields ids))%nat = length ids.
Proof.
  unfold kept_rows, diagnostics. induction ids as [|aid ids IH]; [reflexivity|].
  cbn [flat_map]. rewrite !length_app.
  destruct (SingleImage.resolve_one sq media_id annset_id ann_fields aid); simpl; lia.
Qed.

(** X13. Every identifier is accounted for once: the rows of the table and
    the diagnostics printed are together as many as the identifiers given
    (an identifier given twice counts twice).  The table has the requested
    fields as columns, and each of its rows has one cell per field. *)
Theorem resolver_accounts_for_every_id (sq : server F) (media_id : Z)
    (annotation_ids : list Z) (annset_id : option Z) (ann_fields : list string) :
  let res :=
    SingleImage.fetch_annotations_by_ids_for_media_via_get sq media_id annotation_ids
      annset_id ann_fields in
  (length (rows res.1) + length res.2)%nat = length annotation_ids /\
  columns res.1 = ann_fields /\
  rectangular res.1.
Proof.
  intros res. unfold res. rewrite fetch_by_ids_unfold. cbn [fst snd columns rows].
  split; [apply verdict_count|]. split; [reflexivity|].
  unfold rectangular. cbn [columns rows]. apply List.Forall_forall. intros row Hin.
  apply kept_rows_origin in Hin as (aid & _ & Hk).
  apply resolve_one_keep_inv in Hk as (js & _ & _ & _ & _ & ->).
  unfold project. apply length_map.
Qed.

(** X14. Nothing slips through the three stages: every row of the table is
    the projection, on the requested fields, of the record of one of the
    identifiers given, a record that has an identifier, whose media
    reference is the target media and, when an annotation set is given,
    whose set reference is that set. *)
Theorem resolver_rows_are_checked (sq : server F) (media_id : Z)
    (annotation_ids : list Z) (annset_id : option Z) (ann_fields : list string)
    (row : list (cell F)) :
  In row (rows (SingleImage.fetch_annotations_by_ids_for_media_via_get sq media_id
                  annotation_ids annset_id ann_fields).1) ->
  exists aid js,
    In aid annotation_ids /\
    get_annotation sq aid = Ok js /\
    SingleImage.lacks_id js = false /\
    SingleImage.differs_from (media_ref js) media_id = Ok false /\
    passes_annset annset_id js /\
    row = project js ann_fields.
Proof.
  rewrite fetch_by_ids_unfold. cbn [fst rows]. intros Hin.
  apply kept_rows_origin in Hin as (aid & Hin & Hk).
  apply resolve_one_keep_inv in Hk as (js & Hg & Hi & Hm & Hs & ->).
  exists aid, js. auto 10.
Qed.

(** X15. The annotation-set stage: with an annotation set given, a record
    that has an identifier and is on the target media but whose set
    reference is another set (or is missing) adds no row; the rows are those
    of the other identifiers and the diagnostic of the set mismatch is
    printed in its place. *)
Theorem resolver_enforces_annset (sq : server F) (media_id wanted : Z)
    (ann_fields : list string) (ids1 ids2 : list Z) (aid : Z) (js : json F) :
  get_annotation sq aid = Ok js ->
  SingleImage.lacks_id js = false ->
  SingleImage.differs_from (media_ref js) media_id = Ok false ->
  SingleImage.differs_from (annset_ref js) wanted = Ok true ->
  let run := fun ids =>
    SingleImage.fetch_annotations_by_ids_for_media_via_get sq media_id ids (Some wanted)
      ann_fields in
  rows (run (ids1 ++ aid :: ids2)).1 = rows (run ids1).1 ++ rows (run ids2).1 /\
  (run (ids1 ++ aid :: ids2)).2
  = (run ids1).2 ++ SingleImage.WrongSet aid (annset_ref js) wanted :: (run ids2).2.
Proof.
  intros Hg Hi Hm Hs. apply fetch_by_ids_skip.
  unfold SingleImage.resolve_one. rewrite Hg. cbn [bind].
  unfold SingleImage.check_record. fold (media_ref js). fold (annset_ref js).
  rewrite Hi, Hm. cbn [bind]. unfold SingleImage.ENFORCE_ANNSET. rewrite Hs. reflexivity.
Qed.

(** X16. A batch is the concatenation of its parts: the call on a list of
    identifiers split in two returns the rows of the first part followed by
    those of the second, and prints the diagnostics of the first part
    followed by those of the second. *)
Theorem resolver_concatenates (sq : server F) (media_id : Z) (annset_id : option Z)
    (ann_fields : list string) (ids1 ids2 : list Z) :
  let run := fun ids =>
    SingleImage.fetch_annotations_by_ids_for_media_via_get sq media_id ids annset_id
      ann_fields in
  run (ids1 ++ ids2)
  = (DataFrame ann_fields (rows (run ids1).1 ++ rows (run ids2).1),
     (run ids1).2 ++ (run ids2).2).
Proof.
  intros run. unfold run. rewrite !fetch_by_ids_unfold. cbn [fst snd rows].
  now rewrite kept_rows_app, diagnostics_app.
Qed.

(** X17. Which spelling gives the media reference: the value under
    [point] / [media] / [id] when that path exists, even when the value is a
    null; otherwise the value under [point] / [media_id] when that path
    exists; otherwise a null. *)
Theorem media_ref_spelling (js : json F) :
  (forall v, resolves js ["point"; "media"; "id"] v -> media_ref js = v) /\
  ((forall v, ~ resolves js ["point"; "media"; "id"] v) ->
   forall w, resolves js ["point"; "media_id"] w -> media_ref js = w) /\
  ((forall v, ~ resolves js ["point"; "media"; "id"] v) ->
   (forall w, ~ resolves js ["point"; "media_id"] w) ->
   media_ref js = JNull).
Proof.
  unfold media_ref, SingleImage.get_by_dotted.
  change (PyStr.split_dot "point.media.id") with ["point"; "media"; "id"].
  change (PyStr.split_dot "point.media_id") with ["point"; "media_id"].
  split; [|split].
  - intros v Hv. now apply descend_found.
  - intros Hno w Hw. rewrite (descend_missing _ _ _ Hno). now apply descend_found.
  - intros Hno Hno'. rewrite (descend_missing _ _ _ Hno). now apply descend_missing.
Qed.

(** X18. An explicit null hides the second spelling: a record that has an
    identifier and whose [point.media.id] is a null is skipped with the
    media-mismatch diagnostic, whatever it holds under [point.media_id] and
    whatever the target media. *)
Theorem resolver_null_media_is_mismatch (sq : server F) (media_id : Z)
    (annset_id : option Z) (ann_fields : list string) (aid : Z) (js : json F) :
  get_annotation sq aid = Ok js ->
  SingleImage.lacks_id js = false ->
  resolves js ["point"; "media"; "id"] JNull ->
  SingleImage.fetch_annotations_by_ids_for_media_via_get sq media_id [aid] annset_id
    ann_fields
  = (DataFrame ann_fields [], [SingleImage.WrongMedia aid JNull media_id]).
Proof.
  intros Hg Hi Hr. rewrite fetch_by_ids_unfold. unfold kept_rows, diagnostics.
  cbn [flat_map].
  assert (media_ref js = JNull) as Hm.
  { unfold media_ref, SingleImage.get_by_dotted.
    change (PyStr.split_dot "point.media.id") with ["point"; "media"; "id"].
    now apply descend_found. }
  assert (SingleImage.resolve_one sq media_id annset_id ann_fields aid
          = SingleImage.Skip (SingleImage.WrongMedia aid JNull media_id)) as ->.
  { unfold SingleImage.resolve_one. rewrite Hg. cbn [bind].
    unfold SingleImage.check_record. fold (media_ref js). rewrite Hi, Hm. reflexivity. }
  reflexivity.
Qed.

End MoreResolver.

Lemma resolver_rows_are_checked_witness :
  exists aid js,
    In aid [100; 101; 102] /\
    get_annotation Demo.two_media aid = Ok js /\
    SingleImage.lacks_id js = false /\
    SingleImage.differs_from (media_ref js) 7 = Ok false /\
    passes_annset None js /\
    [Demo.int_ 100; Demo.int_ 7] = project js ["id"; "point.media.id"].
Proof.
  apply (resolver_rows_are_checked Demo.two_media 7 [100; 101; 102] None
           ["id"; "point.media.id"] [Demo.int_ 100; Demo.int_ 7]).
  left. reflexivity.
Defined.

Lemma resolver_enforces_annset_witness :
  rows (SingleImage.fetch_annotations_by_ids_for_media_via_get Cases.records 7
          ([100] ++ 300 :: [101]) (Some 6) ["id"]).1
  = rows (SingleImage.fetch_annotations_by_ids_for_media_via_get Cases.records 7 [100]
            (Some 6) ["id"]).1 ++
    rows (SingleImage.fetch_annotations_by_ids_for_media_via_get Cases.records 7 [101]
            (Some 6) ["id"]).1 /\
  (SingleImage.fetch_annotations_by_ids_for_media_via_get Cases.records 7
     ([100] ++ 300 :: [101]) (Some 6) ["id"]).2
  = (SingleImage.fetch_annotations_by_ids_for_media_via_get Cases.records 7 [100]
       (Some 6) ["id"]).2 ++
    SingleImage.WrongSet 300 (annset_ref Cases.in_set_5) 6 ::
    (SingleImage.fetch_annotations_by_ids_for_media_via_get Cases.records 7 [101]
       (Some 6) ["id"]).2.
Proof.
  apply (resolver_enforces_annset Cases.records 7 6 ["id"] [100] [101] 300 Cases.in_set_5);
    reflexivity.
Defined.

Lemma resolver_null_media_is_mismatch_witness :
  SingleImage.fetch_annotations_by_ids_for_media_via_get Cases.records 7 [200] None ["id"]
  = (DataFrame ["id"] [], [SingleImage.WrongMedia 200 JNull 7]).
Proof.
  apply (resolver_null_media_is_mismatch Cases.records 7 None ["id"] 200 Cases.null_first);
    [reflexivity | reflexivity |].
  econstructor; [reflexivity|]. econstructor; [reflexivity|].
  econstructor; [reflexivity|]. constructor.
Defined.

(** ** The bulk asset downloader *)

Section MoreDownload.
Context {F : Type} `{Runtime F}.

(** An entry of the mapping was there before or was written for a task that
    succeeded. *)
Lemma collect_lookup_some (fetch : Z -> string -> option string)
    (done : list (Z * string)) (acc : gmap Z string) (mid : Z) (p : string) :
  ImageCollection.collect fetch done acc !! mid = Some p ->
  acc !! mid = Some p \/ exists url, In (mid, url) done /\ fetch mid url = Some p.
Proof.
  revert acc. induction done as [|[m u] done IH]; intros acc; simpl; [auto|].
  intros Hl. destruct (IH _ Hl) as [Hacc|(url & Hin & Hf)]; [|eauto].
  destruct (fetch m u) as [q|] eqn:Ef; [|auto].
  destruct (decide (m = mid)) as [->|Hne].
  - rewrite lookup_insert_eq in Hacc. injection Hacc as ->. eauto.
  - rewrite lookup_insert_ne in Hacc by assumption. auto.
Qed.

(** Every task comes from a row that has a URL and an identifier. *)
Lemma schedule_origin (cols : list string) (url_col id_col : string)
    (rs : list (list (cell F))) (futs : list (Z * string)) (mid : Z) (url : string) :
  ImageCollection.schedule cols url_col id_col rs = Ok futs ->
  In (mid, url) futs ->
  exists row,
    In row rs /\
    ImageCollection.mid_of_row cols id_col row = Ok mid /\
    ImageCollection.url_of_row cols url_col row = url /\
    url <> "".
Proof.
  revert futs. induction rs as [|row rs IH]; intros futs; simpl.
  - intros [= <-] [].
  - destruct (String.eqb_spec (ImageCollection.url_of_row cols url_col row) "") as [Hz|Hnz].
    + intros E Hin. destruct (IH _ E Hin) as (r & Hr & Hrest). eauto.
    + destruct (ImageCollection.mid_of_row cols id_col row) as [m|e] eqn:Em;
        cbn [bind]; [|discriminate].
      destruct (ImageCollection.schedule cols url_col id_col rs) as [futs'|e] eqn:Es;
        cbn [bind]; [|discriminate].
      intros [= <-] [[= <- <-]|Hin].
      * exists row. auto.
      * destruct (IH _ eq_refl Hin) as (r & Hr & Hrest). eauto.
Qed.

(** Every row that has a URL became a task. *)
Lemma schedule_covers (cols : list string) (url_col id_col : string)
    (rs : list (list (cell F))) (futs : list (Z * string)) (row : list (cell F)) :
  ImageCollection.schedule cols url_col id_col rs = Ok futs ->
  In row rs ->
  ImageCollection.url_of_row cols url_col row <> "" ->
  exists mid,
    ImageCollection.mid_of_row cols id_col row = Ok mid /\
    In (mid, ImageCollection.url_of_row cols url_col row) futs.
Proof.
  revert futs. induction rs as [|r rs IH]; intros futs; simpl; [intros _ []|].
  destruct (String.eqb_spec (ImageCollection.url_of_row cols url_col r) "") as [Hz|Hnz].
  - intros E [->|Hin] Hu; [contradiction | eauto].
  - destruct (ImageCollection.mid_of_row cols id_col r) as [m|e] eqn:Em;
      cbn [bind]; [|discriminate].
    destruct (ImageCollection.schedule cols url_col id_col rs) as [futs'|e] eqn:Es;
      cbn [bind]; [|discriminate].
    intros [= <-] [->|Hin] Hu.
    + exists m. split; [assumption | now left].
    + destruct (IH _ eq_refl Hin Hu) as (mid & Hm & Hf). exists mid. split; [|right]; auto.
Qed.

Lemma download_inv (fetch : Z -> string -> option string)
    (as_completed : list (Z * string) -> list (Z * string))
    (media_df : table F) (url_col id_col : string) (rep : ImageCollection.download_report) :
  ImageCollection.download_images_from_export fetch as_completed media_df url_col id_col
  = Ok rep ->
  ImageCollection.schedule (columns media_df) url_col id_col (rows media_df)
  = Ok (ImageCollection.submitted rep) /\
  ImageCollection.saved rep
  = ImageCollection.collect fetch (as_completed (ImageCollection.submitted rep)) ∅ /\
  ImageCollection.warned rep
  = map fst (List.filter (fun t => negb (bool_decide (is_Some (fetch t.1 t.2))))
               (ImageCollection.submitted rep)).
Proof.
  unfold ImageCollection.download_images_from_export.
  destruct (ImageCollection.schedule _ _ _ _) as [futs|e]; cbn [bind]; [|discriminate].
  intros [= <-]. auto.
Qed.

(** X19. No ghost success: in whatever order the pool finishes, every entry
    of the returned mapping is the path that the download of some row of
    the table returned, a row that has a URL and carries that identifier. *)
Theorem download_entries_are_downloads (fetch : Z -> string -> option string)
    (as_completed : list (Z * string) -> list (Z * string))
    (media_df : table F) (url_col id_col : string)
    (rep : ImageCollection.download_report) (mid : Z) (p : string) :
  (forall l, Permutation (as_completed l) l) ->
  ImageCollection.download_images_from_export fetch as_completed media_df url_col id_col
  = Ok rep ->
  ImageCollection.saved rep !! mid = Some p ->
  exists row,
    In row (rows media_df) /\
    ImageCollection.mid_of_row (columns media_df) id_col row = Ok mid /\
    ImageCollection.url_of_row (columns media_df) url_col row <> "" /\
    fetch mid (ImageCollection.url_of_row (columns media_df) url_col row) = Some p.
Proof.
  intros Hperm E Hl. apply download_inv in E as (Es & Hsaved & _).
  rewrite Hsaved in Hl. apply collect_lookup_some in Hl as [Hl|(url & Hin & Hf)].
  - rewrite lookup_empty in Hl. discriminate Hl.
  - apply (Permutation_in _ (Hperm _)) in Hin.
    destruct (schedule_origin _ _ _ _ _ _ _ Es Hin) as (row & Hr & Hm & Hu & Hnz).
    exists row. subst url. auto.
Qed.

(** X20. The order in which the pool finishes does not matter when the
    submitted identifiers are pairwise distinct: the call then returns the
    same report under any two orders. *)
Theorem download_order_independent (fetch : Z -> string -> option string)
    (order1 order2 : list (Z * string) -> list (Z * string))
    (media_df : table F) (url_col id_col : string)
    (rep : ImageCollection.download_report) :
  (forall l, Permutation (order1 l) l) ->
  (forall l, Permutation (order2 l) l) ->
  ImageCollection.download_images_from_export fetch order1 media_df url_col id_col
  = Ok rep ->
  NoDup (map fst (ImageCollection.submitted rep)) ->
  ImageCollection.download_images_from_export fetch order2 media_df url_col id_col
  = Ok rep.
Proof.
  intros H1 H2 E Hnd. pose proof (download_inv _ _ _ _ _ _ E) as (Es & Hsaved & Hw).
  unfold ImageCollection.download_images_from_export. rewrite Es. cbn [bind].
  destruct rep as [sv futs wn]. cbn [ImageCollection.saved ImageCollection.submitted
                                     ImageCollection.warned] in *.
  rewrite <- Hw. f_equal. f_equal. rewrite Hsaved.
  assert (forall order, (forall l, Permutation (order l) l) ->
                        NoDup (map fst (order futs))) as Hn.
  { intros order Ho.
    assert (Permutation (map fst (order futs)) (map fst futs)) as Hp
      by apply Permutation_map, Ho.
    now rewrite Hp. }
  apply map_eq. intros mid.
  destruct (List.in_dec Z.eq_dec mid (map fst futs)) as [Hin|Hout].
  - apply in_map_iff in Hin as ([m url] & Hm & Hin). simpl in Hm. subst m.
    rewrite (collect_lookup_in fetch (order2 futs) ∅ mid url);
      [|now apply Hn | intros; apply lookup_empty
       | eapply Permutation_in; [symmetry; apply H2 | assumption]].
    rewrite (collect_lookup_in fetch (order1 futs) ∅ mid url);
      [reflexivity | now apply Hn | intros; apply lookup_empty
       | eapply Permutation_in; [symmetry; apply H1 | assumption]].
  - rewrite !collect_lookup_other; [reflexivity | |].
    + intros Hx. apply Hout. eapply Permutation_in; [|exact Hx].
      apply Permutation_map, H1.
    + intros Hx. apply Hout. eapply Permutation_in; [|exact Hx].
      apply Permutation_map, H2.
Qed.

(** X21. The conversion of the identifier is outside the per-item
    isolation: when one row has a URL and an identifier that [int] rejects
    (or no identifier column), the whole call raises, whatever the other
    rows and whatever the downloads would do. *)
Theorem download_bad_id_aborts (fetch : Z -> string -> option string)
    (as_completed : list (Z * string) -> list (Z * string))
    (media_df : table F) (url_col id_col : string) (row : list (cell F)) (e : exn) :
  In row (rows media_df) ->
  ImageCollection.url_of_row (columns media_df) url_col row <> "" ->
  ImageCollection.mid_of_row (columns media_df) id_col row = Raise e ->
  succeeded
    (ImageCollection.download_images_from_export fetch as_completed media_df url_col id_col)
  = false.
Proof.
  intros Hin Hu Hm.
  destruct (ImageCollection.download_images_from_export _ _ _ _ _) as [rep|e'] eqn:E;
    [|reflexivity].
  apply download_inv in E as (Es & _).
  destruct (schedule_covers _ _ _ _ _ _ Es Hin Hu) as (mid & Hmid & _). congruence.
Qed.

(** X22. A URL cell that is [NaN] (an empty field of the tabular export) is
    not taken for a missing URL: when the call returns, the row was
    submitted with the URL [nan], and when that download fails the media
    is among the warnings. *)
Theorem download_submits_nan_url (fetch : Z -> string -> option string)
    (as_completed : list (Z * string) -> list (Z * string))
    (media_df : table F) (url_col id_col : string) (row : list (cell F))
    (rep : ImageCollection.download_report) :
  In row (rows media_df) ->
  row_get (columns media_df) row url_col = Some CNaN ->
  ImageCollection.download_images_from_export fetch as_completed media_df url_col id_col
  = Ok rep ->
  exists mid,
    ImageCollection.mid_of_row (columns media_df) id_col row = Ok mid /\
    In (mid, "nan") (ImageCollection.submitted rep) /\
    (fetch mid "nan" = None -> In mid (ImageCollection.warned rep)).
Proof.
  intros Hin Hnan E. apply download_inv in E as (Es & _ & Hw).
  assert (ImageCollection.url_of_row (columns media_df) url_col row = "nan") as Hu
    by (unfold ImageCollection.url_of_row; now rewrite Hnan).
  destruct (schedule_covers _ _ _ _ _ _ Es Hin) as (mid & Hm & Hf);
    [rewrite Hu; discriminate|].
  rewrite Hu in Hf. exists mid. split; [assumption|]. split; [assumption|].
  intros Hfail. rewrite Hw. apply in_map_iff. exists (mid, "nan").
  split; [reflexivity|]. apply List.filter_In. split; [assumption|].
  simpl. rewrite Hfail. reflexivity.
Qed.

Lemma schedule_no_url_column (cols : list string) (url_col id_col : string)
    (rs : list (list (cell F))) :
  col_index url_col cols = None ->
  ImageCollection.schedule cols url_col id_col rs = Ok [].
Proof.
  intros Hc. induction rs as [|row rs IH]; simpl; [reflexivity|].
  unfold ImageCollection.url_of_row, row_get. rewrite Hc. simpl. exact IH.
Qed.

(** X23. Without the URL column nothing is attempted: on a table that has no
    column of that name the call submits nothing, warns about nothing and
    returns the empty mapping without raising -- even when the identifier
    column is missing too. *)
Theorem download_without_url_column (fetch : Z -> string -> option string)
    (as_completed : list (Z * string) -> list (Z * string))
    (media_df : table F) (url_col id_col : string) :
  (forall l, Permutation (as_completed l) l) ->
  col_index url_col (columns media_df) = None ->
  ImageCollection.download_images_from_export fetch as_completed media_df url_col id_col
  = Ok (ImageCollection.Report ∅ [] []).
Proof.
  intros Hperm Hc. unfold ImageCollection.download_images_from_export.
  rewrite schedule_no_url_column by assumption. cbn [bind].
  rewrite (proj1 (Permutation_nil_r _) (Hperm [])). reflexivity.
Qed.

End MoreDownload.

Lemma download_entries_are_downloads_witness :
  exists row,
    In row (rows Demo.media_csv) /\
    ImageCollection.mid_of_row (columns Demo.media_csv) "id" row = Ok 1 /\
    ImageCollection.url_of_row (columns Demo.media_csv) "path_best" row <> "" /\
    Demo.fetch 1 (ImageCollection.url_of_row (columns Demo.media_csv) "path_best" row)
    = Some "out_bundle/images/1_a.jpg".
Proof.
  assert (exists rep,
            ImageCollection.download_images_from_export Demo.fetch Demo.finish_in_order
              Demo.media_csv "path_best" "id" = Ok rep /\
            ImageCollection.saved rep !! 1 = Some "out_bundle/images/1_a.jpg")
    as (rep & E & Hl).
  { eexists. split; [vm_compute; reflexivity | reflexivity]. }
  apply (download_entries_are_downloads Demo.fetch Demo.finish_in_order Demo.media_csv
           "path_best" "id" rep 1 "out_bundle/images/1_a.jpg");
    [intros l; reflexivity | exact E | exact Hl].
Defined.

Lemma download_order_independent_witness :
  exists rep,
    ImageCollection.download_images_from_export Demo.fetch Demo.finish_in_order
      Demo.media_csv "path_best" "id" = Ok rep /\
    ImageCollection.download_images_from_export Demo.fetch Cases.finish_reversed
      Demo.media_csv "path_best" "id" = Ok rep.
Proof.
  assert (exists rep,
            ImageCollection.download_images_from_export Demo.fetch Demo.finish_in_order
              Demo.media_csv "path_best" "id" = Ok rep /\
            NoDup (map fst (ImageCollection.submitted rep)))
    as (rep & E & Hn).
  { eexists. split; [vm_compute; reflexivity|].
    apply (bool_decide_unpack (NoDup [1; 2; 3])). vm_compute. exact I. }
  exists rep. split; [exact E|].
  apply (download_order_independent Demo.fetch Demo.finish_in_order Cases.finish_reversed
           Demo.media_csv "path_best" "id" rep);
    [intros l; reflexivity
    | intros l; symmetry; apply Permutation_rev
    | exact E | exact Hn].
Defined.

Lemma download_bad_id_aborts_witness :
  succeeded
    (ImageCollection.download_images_from_export Demo.fetch Demo.finish_in_order
       Cases.id_missing "path_best" "id") = false.
Proof.
  apply (download_bad_id_aborts Demo.fetch Demo.finish_in_order Cases.id_missing
           "path_best" "id" [CNaN; Demo.str_ "b.jpg"]
           (ValueError "cannot convert float NaN to integer" []));
    [right; left; reflexivity | discriminate | reflexivity].
Defined.

Lemma download_submits_nan_url_witness :
  exists mid,
    ImageCollection.mid_of_row (columns Demo.missing_url) "id" [Demo.int_ 1; CNaN] = Ok mid /\
    In (mid, "nan") [(1, "nan")] /\
    (Demo.fetch mid "nan" = None -> In mid [1]).
Proof.
  apply (download_submits_nan_url Demo.fetch Demo.finish_in_order Demo.missing_url
           "path_best" "id" [Demo.int_ 1; CNaN]
           (ImageCollection.Report ∅ [(1, "nan")] [1]));
    [left; reflexivity | reflexivity | reflexivity].
Defined.

Lemma download_without_url_column_witness :
  ImageCollection.download_images_from_export Demo.fetch Demo.finish_in_order
    Demo.annotations "path_best" "id"
  = Ok (ImageCollection.Report ∅ [] []).
Proof.
  apply (download_without_url_column Demo.fetch Demo.finish_in_order Demo.annotations
           "path_best" "id"); [intros l; reflexivity | reflexivity].
Defined.

(** ** Assignment of a column and the provenance columns *)

Lemma col_index_some (c : string) (cols : list string) (i : nat) :
  col_index c cols = Some i -> cols !! i = Some c.
Proof.
  revert i. induction cols as [|x cols IH]; intros i; simpl; [discriminate|].
  destruct (String.eqb_spec x c) as [->|Hne].
  - intros [= <-]. reflexivity.
  - destruct (col_index c cols) as [j|]; simpl; [|discriminate].
    intros [= <-]. simpl. now apply IH.
Qed.

Lemma col_index_none (c : string) (cols : list string) :
  col_index c cols = None <-> ~ In c cols.
Proof.
  induction cols as [|x cols IH]; simpl; [tauto|].
  destruct (String.eqb_spec x c) as [->|Hne].
  - split; [discriminate | tauto].
  - destruct (col_index c cols) as [j|]; simpl.
    + split; [discriminate|]. intros Hno.
      assert (~ In c cols) as Hc by tauto. apply IH in Hc. discriminate Hc.
    + split; [|reflexivity]. intros _ [Hx|Hin]; [congruence|]. now apply IH.
Qed.

Lemma col_index_app_l (c : string) (cols more : list string) (i : nat) :
  col_index c cols = Some i -> col_index c (cols ++ more) = Some i.
Proof.
  revert i. induction cols as [|x cols IH]; intros i; simpl; [discriminate|].
  destruct (String.eqb x c); [auto|].
  destruct (col_index c cols) as [j|]; simpl; [|discriminate].
  intros [= <-]. now rewrite (IH j eq_refl).
Qed.

Lemma col_index_app_new (c : string) (cols : list string) :
  col_index c cols = None -> col_index c (cols ++ [c]) = Some (length cols).
Proof.
  induction cols as [|x cols IH]; simpl.
  - intros _. now rewrite String.eqb_refl.
  - destruct (String.eqb x c); [discriminate|].
    destruct (col_index c cols) as [j|]; simpl; [discriminate|].
    intros _. now rewrite IH.
Qed.

Section Assign.
Context {F : Type} `{Runtime F}.

Lemma assign_columns (df : table F) (c : string) (v : cell F) :
  (In c (columns df) /\ columns (assign_scalar df c v) = columns df) \/
  (~ In c (columns df) /\ columns (assign_scalar df c v) = columns df ++ [c]).
Proof.
  unfold assign_scalar. destruct (col_index c (columns df)) as [i|] eqn:E.
  - left. split; [|reflexivity].
    apply col_index_some in E. apply list_elem_of_In. eapply list_elem_of_lookup_2, E.
  - right. split; [|reflexivity]. now apply col_index_none.
Qed.

(** What an assignment does to the cells of a rectangular table. *)
Lemma assign_cells (df : table F) (c : string) (v : cell F) :
  rectangular df ->
  exists g,
    rows (assign_scalar df c v) = map g (rows df) /\
    forall row, In row (rows df) ->
      length (g row) = length (columns (assign_scalar df c v)) /\
      cell_at (columns (assign_scalar df c v)) c (g row) = v /\
      forall x, x <> c -> In x (columns df) ->
        cell_at (columns (assign_scalar df c v)) x (g row) = cell_at (columns df) x row.
Proof.
  intros Hrect. unfold rectangular in Hrect. rewrite List.Forall_forall in Hrect.
  unfold assign_scalar. destruct (col_index c (columns df)) as [j|] eqn:E.
  - exists (fun row => <[j := v]> row). split; [reflexivity|].
    intros row Hin. specialize (Hrect row Hin). cbn [columns].
    pose proof (col_index_some _ _ _ E) as Hj.
    assert (j < length row)%nat as Hlt by (rewrite Hrect; eapply lookup_lt_Some, Hj).
    split; [now rewrite length_insert|]. split.
    + unfold cell_at, row_get. rewrite E. now rewrite list_lookup_insert_eq.
    + intros x Hx Hin'. unfold cell_at, row_get.
      destruct (col_index x (columns df)) as [i|] eqn:Ei; [|reflexivity].
      rewrite list_lookup_insert_ne; [reflexivity|].
      intros <-. apply col_index_some in Ei. congruence.
  - exists (fun row => row ++ [v]). split; [reflexivity|].
    intros row Hin. specialize (Hrect row Hin). cbn [columns].
    split; [rewrite !length_app; simpl; lia|]. split.
    + unfold cell_at, row_get. rewrite (col_index_app_new _ _ E).
      rewrite <- Hrect. rewrite lookup_app_r by lia. now rewrite Nat.sub_diag.
    + intros x Hx Hin'. unfold cell_at, row_get.
      destruct (col_index x (columns df)) as [i|] eqn:Ei.
      * rewrite (col_index_app_l _ _ _ _ Ei).
        rewrite lookup_app_l; [reflexivity|].
        rewrite Hrect. eapply lookup_lt_Some, col_index_some, Ei.
      * apply col_index_none in Ei. contradiction.
Qed.

Lemma assign_rectangular (df : table F) (c : string) (v : cell F) :
  rectangular df -> rectangular (assign_scalar df c v).
Proof.
  intros Hrect. destruct (assign_cells df c v Hrect) as (g & Hrows & Hg).
  unfold rectangular. rewrite Hrows. apply List.Forall_forall. intros r Hin.
  apply in_map_iff in Hin as (row & <- & Hin). now apply Hg.
Qed.

Lemma assign_keeps_labels (df : table F) (c : string) (v : cell F) (x : string) :
  In x (columns df) -> In x (columns (assign_scalar df c v)).
Proof.
  intros Hx. destruct (assign_columns df c v) as [[_ ->]|[_ ->]]; [assumption|].
  apply in_or_app. now left.
Qed.

Lemma assign_has_label (df : table F) (c : string) (v : cell F) :
  In c (columns (assign_scalar df c v)).
Proof.
  destruct (assign_columns df c v) as [[Hin ->]|[_ ->]]; [assumption|].
  apply in_or_app. right. now left.
Qed.

(** The two assignments of the provenance block, seen from the cells. *)
Lemma provenance_cells (cfg : CollectionScript.config) (df : table F) :
  rectangular df ->
  exists g,
    rows (CollectionScript.add_provenance cfg df) = map g (rows df) /\
    forall row, In row (rows df) ->
      cell_at (columns (CollectionScript.add_provenance cfg df)) "collection_id" (g row)
      = CVal (JInt (CollectionScript.COLLECTION_ID cfg)) /\
      (~ In "annotation_set_id" (columns df) ->
       cell_at (columns (CollectionScript.add_provenance cfg df)) "annotation_set_id" (g row)
       = CVal (JInt (CollectionScript.ANNSET_ID cfg))) /\
      forall x, x <> "collection_id" -> In x (columns df) ->
        cell_at (columns (CollectionScript.add_provenance cfg df)) x (g row)
        = cell_at (columns df) x row.
Proof.
  intros Hrect. unfold CollectionScript.add_provenance.
  set (v1 := CVal (JInt (CollectionScript.COLLECTION_ID cfg))).
  set (v2 := CVal (JInt (CollectionScript.ANNSET_ID cfg))).
  set (df1 := assign_scalar df "collection_id" v1).
  destruct (assign_cells df "collection_id" v1 Hrect) as (g1 & Hrows1 & Hg1).
  fold df1 in Hrows1, Hg1.
  destruct (bool_decide ("annotation_set_id" ∈ columns df1)) eqn:Hhas.
  - exists g1. split; [assumption|]. intros row Hin.
    destruct (Hg1 row Hin) as (_ & Hc & Hx). split; [assumption|]. split; [|assumption].
    intros Hno. apply bool_decide_eq_true in Hhas. apply list_elem_of_In in Hhas.
    exfalso. unfold df1 in Hhas.
    destruct (assign_columns df "collection_id" v1) as [[_ E]|[_ E]]; rewrite E in Hhas.
    + contradiction.
    + apply in_app_or in Hhas as [Hin'|[Hin'|[]]]; [contradiction | discriminate Hin'].
  - assert (rectangular df1) as Hrect1 by now apply assign_rectangular.
    destruct (assign_cells df1 "annotation_set_id" v2 Hrect1) as (g2 & Hrows2 & Hg2).
    exists (fun row => g2 (g1 row)). split; [now rewrite Hrows2, Hrows1, map_map|].
    intros row Hin. destruct (Hg1 row Hin) as (_ & Hc & Hx).
    assert (In (g1 row) (rows df1)) as Hin1 by (rewrite Hrows1; now apply in_map).
    destruct (Hg2 _ Hin1) as (_ & Hc2 & Hx2).
    split; [|split].
    + rewrite Hx2; [assumption | discriminate | apply assign_has_label].
    + intros _. assumption.
    + intros x Hne Hxin.
      assert (x <> "annotation_set_id") as Hne2.
      { intros ->. apply bool_decide_eq_false in Hhas. apply Hhas.
        apply list_elem_of_In. now apply assign_keeps_labels. }
      rewrite Hx2; [|assumption | now apply assign_keeps_labels]. now apply Hx.
Qed.

Lemma provenance_columns (cfg : CollectionScript.config) (df : table F) :
  exists extra,
    columns (CollectionScript.add_provenance cfg df) = columns df ++ extra /\
    (forall x, In x extra -> x = "collection_id" \/ x = "annotation_set_id") /\
    In "collection_id" (columns (CollectionScript.add_provenance cfg df)) /\
    In "annotation_set_id" (columns (CollectionScript.add_provenance cfg df)).
Proof.
  unfold CollectionScript.add_provenance.
  set (v1 := CVal (JInt (CollectionScript.COLLECTION_ID cfg))).
  set (v2 := CVal (JInt (CollectionScript.ANNSET_ID cfg))).
  set (df1 := assign_scalar df "collection_id" v1).
  assert (exists e1, columns df1 = columns df ++ e1 /\
                     (forall x, In x e1 -> x = "collection_id")) as (e1 & E1 & He1).
  { unfold df1. destruct (assign_columns df "collection_id" v1) as [[_ ->]|[_ ->]].
    - exists []. split; [now rewrite app_nil_r | intros x []].
    - exists ["collection_id"]. split; [reflexivity|]. intros x [<-|[]]. reflexivity. }
  assert (In "collection_id" (columns df1)) as Hc1 by apply assign_has_label.
  destruct (bool_decide ("annotation_set_id" ∈ columns df1)) eqn:Hhas.
  - exists e1. split; [assumption|]. split; [intros x Hx; left; auto|].
    split; [assumption|]. apply bool_decide_eq_true in Hhas. now apply list_elem_of_In.
  - destruct (assign_columns df1 "annotation_set_id" v2) as [[Hin _]|[_ E2]].
    + apply bool_decide_eq_false in Hhas. exfalso. apply Hhas. now apply list_elem_of_In.
    + exists (e1 ++ ["annotation_set_id"]). rewrite E2.
      split; [rewrite E1; symmetry; apply app_assoc|]. split.
      * intros x Hx. apply in_app_or in Hx as [Hx|[<-|[]]]; [left; auto | right; reflexivity].
      * split; apply in_or_app; [left; assumption | right; now left].
Qed.

(** X24. The provenance block of the collection script, on a rectangular
    table: it keeps the rows, one for one and in order; after it every row
    holds the collection identifier under [collection_id] (an upstream
    column of that name is overwritten); a column [annotation_set_id] that
    came with the data is left as it is, and is filled with the configured
    annotation set only when it was absent; the cells of every other column
    are untouched. *)
Theorem provenance_block (cfg : CollectionScript.config) (df : table F) :
  rectangular df ->
  let out := CollectionScript.add_provenance cfg df in
  length (rows out) = length (rows df) /\
  In "collection_id" (columns out) /\
  In "annotation_set_id" (columns out) /\
  column out "collection_id"
  = map (fun _ => CVal (JInt (CollectionScript.COLLECTION_ID cfg))) (rows df) /\
  (~ In "annotation_set_id" (columns df) ->
   column out "annotation_set_id"
   = map (fun _ => CVal (JInt (CollectionScript.ANNSET_ID cfg))) (rows df)) /\
  (forall x, x <> "collection_id" -> In x (columns df) -> column out x = column df x).
Proof.
  intros Hrect out.
  destruct (provenance_cells cfg df Hrect) as (g & Hrows & Hg).
  destruct (provenance_columns cfg df) as (extra & _ & _ & Hc & Ha).
  fold out in Hrows, Hg, Hc, Ha.
  split; [now rewrite Hrows, length_map|]. split; [assumption|]. split; [assumption|].
  unfold column. rewrite Hrows.
  split; [|split].
  - rewrite List.map_map. apply map_ext_in. intros row Hin. now apply Hg.
  - intros Hno. rewrite List.map_map. apply map_ext_in. intros row Hin. now apply Hg.
  - intros x Hne Hx. rewrite List.map_map. apply map_ext_in. intros row Hin.
    now apply Hg.
Qed.

End Assign.

Lemma provenance_block_witness :
  length (rows (CollectionScript.add_provenance CollectionScript.defaults Demo.kept))
  = length (rows Demo.kept).
Proof.
  apply (provenance_block CollectionScript.defaults Demo.kept).
  repeat constructor.
Defined.

(** ** A whole run of the collection script *)

Lemma first_mention_app_l (cols extra : list string) (c : string) :
  first_mention cols = Some c -> first_mention (cols ++ extra) = Some c.
Proof.
  induction cols as [|x cols IH]; simpl; [discriminate|].
  destruct (mentions_media_id x); auto.
Qed.

Lemma filter_none {A : Type} (p : A -> bool) (l : list A) :
  Forall (fun x => p x = false) l -> List.filter p l = [].
Proof.
  induction 1 as [|x l Hx _ IH]; simpl; [reflexivity|]. now rewrite Hx.
Qed.

(** Labels added at the end that end with none of the four suffixes do not
    change what the detector returns. *)
Lemma detect_app_extra (cols extra : list string) (c : string) :
  ImageCollection.detect_ann_media_col cols = Ok c ->
  Forall (fun x => has_media_suffix x = false) extra ->
  ImageCollection.detect_ann_media_col (cols ++ extra) = Ok c.
Proof.
  unfold ImageCollection.detect_ann_media_col. intros E Hx.
  rewrite List.filter_app, (filter_none _ _ Hx), app_nil_r.
  destruct (List.filter has_media_suffix cols) as [|y rest]; [|assumption].
  destruct (first_mention cols) as [y|] eqn:Em; [|discriminate].
  now rewrite (first_mention_app_l _ _ _ Em).
Qed.

Section Run.
Context {F : Type} `{Runtime F}.

Lemma select_columns_rectangular (keep : list string) (df : table F) :
  rectangular (select_columns keep df).
Proof.
  unfold rectangular, select_columns. simpl. apply List.Forall_forall.
  intros r Hin. apply in_map_iff in Hin as (row & <- & _). apply length_map.
Qed.

Lemma annset_export_frame (sq : server F) (annset_id : Z)
    (include_columns : option (list string)) (df : table F) :
  answers_are_frames sq ->
  (ImageCollection.export_annotation_set_csv sq annset_id include_columns).2 = Ok df ->
  rectangular df /\ columns df <> [].
Proof.
  intros Hfr. unfold ImageCollection.export_annotation_set_csv.
  destruct (read_csv_of sq (ImageCollection.annset_preferred _ _)) as [df0|e] eqn:E0;
    cbn [snd].
  - intros [= <-]. eapply Hfr, E0.
  - destruct (read_csv_of sq (ImageCollection.annset_retry annset_id)) as [df1|e1] eqn:E1;
      cbn [bind]; [|discriminate].
    destruct (Hfr _ _ E1) as [Hr Hc].
    destruct (or_nil include_columns) as [|w wanted]; [intros [= <-]; auto|].
    destruct (present_columns (w :: wanted) df1) as [|k keep]; intros [= <-]; [auto|].
    split; [apply select_columns_rectangular | discriminate].
Qed.

Lemma post_filter_frame (ann_df out : table F) (ids : list Z) :
  rectangular ann_df ->
  ImageCollection.post_filter_ann_to_media_ids ann_df ids = Ok out ->
  rectangular out /\ columns out = columns ann_df.
Proof.
  intros Hr E. destruct (empty ann_df) eqn:Hne.
  - unfold ImageCollection.post_filter_ann_to_media_ids in E. rewrite Hne in E.
    injection E as <-. auto.
  - destruct (post_filter_filters _ _ _ Hne E) as (col & mids & _ & _ & _ & ->).
    split; [|reflexivity]. unfold rectangular in *. cbn [rows columns].
    apply List.Forall_forall. intros r Hin. apply boolean_index_subset in Hin.
    rewrite List.Forall_forall in Hr. now apply Hr.
Qed.

Lemma exact_cells_column (df : table F) (c : string) :
  Forall (Forall exact) (rows df) -> Forall exact (column df c).
Proof.
  intros Hex. unfold column. rewrite Forall_map.
  apply List.Forall_forall. intros row Hin.
  rewrite List.Forall_forall in Hex. specialize (Hex row Hin).
  unfold cell_at, row_get. destruct (col_index c (columns df)) as [i|]; [|exact I].
  destruct (row !! i) as [x|] eqn:Ei; [|exact I].
  rewrite List.Forall_forall in Hex. apply Hex.
  apply list_elem_of_In. eapply list_elem_of_lookup_2, Ei.
Qed.

Lemma select_columns_exact (keep : list string) (df : table F) :
  Forall (Forall exact) (rows df) -> Forall (Forall exact) (rows (select_columns keep df)).
Proof.
  intros Hex. unfold select_columns. cbn [rows]. rewrite Forall_map.
  apply List.Forall_forall. intros row Hin. rewrite Forall_map.
  apply List.Forall_forall. intros c _.
  pose proof (exact_cells_column df c Hex) as Hc. unfold column in Hc.
  rewrite Forall_map in Hc. rewrite List.Forall_forall in Hc. now apply Hc.
Qed.

Lemma annset_export_exact (sq : server F) (annset_id : Z)
    (include_columns : option (list string)) (df : table F) :
  answers_are_exact sq ->
  (ImageCollection.export_annotation_set_csv sq annset_id include_columns).2 = Ok df ->
  Forall (Forall exact) (rows df).
Proof.
  intros Hex. unfold ImageCollection.export_annotation_set_csv.
  destruct (read_csv_of sq (ImageCollection.annset_preferred _ _)) as [df0|e] eqn:E0;
    cbn [snd].
  - intros [= <-]. eapply Hex, E0.
  - destruct (read_csv_of sq (ImageCollection.annset_retry annset_id)) as [df1|e1] eqn:E1;
      cbn [bind]; [|discriminate].
    pose proof (Hex _ _ E1) as H1.
    destruct (or_nil include_columns) as [|w wanted]; [intros [= <-]; auto|].
    destruct (present_columns (w :: wanted) df1) as [|k keep]; intros [= <-]; [auto|].
    now apply select_columns_exact.
Qed.

Lemma ints_of_rows_origin (cols : list string) (c : string) (rs : list (list (cell F)))
    (zs : list Z) (z : Z) :
  CollectionScript.ints_of_rows cols c rs = Ok zs ->
  In z zs ->
  exists row, In row rs /\ ImageCollection.mid_of_row cols c row = Ok z.
Proof.
  revert zs. induction rs as [|row rs IH]; intros zs; simpl.
  - intros [= <-] [].
  - destruct (ImageCollection.mid_of_row cols c row) as [y|e] eqn:Em; cbn [bind];
      [|discriminate].
    destruct (in_int64 y); cbn [bind]; [|discriminate].
    destruct (CollectionScript.ints_of_rows cols c rs) as [ys|e] eqn:Es; cbn [bind];
      [|discriminate].
    intros [= <-] [<-|Hin]; [eauto|].
    destruct (IH _ eq_refl Hin) as (r & Hr & Hz). eauto.
Qed.

Lemma media_ids_origin (media_df : table F) (ids : list Z) (z : Z) :
  CollectionScript.media_ids_of media_df = Ok ids ->
  In z ids ->
  exists row,
    In row (rows media_df) /\
    ImageCollection.mid_of_row (columns media_df) "id" row = Ok z.
Proof.
  unfold CollectionScript.media_ids_of.
  destruct (col_index "id" (columns media_df)); [|discriminate].
  apply ints_of_rows_origin.
Qed.

(** The steps a run that ends went through. *)
Lemma main_inv (cfg : CollectionScript.config) (sq : server F)
    (fetch : Z -> string -> option string)
    (as_completed : list (Z * string) -> list (Z * string))
    (out : CollectionScript.outputs F) :
  CollectionScript.main cfg sq fetch as_completed = Ok out ->
  exists ids ann_df kept,
    (ImageCollection.export_media_collection_csv sq (CollectionScript.COLLECTION_ID cfg)
       (Some ImageCollection.MEDIA_FIELDS)).2 = Ok (CollectionScript.media_csv out) /\
    CollectionScript.media_ids_of (CollectionScript.media_csv out) = Ok ids /\
    (ImageCollection.export_annotation_set_csv sq (CollectionScript.ANNSET_ID cfg)
       (Some ImageCollection.ANN_FIELDS)).2 = Ok ann_df /\
    ImageCollection.post_filter_ann_to_media_ids ann_df ids = Ok kept /\
    CollectionScript.ann_csv out = CollectionScript.add_provenance cfg kept /\
    (CollectionScript.DOWNLOAD_IMAGES cfg = true ->
     exists rep,
       CollectionScript.downloaded out = Some rep /\
       ImageCollection.download_images_from_export fetch as_completed
         (CollectionScript.media_csv out) "path_best" "id" = Ok rep) /\
    (CollectionScript.DOWNLOAD_IMAGES cfg = false -> CollectionScript.downloaded out = None).
Proof.
  unfold CollectionScript.main.
  destruct (ImageCollection.export_media_collection_csv sq _ _) as [sent1 [media_df|e]];
    cbn [bind]; [|discriminate].
  destruct (CollectionScript.media_ids_of media_df) as [ids|e] eqn:Ei; cbn [bind];
    [|discriminate].
  destruct (ImageCollection.export_annotation_set_csv sq _ _) as [sent2 [ann_df|e]];
    cbn [bind]; [|discriminate].
  destruct (ImageCollection.post_filter_ann_to_media_ids ann_df ids) as [kept|e] eqn:Ef;
    cbn [bind]; [|discriminate].
  destruct (CollectionScript.DOWNLOAD_IMAGES cfg).
  - destruct (ImageCollection.download_images_from_export _ _ _ _ _) as [rep|e] eqn:Ed;
      cbn [bind]; [|discriminate].
    intros [= <-]. exists ids, ann_df, kept. cbn.
    repeat split; auto; [eauto | discriminate].
  - intros [= <-]. exists ids, ann_df, kept. cbn.
    repeat split; auto. discriminate.
Qed.

(** X25. What a run of the collection script writes, when it ends and the
    tabular answers of the service are DataFrames whose integers floats
    represent (every integer up to 2^53 in magnitude is): every row of the
    annotation table written holds the configured collection under
    [collection_id], and its value in the join-key column -- which the
    detector still finds in the written table -- is an integer, or reads as
    one, that is the identifier of a row of the media table written.  No
    annotation of a media outside the collection is written. *)
Theorem collection_run_integrity (cfg : CollectionScript.config) (sq : server F)
    (fetch : Z -> string -> option string)
    (as_completed : list (Z * string) -> list (Z * string))
    (out : CollectionScript.outputs F) :
  answers_are_frames sq ->
  answers_are_exact sq ->
  CollectionScript.main cfg sq fetch as_completed = Ok out ->
  forall row, In row (rows (CollectionScript.ann_csv out)) ->
    cell_at (columns (CollectionScript.ann_csv out)) "collection_id" row
    = CVal (JInt (CollectionScript.COLLECTION_ID cfg)) /\
    exists col z media_row,
      ImageCollection.detect_ann_media_col (columns (CollectionScript.ann_csv out))
      = Ok col /\
      key_of (cell_at (columns (CollectionScript.ann_csv out)) col row) = Some z /\
      In media_row (rows (CollectionScript.media_csv out)) /\
      ImageCollection.mid_of_row (columns (CollectionScript.media_csv out)) "id" media_row
      = Ok z.
Proof.
  intros Hfr Hexact E row Hrow.
  destruct (main_inv _ _ _ _ _ E) as (ids & ann_df & kept & _ & Hids & Hann & Hf & Hout & _).
  rewrite Hout in *. clear Hout E.
  destruct (annset_export_frame _ _ _ _ Hfr Hann) as [Hrect Hcols].
  pose proof (annset_export_exact _ _ _ _ Hexact Hann) as Hcells.
  destruct (post_filter_frame _ _ _ Hrect Hf) as [Hrk Hck].
  destruct (provenance_cells cfg kept Hrk) as (g & Hrows & Hg).
  destruct (provenance_columns cfg kept) as (extra & Hextra & Hnames & _ & _).
  rewrite Hrows in Hrow. apply in_map_iff in Hrow as (r & <- & Hr).
  destruct (Hg r Hr) as (Hc & _ & Hx). split; [assumption|].
  assert (empty ann_df = false) as Hne.
  { destruct (empty ann_df) eqn:He; [|reflexivity]. exfalso.
    unfold ImageCollection.post_filter_ann_to_media_ids in Hf. rewrite He in Hf.
    injection Hf as <-. unfold empty in He.
    destruct (columns ann_df); [congruence|]. destruct (rows ann_df); [destruct Hr|].
    discriminate He. }
  assert (exact_keys ann_df) as Hkeys
    by (intros c _; now apply exact_cells_column).
  destruct (post_filter_exact _ _ _ Hkeys Hne Hf) as (col & Hd & _ & _ & ->).
  cbn [rows columns] in *.
  apply List.filter_In in Hr as [Hr Hm].
  unfold member_row, ImageCollection.isin in Hm.
  destruct (key_of (cell_at (columns ann_df) col r)) as [z|] eqn:Ez; [|discriminate].
  apply existsb_eqb_In in Hm.
  destruct (media_ids_origin _ _ _ Hids Hm) as (media_row & Hmr & Hmz).
  destruct (detected_is_mention _ _ _ Hd) as [Hin Hmen].
  exists col, z, media_row. split; [|split; [|split; assumption]].
  - rewrite Hextra. apply detect_app_extra; [assumption|].
    apply List.Forall_forall. intros x Hxin.
    destruct (Hnames x Hxin) as [->| ->]; reflexivity.
  - rewrite Hx; [assumption | | assumption].
    intros ->. discriminate Hmen.
Qed.

End Run.

Lemma collection_run_integrity_witness :
  cell_at ["id"; "point.media.id"; "collection_id"; "annotation_set_id"]
    "collection_id" [Demo.int_ 10; Demo.int_ 1; Demo.int_ 14233; Demo.int_ 17711]
  = Demo.int_ 14233 /\
  exists col z media_row,
    ImageCollection.detect_ann_media_col
      ["id"; "point.media.id"; "collection_id"; "annotation_set_id"] = Ok col /\
    key_of
      (cell_at ["id"; "point.media.id"; "collection_id"; "annotation_set_id"] col
         [Demo.int_ 10; Demo.int_ 1; Demo.int_ 14233; Demo.int_ 17711])
    = Some z /\
    In media_row (rows Demo.media_csv) /\
    ImageCollection.mid_of_row (columns Demo.media_csv) "id" media_row = Ok z.
Proof.
  assert (answers_are_frames Demo.up) as Hfr.
  { intros rq df. unfold Demo.up. cbn [read_csv_of].
    destruct (resource rq); intros [= <-]; (split; [repeat constructor | discriminate]). }
  assert (answers_are_exact Demo.up) as Hex.
  { intros rq df. unfold Demo.up. cbn [read_csv_of].
    destruct (resource rq); intros [= <-]; repeat constructor. }
  assert (exists out,
            CollectionScript.main Cases.no_download Demo.up Demo.fetch Demo.finish_in_order
            = Ok out /\
            CollectionScript.ann_csv out
            = DataFrame ["id"; "point.media.id"; "collection_id"; "annotation_set_id"]
                [[Demo.int_ 10; Demo.int_ 1; Demo.int_ 14233; Demo.int_ 17711];
                 [Demo.int_ 11; Demo.int_ 2; Demo.int_ 14233; Demo.int_ 17711]] /\
            CollectionScript.media_csv out = Demo.media_csv) as (out & E & Ha & Hm).
  { eexists. split; [vm_compute; reflexivity | split; reflexivity]. }
  pose proof (collection_run_integrity Cases.no_download Demo.up Demo.fetch
                Demo.finish_in_order out Hfr Hex E) as Hrun.
  rewrite Ha, Hm in Hrun. apply Hrun. left. reflexivity.
Defined.

(** ** A whole run of the single-image script *)

Section SingleRun.
Context {F : Type} `{Runtime F}.

Lemma assign_column_new (df : table F) (c : string) (v : cell F) :
  rectangular df ->
  column (assign_scalar df c v) c = map (fun _ => v) (rows df).
Proof.
  intros Hr. destruct (assign_cells df c v Hr) as (g & Hrows & Hg).
  unfold column. rewrite Hrows, List.map_map. apply map_ext_in.
  intros row Hin. now apply Hg.
Qed.

Lemma assign_column_other (df : table F) (c x : string) (v : cell F) :
  rectangular df -> x <> c -> In x (columns df) ->
  column (assign_scalar df c v) x = column df x.
Proof.
  intros Hr Hne Hx. destruct (assign_cells df c v Hr) as (g & Hrows & Hg).
  unfold column. rewrite Hrows, List.map_map. apply map_ext_in.
  intros row Hin. now apply Hg.
Qed.

Lemma column_constant (df : table F) (c : string) (v : cell F) (l : list (list (cell F))) :
  column df c = map (fun _ => v) l ->
  forall row, In row (rows df) -> cell_at (columns df) c row = v.
Proof.
  intros E row Hin.
  assert (In (cell_at (columns df) c row) (column df c)) as Hc
    by (unfold column; now apply in_map).
  rewrite E in Hc. apply in_map_iff in Hc as (_ & <- & _). reflexivity.
Qed.

Lemma hard_filter_rectangular (df out : table F) (media_id : Z) :
  rectangular df -> SingleImage.hard_filter df media_id = Ok out -> rectangular out.
Proof.
  unfold SingleImage.hard_filter. intros Hr. destruct (empty df); [now intros [= <-]|].
  destruct (SingleImage.detect_ann_media_col (columns df)) as [col|e]; cbn [bind];
    [|discriminate].
  destruct (coerce_column (column df col)) as [mids|e]; cbn [bind]; [|discriminate].
  intros [= <-]. unfold rectangular in *. cbn [rows columns].
  apply List.Forall_forall. intros r Hin. apply boolean_index_subset in Hin.
  rewrite List.Forall_forall in Hr. now apply Hr.
Qed.

Lemma export_all_rectangular (sq : server F) (media_id : Z) (annset_id : option Z)
    (ann_fields : list string) :
  answers_are_frames sq -> normalize_gives_frames ->
  rectangular
    (SingleImage.export_all_annotations_for_media sq media_id annset_id ann_fields).2.
Proof.
  intros Hfr Hnf.
  assert (forall mf out,
            SingleImage.attempt_csv sq media_id annset_id ann_fields mf = Ok out ->
            rectangular out) as Hcsv.
  { intros mf out. unfold SingleImage.attempt_csv.
    destruct (read_csv_of sq _) as [df|e] eqn:E; cbn [bind]; [|discriminate].
    apply hard_filter_rectangular. eapply Hfr, E. }
  assert (forall mf out,
            SingleImage.attempt_json sq media_id annset_id ann_fields mf = Ok out ->
            rectangular out) as Hjson.
  { intros mf out. unfold SingleImage.attempt_json.
    destruct (json_of sq _) as [js|e]; cbn [bind]; [|discriminate].
    destruct (get_objects js) as [recs|e]; cbn [bind]; [|discriminate].
    destruct (json_normalize recs) as [df|e] eqn:E; cbn [bind]; [|discriminate].
    apply hard_filter_rectangular. eapply Hnf, E. }
  unfold SingleImage.export_all_annotations_for_media,
    SingleImage.MEDIA_FIELD_CANDIDATES.
  cbn [SingleImage.try_candidates].
  destruct (SingleImage.attempt_csv sq media_id annset_id ann_fields "point.media.id")
    as [df1|e1] eqn:E1; [eapply Hcsv; eassumption|].
  destruct (SingleImage.attempt_csv sq media_id annset_id ann_fields "point.media_id")
    as [df2|e2] eqn:E2; [eapply Hcsv; eassumption|].
  destruct (SingleImage.attempt_json sq media_id annset_id ann_fields "point.media.id")
    as [df3|e3] eqn:E3; [eapply Hjson; eassumption|].
  destruct (SingleImage.attempt_json sq media_id annset_id ann_fields "point.media_id")
    as [df4|e4] eqn:E4; [eapply Hjson; eassumption|].
  constructor.
Qed.

Lemma resolver_rectangular (sq : server F) (media_id : Z) (ids : list Z)
    (annset_id : option Z) (ann_fields : list string) :
  rectangular
    (SingleImage.fetch_annotations_by_ids_for_media_via_get sq media_id ids annset_id
       ann_fields).1.
Proof.
  rewrite fetch_by_ids_unfold. unfold rectangular. cbn [fst columns rows].
  apply List.Forall_forall. intros row Hin.
  apply kept_rows_origin in Hin as (aid & _ & Hk).
  apply resolve_one_keep_inv in Hk as (js & _ & _ & _ & _ & ->).
  unfold project. apply length_map.
Qed.

Lemma retrieve_rectangular (cfg : SingleScript.config) (sq : server F) :
  answers_are_frames sq -> normalize_gives_frames ->
  rectangular (SingleScript.retrieve cfg sq).1.1.
Proof.
  intros Hfr Hnf. unfold SingleScript.retrieve.
  destruct (SingleScript.ANNOTATION_IDS cfg) as [|aid ids].
  - pose proof (export_all_rectangular sq (SingleScript.MEDIA_ID cfg)
                  (SingleScript.ANNSET_ID cfg) SingleImage.ANN_FIELDS Hfr Hnf) as Hr.
    destruct (SingleImage.export_all_annotations_for_media _ _ _ _) as [requests df].
    exact Hr.
  - pose proof (resolver_rectangular sq (SingleScript.MEDIA_ID cfg) (aid :: ids)
                  (SingleScript.ANNSET_ID cfg) SingleImage.ANN_FIELDS) as Hr.
    destruct (SingleImage.fetch_annotations_by_ids_for_media_via_get _ _ _ _ _)
      as [df diags].
    exact Hr.
Qed.

(** The provenance block of the single-image script fills the column
    [requested_media_id] with the media of the run. *)
Lemma single_provenance_media (cfg : SingleScript.config) (path : string) (df : table F) :
  rectangular df ->
  length (rows (SingleScript.add_provenance cfg path df)) = length (rows df) /\
  column (SingleScript.add_provenance cfg path df) "requested_media_id"
  = map (fun _ => CVal (JInt (SingleScript.MEDIA_ID cfg))) (rows df).
Proof.
  intros Hr. unfold SingleScript.add_provenance.
  set (v1 := CVal (JInt (SingleScript.MEDIA_ID cfg))).
  set (df1 := assign_scalar df "requested_media_id" v1).
  assert (rectangular df1) as Hr1 by now apply assign_rectangular.
  assert (In "requested_media_id" (columns df1)) as Hin1 by apply assign_has_label.
  assert (column df1 "requested_media_id" = map (fun _ => v1) (rows df)) as Hc1
    by now apply assign_column_new.
  assert (length (rows df1) = length (rows df)) as Hl1.
  { unfold df1. destruct (assign_cells df "requested_media_id" v1 Hr) as (g & -> & _).
    apply length_map. }
  set (df2 := match SingleScript.ANNSET_ID cfg with
              | Some annset =>
                  if bool_decide ("annotation_set_id" ∈ columns df1) then df1
                  else assign_scalar df1 "annotation_set_id" (CVal (JInt annset))
              | None => df1
              end).
  assert (rectangular df2 /\ In "requested_media_id" (columns df2) /\
          column df2 "requested_media_id" = map (fun _ => v1) (rows df) /\
          length (rows df2) = length (rows df)) as (Hr2 & Hin2 & Hc2 & Hl2).
  { unfold df2. destruct (SingleScript.ANNSET_ID cfg) as [annset|]; [|auto].
    destruct (bool_decide ("annotation_set_id" ∈ columns df1)); [auto|].
    split; [now apply assign_rectangular|].
    split; [now apply assign_keeps_labels|]. split.
    - rewrite assign_column_other; [assumption | assumption | discriminate | assumption].
    - destruct (assign_cells df1 "annotation_set_id" (CVal (JInt annset)) Hr1)
        as (g & -> & _).
      now rewrite length_map. }
  destruct (String.eqb path ""); [auto|]. split.
  - destruct (assign_cells df2 "local_image_path" (CVal (JStr path)) Hr2) as (g & -> & _).
    now rewrite length_map.
  - rewrite assign_column_other; [assumption | assumption | discriminate | assumption].
Qed.

(** X26. A media without usable [path_best] stops the run: when the image is
    to be downloaded and the media record has no [path_best], or a null or
    an empty one, the run ends with the [RuntimeError] of the script,
    whatever the service would answer about annotations -- no annotation
    table is written. *)
Theorem single_run_needs_path_best (cfg : SingleScript.config)
    (fields : gmap string (json F)) (sq : server F)
    (fetch_image : json F -> option string) :
  SingleScript.DOWNLOAD_IMAGE cfg = true ->
  (fields !! "path_best" = None \/
   exists url, fields !! "path_best" = Some url /\ truthy url = false) ->
  SingleScript.main cfg (Ok (JObj fields)) sq fetch_image
  = SingleScript.Aborted SingleScript.NoPathBest.
Proof.
  intros Hd Hp. unfold SingleScript.main, SingleScript.download_image. rewrite Hd.
  cbn [SingleScript.get_path_best].
  destruct Hp as [->|(url & -> & Hu)]; [reflexivity|]. now rewrite Hu.
Qed.

(** X27. What a run of the single-image script writes about annotations,
    when it ends: nothing, exactly when the table retrieved is empty;
    otherwise a table with as many rows as the table retrieved, each of
    which holds the media of the run under [requested_media_id], whichever
    of the two retrieval paths was taken. *)
Theorem single_run_provenance (cfg : SingleScript.config) (media_get : outcome (json F))
    (sq : server F) (fetch_image : json F -> option string)
    (out : SingleScript.outputs F) :
  answers_are_frames sq ->
  normalize_gives_frames ->
  SingleScript.main cfg media_get sq fetch_image = SingleScript.Done out ->
  let retrieved := (SingleScript.retrieve cfg sq).1.1 in
  (SingleScript.ann_csv out = None <-> empty retrieved = true) /\
  forall written, SingleScript.ann_csv out = Some written ->
    length (rows written) = length (rows retrieved) /\
    forall row, In row (rows written) ->
      cell_at (columns written) "requested_media_id" row
      = CVal (JInt (SingleScript.MEDIA_ID cfg)).
Proof.
  intros Hfr Hnf E retrieved.
  pose proof (retrieve_rectangular cfg sq Hfr Hnf) as Hr. fold retrieved in Hr.
  unfold SingleScript.main in E.
  destruct media_get as [media|e]; [|discriminate].
  destruct (SingleScript.download_image cfg media fetch_image) as [path|why];
    [|discriminate].
  unfold retrieved in *. destruct (SingleScript.retrieve cfg sq) as [[df requests] diags].
  cbn [fst] in *. injection E as <-. cbn [SingleScript.ann_csv].
  destruct (empty df) eqn:He.
  - split; [tauto | discriminate].
  - split; [split; discriminate|]. intros written [= <-].
    destruct (single_provenance_media cfg path df Hr) as [Hl Hc].
    split; [assumption|]. eapply column_constant. exact Hc.
Qed.

End SingleRun.

Lemma single_run_needs_path_best_witness :
  SingleScript.main SingleScript.defaults
    (Ok (JObj (list_to_map [("id", JInt 2683099); ("path_best", JStr "")])))
    Demo.two_media (fun _ => Some "out_single_multi/x.jpg")
  = SingleScript.Aborted SingleScript.NoPathBest.
Proof.
  apply (single_run_needs_path_best SingleScript.defaults
           (list_to_map [("id", JInt 2683099); ("path_best", JStr "")]) Demo.two_media).
  - reflexivity.
  - right. exists (JStr ""). split; reflexivity.
Defined.

Lemma demo_normalize_frames : normalize_gives_frames (F := Empty_set).
Proof.
  intros recs df. cbn [json_normalize Demo.runtime]. unfold Demo.normalize.
  assert (forall records, rectangular (Demo.frame_of records)) as Hfr.
  { intros records. unfold rectangular, Demo.frame_of. cbn [rows columns].
    apply List.Forall_forall. intros row Hin.
    apply in_map_iff in Hin as (rec & <- & _). apply length_map. }
  destruct recs as [| | | |s|items|fields]; try discriminate.
  - destruct items as [|[| | | | | |] items]; try discriminate;
      try (destruct (existsb Demo.is_list _); [discriminate|]);
      intros [= <-]; apply Hfr.
  - intros [= <-]. apply Hfr.
Qed.

Lemma single_run_provenance_witness :
  exists out written,
    SingleScript.main Cases.two_ids (Ok Demo.annotation_100) Demo.two_media
      (fun _ => None) = SingleScript.Done out /\
    SingleScript.ann_csv out = Some written /\
    length (rows written) = 1%nat /\
    forall row, In row (rows written) ->
      cell_at (columns written) "requested_media_id" row = CVal (JInt 7).
Proof.
  assert (answers_are_frames Demo.two_media) as Hfr by (intros rq df; discriminate).
  assert (exists out written,
            SingleScript.main Cases.two_ids (Ok Demo.annotation_100) Demo.two_media
              (fun _ => None) = SingleScript.Done out /\
            SingleScript.ann_csv out = Some written) as (out & written & E & Hw).
  { eexists. eexists. split; [vm_compute; reflexivity | reflexivity]. }
  exists out, written. split; [exact E|]. split; [exact Hw|].
  destruct (single_run_provenance Cases.two_ids (Ok Demo.annotation_100) Demo.two_media
              (fun _ => None) out Hfr demo_normalize_frames E) as [_ Hrows].
  destruct (Hrows written Hw) as [Hl Hc]. split; [|exact Hc].
  rewrite Hl. vm_compute. reflexivity.
Defined.

(** ** When the two exporters of the collection script raise *)

Section ExporterFaults.
Context {F : Type} `{Runtime F}.

(** X28. The export of an annotation set raises exactly when both of its
    requests fail, and then with the error of the retry: the error of the
    first request is never seen, and once either request is answered no
    later step can fail. *)
Theorem annset_export_raises (sqapi : server F) (annset_id : Z)
    (include_columns : option (list string)) (e : exn) :
  (ImageCollection.export_annotation_set_csv sqapi annset_id include_columns).2 = Raise e
  <->
  (exists first,
      read_csv_of sqapi (ImageCollection.annset_preferred annset_id include_columns)
      = Raise first) /\
  read_csv_of sqapi (ImageCollection.annset_retry annset_id) = Raise e.
Proof.
  unfold ImageCollection.export_annotation_set_csv.
  destruct (read_csv_of sqapi (ImageCollection.annset_preferred _ _)) as [df|e1];
    cbn [snd].
  - split; [discriminate | intros [[first Hf] _]; discriminate].
  - destruct (read_csv_of sqapi (ImageCollection.annset_retry annset_id)) as [df|e2];
      cbn [bind].
    + split; [discriminate | intros [_ Hr]; discriminate].
    + split; [intros [= ->]; eauto | intros [_ [= ->]]; reflexivity].
Qed.

(** X29. The export of a media collection raises exactly when its tabular
    request fails and the JSON fallback then fails in one of three ways:
    the request itself fails, or the answer is not a mapping
    ([AttributeError], from [js.get]), or the records cannot be normalized.
    The error of the tabular request is never seen. *)
Theorem media_export_raises (sqapi : server F) (collection_id : Z)
    (include_columns : option (list string)) (e : exn) :
  let include := ImageCollection.media_include include_columns in
  let fallback := json_of sqapi (ImageCollection.media_fallback collection_id include) in
  (ImageCollection.export_media_collection_csv sqapi collection_id include_columns).2
  = Raise e
  <->
  (exists first,
      read_csv_of sqapi (ImageCollection.media_preferred collection_id include)
      = Raise first) /\
  (fallback = Raise e \/
   (exists js, fallback = Ok js /\ get_objects js = Raise e /\ e = AttributeError) \/
   (exists js recs, fallback = Ok js /\ get_objects js = Ok recs /\
                    json_normalize recs = Raise e)).
Proof.
  intros include fallback. unfold ImageCollection.export_media_collection_csv.
  fold include. fold fallback.
  destruct (read_csv_of sqapi (ImageCollection.media_preferred _ _)) as [df|e1];
    cbn [snd].
  - split; [discriminate | intros [[first Hf] _]; discriminate].
  - destruct fallback as [js|e2]; cbn [bind].
    + destruct (get_objects js) as [recs|e3] eqn:Hg; cbn [bind].
      * destruct (json_normalize recs) as [df|e4] eqn:Hn; cbn [bind].
        -- split; [discriminate|].
           intros [_ [Hf|[(js' & [= <-] & Hg' & _)|(js' & recs' & [= <-] & Hg' & Hn')]]];
             [discriminate | congruence | congruence].
        -- split.
           ++ intros [= ->]. split; [eauto|]. right. right. eauto.
           ++ intros [_ [Hf|[(js' & [= <-] & Hg' & _)|(js' & recs' & [= <-] & Hg' & Hn')]]];
                [discriminate | congruence | congruence].
      * assert (e3 = AttributeError) as ->.
        { destruct js; cbn in Hg; try congruence.
          destruct (_ !! "objects"); discriminate. }
        split.
        -- intros [= <-]. split; [eauto|]. right. left. eauto.
        -- intros [_ [Hf|[(js' & [= <-] & Hg' & ->)|(js' & recs' & [= <-] & Hg' & _)]]];
             [discriminate | reflexivity | congruence].
    + split; [intros [= ->]; eauto|].
      intros [_ [[= ->]|[(js' & Hf & _)|(js' & recs' & Hf & _)]]];
        [reflexivity | discriminate | discriminate].
Qed.

(** X30. Both requests of the media export ask for [id] and [path_best],
    whatever list of columns the caller gave, as long as turning a list
    into a set and back loses no element. *)
Theorem media_export_asks_id_and_url (sqapi : server F) (collection_id : Z)
    (wanted : option (list string)) (rq : request) :
  (forall (l : list string) (x : string), In x l -> In x (set_order l)) ->
  In rq (ImageCollection.export_media_collection_csv sqapi collection_id wanted).1 ->
  exists asked,
    include_columns rq = Some asked /\ In "id" asked /\ In "path_best" asked /\
    forall c, In c (or_nil wanted) -> In c asked.
Proof.
  intros Hset Hin.
  assert (In "id" (ImageCollection.media_include wanted) /\
          In "path_best" (ImageCollection.media_include wanted) /\
          forall c, In c (or_nil wanted) ->
                    In c (ImageCollection.media_include wanted))
    as (Hid & Hurl & Hinc).
  { unfold ImageCollection.media_include.
    repeat split; intros; apply Hset, in_or_app; simpl; auto. }
  unfold ImageCollection.export_media_collection_csv in Hin.
  destruct (read_csv_of sqapi _) as [df|e1]; cbn [fst] in Hin;
    simpl in Hin; intuition (subst; eexists; split; [reflexivity | auto]).
Qed.

End ExporterFaults.

Lemma media_export_asks_id_and_url_witness :
  exists asked,
    include_columns
      (ImageCollection.media_preferred 14233 (ImageCollection.media_include (Some ["key"])))
    = Some asked /\
    In "id" asked /\ In "path_best" asked /\
    forall c, In c (or_nil (Some ["key"])) -> In c asked.
Proof.
  apply (media_export_asks_id_and_url Demo.up 14233 (Some ["key"])).
  - intros l x Hin. cbn [set_order Demo.runtime].
    apply list_elem_of_In, elem_of_remove_dups, list_elem_of_In. exact Hin.
  - vm_compute. left. reflexivity.
Defined.
